(** * Cursor background-agent MCP server: the request, cache and retry layer

    A shallow embedding of [cursor_agent_mcp_server.py]: the repository URL
    parser, the transport session, the retrying request executor, the
    time-boxed caches and the operation handlers, followed by the properties
    the specification states about them.

    The server object and what it has done to the outside world (requests
    sent, clock readings taken, sleeps) form one state that every operation
    threads.  The network and the clock are oracles: the n-th request gets
    the n-th answer, the n-th reading of the clock the n-th time.  Time is
    counted in integer time-units. *)

From Stdlib Require Import ZArith List String Ascii Bool Lia.
From Stdlib Require Import Numbers.DecimalString.
From stdpp Require Import base gmap strings.

Local Open Scope string_scope.
Local Open Scope Z_scope.

(** ** Python strings *)

Module PyStr.

(** [s.startswith(p)]. *)
Fixpoint startswith (p s : string) : bool :=
  match p, s with
  | EmptyString, _ => true
  | String a p', String b s' => Ascii.eqb a b && startswith p' s'
  | String _ _, EmptyString => false
  end.

(** [p in s] for strings. *)
Fixpoint contains (p s : string) : bool :=
  startswith p s ||
  match s with
  | EmptyString => false
  | String _ s' => contains p s'
  end.

(** [s.replace(old, new)] for a non-empty [old]: the occurrences are found
    from left to right and do not overlap.  [skip] counts the characters
    of the occurrence being replaced that are still to be dropped. *)
Fixpoint replace_from (old new : string) (skip : nat) (s : string) : string :=
  match s with
  | EmptyString => EmptyString
  | String c s' =>
      match skip with
      | S k => replace_from old new k s'
      | O =>
          if startswith old s
          then String.append new (replace_from old new (Nat.pred (String.length old)) s')
          else String c (replace_from old new O s')
      end
  end.

Definition replace (old new s : string) : string := replace_from old new O s.

(** [s.rstrip(c)] for a one-character set. *)
Fixpoint rstrip (c : ascii) (s : string) : string :=
  match s with
  | EmptyString => EmptyString
  | String a s' =>
      match rstrip c s' with
      | EmptyString => if Ascii.eqb a c then EmptyString else String a EmptyString
      | r => String a r
      end
  end.

(** [s.split(c, 1)] when [c] occurs in [s]: the text before the first
    occurrence and the text after it. *)
Fixpoint split_once (c : ascii) (s : string) : option (string * string) :=
  match s with
  | EmptyString => None
  | String a s' =>
      if Ascii.eqb a c then Some (EmptyString, s')
      else match split_once c s' with
           | Some (l, r) => Some (String a l, r)
           | None => None
           end
  end.

(** Whether the character [c] occurs in [s]. *)
Fixpoint has_char (c : ascii) (s : string) : bool :=
  match s with
  | EmptyString => false
  | String a s' => Ascii.eqb a c || has_char c s'
  end.

(** [s] without its prefix [p], when it has it. *)
Fixpoint strip_prefix (p s : string) : option string :=
  match p, s with
  | EmptyString, _ => Some s
  | String a p', String b s' => if Ascii.eqb a b then strip_prefix p' s' else None
  | String _ _, EmptyString => None
  end.

(** [str(n)] for a natural number and for an integer. *)
Definition of_nat (n : nat) : string := NilEmpty.string_of_uint (Nat.to_uint n).
Definition of_Z (z : Z) : string := NilZero.string_of_int (Z.to_int z).

End PyStr.

(** ** Exceptions and results *)

Inductive exn_class : Type :=
| ClientError      (* aiohttp.ClientError and its subclasses *)
| ValueError
| KeyError
| AttributeError
| TypeError
| RuntimeError
| PlainException.  (* raise Exception(...) *)

Record exn : Type := Exn { exn_cls : exn_class; exn_msg : string }.

Inductive result (A : Type) : Type :=
| Ok (a : A)
| Raise (e : exn).
Arguments Ok {A} a.
Arguments Raise {A} e.

Definition is_client_error (e : exn) : bool :=
  match exn_cls e with ClientError => true | _ => false end.

(** ** Repository URL parsing *)

Definition slash : ascii := "/"%char.

(** The body of the [try] block of [_extract_repo_info]; [None] stands for
    the [ValueError] raised inside it. *)
Definition extract_parts (repository_url : string) : option (string * string) :=
  if PyStr.contains "github.com" repository_url then
    let parts :=
      PyStr.rstrip slash
        (PyStr.replace "http://github.com/" ""
           (PyStr.replace "https://github.com/" "" repository_url)) in
    if PyStr.contains "/" parts then PyStr.split_once slash parts else None
  else None.

Definition invalid_repository_url (repository_url : string) : exn :=
  Exn ValueError (String.append "Invalid repository URL: " repository_url).

Definition _extract_repo_info (repository_url : string) : result (string * string) :=
  match extract_parts repository_url with
  | Some (owner, repo) => Ok (owner, repo)
  | None => Raise (invalid_repository_url repository_url)
  end.

(** The form of URL the specification names:
    [http(s)://github.com/<owner>/<repo>[/...]]. *)
Definition spec_github_url (url : string) : bool :=
  let well_formed (body : string) : bool :=
    match PyStr.split_once slash body with
    | Some (owner, rest) => negb (String.eqb owner "") && negb (String.eqb rest "")
    | None => false
    end in
  match PyStr.strip_prefix "https://github.com/" url with
  | Some body => well_formed body
  | None =>
      match PyStr.strip_prefix "http://github.com/" url with
      | Some body => well_formed body
      | None => false
      end
  end.

(** ** Decoded JSON values, used as Python values

    Numbers are integers; a JSON object is the Python [dict] it decodes to,
    kept as an association list in insertion order.  A Python [str] is a
    [string] with one [ascii] for each of its characters, so that [len],
    indexing and iteration go by character: the strings covered are those
    of characters with code points below 256. *)

#[warnings="-register-all"]
Inductive json : Type :=
| JNull
| JBool (b : bool)
| JNum (z : Z)
| JStr (s : string)
| JList (l : list json)
| JObj (m : list (string * json)).

Module Py.

Fixpoint lookup (k : string) (m : list (string * json)) : option json :=
  match m with
  | nil => None
  | (k', v) :: m' => if String.eqb k k' then Some v else lookup k m'
  end.

(** [type(v).__name__]. *)
Definition type_name (v : json) : string :=
  match v with
  | JNull => "NoneType"
  | JBool _ => "bool"
  | JNum _ => "int"
  | JStr _ => "str"
  | JList _ => "list"
  | JObj _ => "dict"
  end.

(** Looking up the method [d.get]: only a [dict] has it. *)
Definition get_method (d : json) : result (list (string * json)) :=
  match d with
  | JObj m => Ok m
  | _ =>
      Raise (Exn AttributeError
               (String.append "'"
                  (String.append (type_name d) "' object has no attribute 'get'")))
  end.

(** [m.get(k, default)] on a [dict]. *)
Definition dict_get (m : list (string * json)) (k : string) (default : json) : json :=
  match lookup k m with Some v => v | None => default end.

(** [d.get(k, default)] on any value. *)
Definition get (d : json) (k : string) (default : json) : result json :=
  match get_method d with
  | Ok m => Ok (dict_get m k default)
  | Raise e => Raise e
  end.

(** [m[k]] on a [dict]. *)
Definition dict_getitem (m : list (string * json)) (k : string) : result json :=
  match lookup k m with
  | Some v => Ok v
  | None => Raise (Exn KeyError (String.append "'" (String.append k "'")))
  end.

(** [v == s] for a string literal [s]. *)
Definition eq_str (v : json) (s : string) : bool :=
  match v with
  | JStr t => String.eqb t s
  | _ => false
  end.

(** [d[k]] for a string [k]. *)
Definition getitem (d : json) (k : string) : result json :=
  match d with
  | JObj m => dict_getitem m k
  | _ => Raise (Exn TypeError "indices must be integers or the object is not subscriptable")
  end.

(** Truthiness, as tested by [if v] and [v and ...]. *)
Definition truthy (v : json) : bool :=
  match v with
  | JNull => false
  | JBool b => b
  | JNum z => negb (z =? 0)
  | JStr s => negb (String.eqb s "")
  | JList l => match l with nil => false | _ => true end
  | JObj m => match m with nil => false | _ => true end
  end.

(** [len(v)]. *)
Definition len (v : json) : result nat :=
  match v with
  | JStr s => Ok (String.length s)
  | JList l => Ok (List.length l)
  | JObj m => Ok (List.length m)
  | _ => Raise (Exn TypeError "object has no len()")
  end.

(** [v[0]]. The keys of a decoded object are strings, so [0] is never one. *)
Definition index0 (v : json) : result json :=
  match v with
  | JList (x :: _) => Ok x
  | JList nil => Raise (Exn PlainException "list index out of range")
  | JStr (String c _) => Ok (JStr (String c EmptyString))
  | JStr EmptyString => Raise (Exn PlainException "string index out of range")
  | JObj _ => Raise (Exn KeyError "0")
  | _ => Raise (Exn TypeError "object is not subscriptable")
  end.

Fixpoint chars (s : string) : list json :=
  match s with
  | EmptyString => nil
  | String c s' => JStr (String c EmptyString) :: chars s'
  end.

(** The items a [for] loop or a comprehension visits. *)
Definition iter (v : json) : result (list json) :=
  match v with
  | JList l => Ok l
  | JObj m => Ok (List.map (fun kv => JStr (fst kv)) m)
  | JStr s => Ok (chars s)
  | _ => Raise (Exn TypeError "object is not iterable")
  end.

(** Only immutable values can be dictionary keys. *)
Definition hashable (v : json) : bool :=
  match v with
  | JList _ | JObj _ => false
  | _ => true
  end.

Definition as_int (v : json) : option Z :=
  match v with
  | JNum z => Some z
  | JBool true => Some 1
  | JBool false => Some 0
  | _ => None
  end.

(** [a == b] on hashable values ([True == 1] and [False == 0]). *)
Definition key_eqb (a b : json) : bool :=
  match a, b with
  | JNull, JNull => true
  | JStr s, JStr t => String.eqb s t
  | _, _ =>
      match as_int a, as_int b with
      | Some x, Some y => x =? y
      | _, _ => false
      end
  end.

(** [[f(x) for x in l]] where [f] may raise. *)
Fixpoint map_result {A B : Type} (f : A -> result B) (l : list A) : result (list B) :=
  match l with
  | nil => Ok nil
  | x :: l' =>
      match f x with
      | Raise e => Raise e
      | Ok y =>
          match map_result f l' with
          | Raise e => Raise e
          | Ok ys => Ok (y :: ys)
          end
      end
  end.

End Py.

(** ** Configuration, agent records and the transport *)

Record CursorApiConfig : Type := {
  api_key : string;
  base_url : string;
  timeout : Z;
  max_retries : Z
}.

Definition default_config (key : string) : CursorApiConfig :=
  {| api_key := key; base_url := "https://api.cursor.com"; timeout := 30; max_retries := 3 |}.

Record BackgroundAgent : Type := {
  agent_id : json;
  status : json;
  repository_url : json;
  prompt : json;
  branch : json;
  model : json;
  created_at : json;
  updated_at : json;
  progress : json
}.

(** [aiohttp.ClientSession], as far as the server looks at it. *)
Record ClientSession : Type := {
  closed : bool;
  session_timeout : Z;
  session_headers : list (string * string)
}.

(** What the server reads of a response: its status, and what awaiting
    [response.json()] and [response.text()] gives. *)
Record response : Type := {
  resp_status : Z;
  resp_json : result json;
  resp_text : result string
}.

(** The outcome of sending one request over an open session. *)
Inductive attempt : Type :=
| Raised (e : exn)
| Responded (r : response).

Record request : Type := {
  req_method : string;
  req_url : string;
  req_json : option json
}.

(** Everything outside the process: the answer to the n-th request sent,
    the n-th reading of the clock (as [time.time()], as
    [datetime.utcnow().isoformat()] and as [datetime.utcnow().timestamp()]),
    and Python's [repr] of a value. *)
Record environment : Type := {
  config : CursorApiConfig;
  transport : nat -> attempt;
  clock : nat -> Z;
  utc_iso : nat -> string;
  utc_stamp : nat -> string;
  repr : json -> string
}.

(** ** The server and the world it has acted on *)

Record state : Type := mkState {
  session : option ClientSession;
  agents : list (json * BackgroundAgent);
  _models_cache : option json;
  _repositories_cache : option json;
  _branches_cache : gmap string json;
  _models_cache_timestamp : option Z;
  _repositories_cache_timestamp : option Z;
  _branches_cache_timestamp : gmap string Z;
  sent : list request;        (* requests handed to the network, oldest first *)
  clock_reads : nat;          (* readings of the clock taken so far *)
  sleeps : list Z             (* [asyncio.sleep] delays, oldest first *)
}.

(** The server as [__init__] leaves it. *)
Definition init : state :=
  mkState None nil None None ∅ None None ∅ nil O nil.

Definition set_session (v : option ClientSession) (st : state) : state :=
  mkState v (agents st) (_models_cache st) (_repositories_cache st) (_branches_cache st)
    (_models_cache_timestamp st) (_repositories_cache_timestamp st)
    (_branches_cache_timestamp st) (sent st) (clock_reads st) (sleeps st).

Definition set_agents (v : list (json * BackgroundAgent)) (st : state) : state :=
  mkState (session st) v (_models_cache st) (_repositories_cache st) (_branches_cache st)
    (_models_cache_timestamp st) (_repositories_cache_timestamp st)
    (_branches_cache_timestamp st) (sent st) (clock_reads st) (sleeps st).

Definition set_models_cache (v : option json) (t : option Z) (st : state) : state :=
  mkState (session st) (agents st) v (_repositories_cache st) (_branches_cache st)
    t (_repositories_cache_timestamp st)
    (_branches_cache_timestamp st) (sent st) (clock_reads st) (sleeps st).

Definition set_repositories_cache (v : option json) (t : option Z) (st : state) : state :=
  mkState (session st) (agents st) (_models_cache st) v (_branches_cache st)
    (_models_cache_timestamp st) t
    (_branches_cache_timestamp st) (sent st) (clock_reads st) (sleeps st).

Definition set_branches_cache (v : gmap string json) (t : gmap string Z) (st : state) : state :=
  mkState (session st) (agents st) (_models_cache st) (_repositories_cache st) v
    (_models_cache_timestamp st) (_repositories_cache_timestamp st)
    t (sent st) (clock_reads st) (sleeps st).

Definition set_world (s : list request) (c : nat) (z : list Z) (st : state) : state :=
  mkState (session st) (agents st) (_models_cache st) (_repositories_cache st)
    (_branches_cache st) (_models_cache_timestamp st) (_repositories_cache_timestamp st)
    (_branches_cache_timestamp st) s c z.

(** ** Computations that change the state and may raise

    An exception keeps the changes made before it was raised. *)

Definition M (A : Type) : Type := state -> result A * state.

Definition ret {A : Type} (a : A) : M A := fun st => (Ok a, st).

Definition raise {A : Type} (e : exn) : M A := fun st => (Raise e, st).

Definition lift {A : Type} (r : result A) : M A := fun st => (r, st).

Definition bind {A B : Type} (c : M A) (k : A -> M B) : M B :=
  fun st =>
    match c st with
    | (Ok a, st') => k a st'
    | (Raise e, st') => (Raise e, st')
    end.

Notation "'let*' x ':=' c 'in' k" := (bind c (fun x => k))
  (at level 10, x name, c at level 100, k at level 200).
Notation "'let*' ' p ':=' c 'in' k" := (bind c (fun p => k))
  (at level 10, p pattern, c at level 100, k at level 200).

Definition modify (f : state -> state) : M unit := fun st => (Ok tt, f st).

Definition gets {A : Type} (f : state -> A) : M A := fun st => (Ok (f st), st).

(** A step that cannot raise. *)
Definition total {A : Type} (c : state -> A * state) : M A :=
  fun st => let (a, st') := c st in (Ok a, st').

(** [try: body / except Exception as e: handler(e)] where the handler
    returns: the whole never raises. *)
Definition catching {A : Type} (body : M A) (handler : exn -> state -> A * state)
  : state -> A * state :=
  fun st =>
    match body st with
    | (Ok a, st') => (a, st')
    | (Raise e, st') => handler e st'
    end.

Definition str_of (e : exn) : json := JStr (exn_msg e).

Definition strs (l : list string) : json := JList (List.map JStr l).

Section Server.

Variable env : environment.

(** [str(v)]. *)
Definition py_str (v : json) : string :=
  match v with
  | JStr s => s
  | _ => repr env v
  end.

(** *** Clock and sleep *)

Definition tick (st : state) : state :=
  set_world (sent st) (S (clock_reads st)) (sleeps st) st.

Definition time_time : state -> Z * state :=
  fun st => (clock env (clock_reads st), tick st).

Definition utcnow_isoformat : state -> json * state :=
  fun st => (JStr (utc_iso env (clock_reads st)), tick st).

Definition utcnow_timestamp : state -> string * state :=
  fun st => (utc_stamp env (clock_reads st), tick st).

Definition sleep (delay : Z) : M unit :=
  modify (fun st => set_world (sent st) (clock_reads st) (sleeps st ++ [delay]) st).

(** *** Cache validity *)

Definition _cache_duration : Z := 300.

Definition _is_cache_valid (cache_timestamp : option Z) : state -> bool * state :=
  fun st =>
    match cache_timestamp with
    | None => (false, st)
    | Some t => let (now, st') := time_time st in (now - t <? _cache_duration, st')
    end.

Definition clear_cache : M unit :=
  modify (fun st =>
    set_branches_cache ∅ ∅
      (set_repositories_cache None None (set_models_cache None None st))).

(** *** Transport session *)

Definition new_session : ClientSession :=
  {| closed := false;
     session_timeout := timeout (config env);
     session_headers :=
       [("Authorization", String.append "Bearer " (api_key (config env)));
        ("Content-Type", "application/json");
        ("User-Agent", "Cursor-Agent-MCP-Server/1.0.0")] |}.

Definition _ensure_session : M unit :=
  fun st =>
    match session st with
    | None => (Ok tt, set_session (Some new_session) st)
    | Some _ => (Ok tt, st)
    end.

Definition initialize : M unit := _ensure_session.

(** [ClientSession.close()] marks the session closed and does nothing to
    one that is closed already; the object stays in [self.session]. *)
Definition close (s : ClientSession) : ClientSession :=
  {| closed := true;
     session_timeout := session_timeout s;
     session_headers := session_headers s |}.

Definition cleanup : M unit :=
  fun st =>
    match session st with
    | Some s => (Ok tt, set_session (Some (close s)) st)
    | None => (Ok tt, st)
    end.

(** [self.session.request(...)] and [self.session.get(...)]: there is no
    method to call on [None], a closed session refuses every request, an
    open one hands the request to the network.  Only list-branches, which
    calls [self.session.get], can find [None] here: the executor creates
    the session before it sends. *)
Definition send (r : request) : M response :=
  fun st =>
    match session st with
    | None => (Raise (Exn AttributeError "'NoneType' object has no attribute 'get'"), st)
    | Some s =>
        if closed s then (Raise (Exn RuntimeError "Session is closed"), st)
        else
          let st' := set_world (sent st ++ [r]) (clock_reads st) (sleeps st) st in
          match transport env (List.length (sent st)) with
          | Raised e => (Raise e, st')
          | Responded resp => (Ok resp, st')
          end
    end.

(** *** Retrying request executor *)

Definition authentication_failed : exn :=
  Exn PlainException "Authentication failed. Check your Cursor API key.".

Definition api_request_failed (code : Z) (data : json) : exn :=
  Exn PlainException
    (String.append "API request failed: "
       (String.append (PyStr.of_Z code) (String.append " - " (py_str data)))).

Definition network_error (e : exn) : exn :=
  Exn PlainException
    (String.append "Network error after "
       (String.append (PyStr.of_Z (max_retries (config env)))
          (String.append " attempts: " (exn_msg e)))).

Definition retries_exhausted : exn :=
  Exn PlainException
    (String.append "Failed to complete request after "
       (String.append (PyStr.of_Z (max_retries (config env))) " attempts")).

(** What one pass through the loop body decides. *)
Inductive verdict : Type :=
| Return (data : json)
| Fail (e : exn)
| Continue.

(** The body of the [for attempt in range(max_retries)] loop. *)
Definition one_attempt (r : request) (attempt : Z) : M verdict :=
  fun st =>
    let on_exception (e : exn) (st' : state) : result verdict * state :=
      if is_client_error e then
        if attempt =? max_retries (config env) - 1
        then (Ok (Fail (network_error e)), st')
        else (let* _ := sleep (2 ^ attempt) in ret Continue) st'
      else (Ok (Fail e), st') in
    match send r st with
    | (Raise e, st') => on_exception e st'
    | (Ok resp, st') =>
        match resp_json resp with
        | Raise e => on_exception e st'
        | Ok response_data =>
            let code := resp_status resp in
            if (code =? 200) || (code =? 201) then (Ok (Return response_data), st')
            else if code =? 401 then (Ok (Fail authentication_failed), st')
            else if code =? 429 then
              (let* _ := sleep (2 ^ attempt) in ret Continue) st'
            else (Ok (Fail (api_request_failed code response_data)), st')
        end
    end.

(** The loop, with [remaining] passes left and [attempt] the loop
    variable of the next one. *)
Fixpoint attempts (r : request) (remaining : nat) (attempt : Z) : M json :=
  match remaining with
  | O => raise retries_exhausted
  | S k =>
      let* v := one_attempt r attempt in
      match v with
      | Return data => ret data
      | Fail e => raise e
      | Continue => attempts r k (attempt + 1)
      end
  end.

Definition _make_api_request (method endpoint : string) (data : option json) : M json :=
  let* _ := _ensure_session in
  let url := String.append (base_url (config env)) endpoint in
  attempts {| req_method := method; req_url := url; req_json := data |}
    (Z.to_nat (max_retries (config env))) 0.

(** *** Agent registry: [self.agents] *)

Fixpoint reg_find (k : json) (l : list (json * BackgroundAgent)) : option BackgroundAgent :=
  match l with
  | nil => None
  | (k', a) :: l' => if Py.key_eqb k k' then Some a else reg_find k l'
  end.

(** [self.agents[k] = a]: an equal key keeps its place. *)
Fixpoint reg_set (k : json) (a : BackgroundAgent) (l : list (json * BackgroundAgent))
  : list (json * BackgroundAgent) :=
  match l with
  | nil => [(k, a)]
  | (k', a') :: l' =>
      if Py.key_eqb k k' then (k', a) :: l' else (k', a') :: reg_set k a l'
  end.

(** Assigning to attributes of the record stored under [k]. *)
Fixpoint reg_alter (f : BackgroundAgent -> BackgroundAgent) (k : json)
    (l : list (json * BackgroundAgent)) : list (json * BackgroundAgent) :=
  match l with
  | nil => nil
  | (k', a) :: l' =>
      if Py.key_eqb k k' then (k', f a) :: l' else (k', a) :: reg_alter f k l'
  end.

Definition unhashable : exn := Exn TypeError "unhashable type".

(** [k in self.agents]. *)
Definition reg_contains (k : json) : M bool :=
  fun st =>
    if Py.hashable k
    then (Ok (match reg_find k (agents st) with Some _ => true | None => false end), st)
    else (Raise unhashable, st).

Definition reg_store (k : json) (a : BackgroundAgent) : M unit :=
  fun st =>
    if Py.hashable k
    then (Ok tt, set_agents (reg_set k a (agents st)) st)
    else (Raise unhashable, st).

Definition set_status_progress (s p u : json) (a : BackgroundAgent) : BackgroundAgent :=
  {| agent_id := agent_id a; status := s; repository_url := repository_url a;
     prompt := prompt a; branch := branch a; model := model a;
     created_at := created_at a; updated_at := u; progress := p |}.

(** *** create

    The configuration class has no [webhook_url] attribute, so the branch
    that would add a webhook to the payload is never taken. *)

Definition _create_background_agent (args : list (string * json)) : state -> json * state :=
  catching
    (let* text := lift (Py.dict_getitem args "prompt") in
     let* repository := lift (Py.dict_getitem args "repository_url") in
     let ref := Py.dict_get args "branch" (JStr "main") in
     let mdl := Py.dict_get args "model" (JStr "claude-3-5-sonnet") in
     let payload :=
       JObj [("prompt", JObj [("text", text)]);
             ("source", JObj [("repository", repository); ("ref", ref)]);
             ("model", mdl);
             ("target", JObj [("autoCreatePr", JBool true)])] in
     let* response := _make_api_request "POST" "/v0/agents" (Some payload) in
     let* fields := lift (Py.get_method response) in
     let* stamp := total utcnow_timestamp in
     let* now := total utcnow_isoformat in
     let agent :=
       {| agent_id := Py.dict_get fields "id" (JStr ("agent-" +:+ stamp));
          status := Py.dict_get fields "status" (JStr "CREATING");
          repository_url := repository;
          prompt := text;
          branch := ref;
          model := mdl;
          created_at := Py.dict_get fields "createdAt" now;
          updated_at := JNull;
          progress := JNull |} in
     let* _ := reg_store (agent_id agent) agent in
     ret (JObj [("success", JBool true);
                ("agent_id", agent_id agent);
                ("status", status agent);
                ("repository_url", repository_url agent);
                ("branch", branch agent);
                ("model", model agent);
                ("created_at", created_at agent);
                ("message",
                 JStr ("Background agent created successfully. Agent will work autonomously on '"
                       +:+ py_str text +:+ "'"))]))
    (fun e st =>
       (JObj [("success", JBool false);
              ("error", str_of e);
              ("message",
               JStr "Failed to create background agent. Check your API key and repository access.")],
        st)).

(** *** get-status *)

Definition _get_agent_status (args : list (string * json)) : state -> json * state :=
  catching
    (let* id := lift (Py.dict_getitem args "agent_id") in
     let* response := _make_api_request "GET" ("/v0/agents/" +:+ py_str id) None in
     let* known := reg_contains id in
     let* _ :=
       if known then
         let* fields := lift (Py.get_method response) in
         let* now := total utcnow_isoformat in
         modify (fun st =>
           set_agents
             (reg_alter
                (fun a =>
                   set_status_progress
                     (Py.dict_get fields "status" (status a))
                     (Py.dict_get fields "progress" (progress a))
                     now a)
                id (agents st)) st)
       else ret tt in
     let* fields := lift (Py.get_method response) in
     ret (JObj [("success", JBool true);
                ("agent_id", id);
                ("status", Py.dict_get fields "status" (JStr "unknown"));
                ("progress", Py.dict_get fields "progress" (JObj nil));
                ("repository_url", Py.dict_get fields "repository_url" JNull);
                ("branch", Py.dict_get fields "branch" JNull);
                ("created_at", Py.dict_get fields "created_at" JNull);
                ("updated_at", Py.dict_get fields "updated_at" JNull);
                ("logs", Py.dict_get fields "logs" (JList nil))]))
    (fun e st =>
       (JObj [("success", JBool false);
              ("error", str_of e);
              ("message",
               JStr ("Failed to get status for agent "
                     +:+ py_str (Py.dict_get args "agent_id" JNull)))],
        st)).

(** *** follow-up *)

Definition _add_followup_instruction (args : list (string * json)) : state -> json * state :=
  catching
    (let* id := lift (Py.dict_getitem args "agent_id") in
     let* instruction := lift (Py.dict_getitem args "instruction") in
     let payload := JObj [("instruction", instruction)] in
     let* response :=
       _make_api_request "POST" ("/v0/agents/" +:+ py_str id +:+ "/followup") (Some payload) in
     let* st := lift (Py.get response "status" (JStr "updated")) in
     ret (JObj [("success", JBool true);
                ("agent_id", id);
                ("instruction_added", instruction);
                ("status", st);
                ("message", JStr "Follow-up instruction added successfully")]))
    (fun e st =>
       (JObj [("success", JBool false);
              ("error", str_of e);
              ("message",
               JStr ("Failed to add instruction to agent "
                     +:+ py_str (Py.dict_get args "agent_id" JNull)))],
        st)).

(** *** stop *)

Definition _stop_background_agent (args : list (string * json)) : state -> json * state :=
  catching
    (let* id := lift (Py.dict_getitem args "agent_id") in
     let* response := _make_api_request "DELETE" ("/v0/agents/" +:+ py_str id) None in
     let* known := reg_contains id in
     let* _ :=
       if known then
         let* now := total utcnow_isoformat in
         modify (fun st =>
           set_agents
             (reg_alter (fun a => set_status_progress (JStr "stopped") (progress a) now a)
                id (agents st)) st)
       else ret tt in
     ret (JObj [("success", JBool true);
                ("agent_id", id);
                ("status", JStr "stopped");
                ("message", JStr "Background agent stopped successfully")]))
    (fun e st =>
       (JObj [("success", JBool false);
              ("error", str_of e);
              ("message",
               JStr ("Failed to stop agent " +:+ py_str (Py.dict_get args "agent_id" JNull)))],
        st)).

(** *** list

    The [params] dictionary built from the filters is never used; only
    [limit] and [cursor] reach the query string. *)

Fixpoint for_each {A : Type} (f : A -> M unit) (l : list A) : M unit :=
  match l with
  | nil => ret tt
  | x :: l' => let* _ := f x in for_each f l'
  end.

(** The body of the loop over the agents of a list response. *)
Definition absorb_agent (agent_data : json) : M unit :=
  let* fields := lift (Py.get_method agent_data) in
  let id := Py.dict_get fields "agent_id" JNull in
  if Py.truthy id then
    let* known := reg_contains id in
    if known then
      let* now := total utcnow_isoformat in
      modify (fun st =>
        set_agents
          (reg_alter
             (fun a =>
                set_status_progress (Py.dict_get fields "status" (status a)) (progress a) now a)
             id (agents st)) st)
    else
      reg_store id
        {| agent_id := id;
           status := Py.dict_get fields "status" (JStr "unknown");
           repository_url := Py.dict_get fields "repository_url" (JStr "");
           prompt := Py.dict_get fields "prompt" (JStr "");
           branch := Py.dict_get fields "branch" JNull;
           model := Py.dict_get fields "model" JNull;
           created_at := Py.dict_get fields "created_at" JNull;
           updated_at := JNull;
           progress := JNull |}
  else ret tt.

Definition query_param (args : list (string * json)) (name : string) : list string :=
  let v := Py.dict_get args name JNull in
  if Py.truthy v then [name +:+ "=" +:+ py_str v] else nil.

Fixpoint join (sep : string) (l : list string) : string :=
  match l with
  | nil => ""
  | [x] => x
  | x :: l' => x +:+ sep +:+ join sep l'
  end.

Definition _list_background_agents (args : list (string * json)) : state -> json * state :=
  catching
    (let query_string := join "&" (query_param args "limit" ++ query_param args "cursor") in
     let endpoint :=
       if String.eqb query_string "" then "/v0/agents" else "/v0/agents?" +:+ query_string in
     let* response := _make_api_request "GET" endpoint None in
     let* listed := lift (Py.get response "agents" (JList nil)) in
     let* items := lift (Py.iter listed) in
     let* _ := for_each absorb_agent items in
     let* n := lift (Py.len listed) in
     ret (JObj [("success", JBool true);
                ("total_agents", JNum (Z.of_nat n));
                ("agents", listed);
                ("filters_applied",
                 JObj [("status", Py.dict_get args "status_filter" JNull);
                       ("repository", Py.dict_get args "repository_filter" JNull)])]))
    (fun e st =>
       (JObj [("success", JBool false);
              ("error", str_of e);
              ("message", JStr "Failed to list background agents")],
        st)).

(** *** usage *)

Definition running (a : json * BackgroundAgent) : bool := Py.eq_str (status (snd a)) "running".

Definition local_usage (st : state) : json :=
  JObj [("active_agents", JNum (Z.of_nat (List.length (List.filter running (agents st)))));
        ("total_agents_created", JNum (Z.of_nat (List.length (agents st))))].

Definition fetch_usage : M json :=
  let* response := _make_api_request "GET" "/v0/api-key-info" None in
  let* fields := lift (Py.get_method response) in
  ret (JObj [("success", JBool true);
             ("usage", Py.dict_get fields "usage" (JObj nil));
             ("limits", Py.dict_get fields "limits" (JObj nil));
             ("billing_period", Py.dict_get fields "billing_period" (JObj nil));
             ("remaining_quota", Py.dict_get fields "remaining_quota" (JObj nil));
             ("reset_date", Py.dict_get fields "reset_date" JNull)]).

Definition usage_fallback (e : exn) (st : state) : json * state :=
  (JObj [("success", JBool false);
         ("error", str_of e);
         ("message", JStr "Failed to get API usage information");
         ("usage", local_usage st)],
   st).

Definition _get_api_usage : state -> json * state := catching fetch_usage usage_fallback.

(** *** list-models *)

(** [if cache:] on a cache attribute that starts as [None]. *)
Definition cache_truthy (c : option json) : bool :=
  match c with
  | Some v => Py.truthy v
  | None => false
  end.

(** The test that guards the cached answer:
    [not force_refresh and self._is_cache_valid(ts) and cache]. *)
Definition cache_check (force_refresh : bool) (ts : option Z) (cache : option json)
  : state -> option json * state :=
  fun st =>
    if force_refresh then (None, st)
    else
      let (valid, st') := _is_cache_valid ts st in
      (if valid && cache_truthy cache then cache else None, st').

Definition default_models : list string :=
  ["claude-4-sonnet-thinking"; "o3"; "claude-4-opus-thinking"].

Definition fetch_models : M json :=
  let* response := _make_api_request "GET" "/v0/models" None in
  let* models := lift (Py.get response "models" (JList nil)) in
  let* n := lift (Py.len models) in
  let* recommended := if Py.truthy models then lift (Py.index0 models) else ret JNull in
  let result :=
    JObj [("success", JBool true);
          ("models", models);
          ("total_models", JNum (Z.of_nat n));
          ("recommended", recommended);
          ("message", JStr ("Retrieved " +:+ PyStr.of_nat n +:+ " available models"))] in
  let* now := total time_time in
  let* _ := modify (set_models_cache (Some result) (Some now)) in
  ret result.

Definition models_default (e : exn) : json :=
  JObj [("success", JBool false);
        ("error", str_of e);
        ("message", JStr "Failed to get available models");
        ("models", strs default_models)].

(** The [except] block: the cached answer if there is one, whatever its
    age, else the hardcoded list. *)
Definition models_fallback (e : exn) (st : state) : json * state :=
  match _models_cache st with
  | Some cached => if Py.truthy cached then (cached, st) else (models_default e, st)
  | None => (models_default e, st)
  end.

Definition _list_available_models (force_refresh : bool) : state -> json * state :=
  fun st =>
    match cache_check force_refresh (_models_cache_timestamp st) (_models_cache st) st with
    | (Some cached, st') => (cached, st')
    | (None, st') => catching fetch_models models_fallback st'
    end.

(** *** list-repositories *)

Definition fetch_repositories : M json :=
  let* response := _make_api_request "GET" "/v0/repositories" None in
  let* repositories := lift (Py.get response "repositories" (JList nil)) in
  let* n := lift (Py.len repositories) in
  let result :=
    JObj [("success", JBool true);
          ("repositories", repositories);
          ("total_repositories", JNum (Z.of_nat n));
          ("message", JStr ("Retrieved " +:+ PyStr.of_nat n +:+ " accessible repositories"))] in
  let* now := total time_time in
  let* _ := modify (set_repositories_cache (Some result) (Some now)) in
  ret result.

Definition repositories_default (e : exn) : json :=
  JObj [("success", JBool false);
        ("error", str_of e);
        ("message", JStr "Failed to get accessible repositories");
        ("repositories", JList nil)].

Definition repositories_fallback (e : exn) (st : state) : json * state :=
  match _repositories_cache st with
  | Some cached => if Py.truthy cached then (cached, st) else (repositories_default e, st)
  | None => (repositories_default e, st)
  end.

Definition _list_repositories (force_refresh : bool) : state -> json * state :=
  fun st =>
    match cache_check force_refresh (_repositories_cache_timestamp st)
            (_repositories_cache st) st with
    | (Some cached, st') => (cached, st')
    | (None, st') => catching fetch_repositories repositories_fallback st'
    end.

(** *** list-branches *)

Definition cache_key (owner repo : string) : string := owner +:+ "/" +:+ repo.

Definition common_branches : list string := ["main"; "master"; "develop"].

Definition more_branches : list string := ["main"; "master"; "develop"; "feature/new-feature"].

Definition branches_not_found (repository_url owner repo : string) : json :=
  JObj [("success", JBool false);
        ("error", JStr "Repository not found or not accessible");
        ("repository", JStr repository_url);
        ("branches", strs common_branches);
        ("message",
         JStr ("Repository " +:+ cache_key owner repo
               +:+ " not found or not accessible. Using common branch names."))].

Definition branches_private (repository_url owner repo : string) : json :=
  JObj [("success", JBool false);
        ("error", JStr "Authentication required for private repository");
        ("repository", JStr repository_url);
        ("branches", strs more_branches);
        ("message",
         JStr ("Private repository " +:+ cache_key owner repo
               +:+ " requires GitHub token. Using common branch names."))].

Definition branches_api_error (repository_url : string) (code : Z) (error_text : string) : json :=
  JObj [("success", JBool false);
        ("error", JStr ("GitHub API error: " +:+ PyStr.of_Z code));
        ("repository", JStr repository_url);
        ("branches", strs more_branches);
        ("message",
         JStr ("Failed to fetch branches: " +:+ error_text +:+ ". Using common branch names."))].

Definition branches_default (repository_url : string) (e : exn) : json :=
  JObj [("success", JBool false);
        ("error", str_of e);
        ("repository", JStr repository_url);
        ("branches", strs common_branches);
        ("message", JStr ("Failed to fetch branches: " +:+ exn_msg e))].

(** The request to the secondary API.  Its headers (which carry the
    optional token of the process environment) are not recorded. *)
Definition github_request (owner repo : string) : request :=
  {| req_method := "GET";
     req_url := "https://api.github.com/repos/" +:+ owner +:+ "/" +:+ repo +:+ "/branches";
     req_json := None |}.

(** What is done with the response of the secondary API. *)
Definition on_github_response (repository_url owner repo : string) (resp : response) : M json :=
  let code := resp_status resp in
  if code =? 200 then
    let* branches_data := lift (resp_json resp) in
    let* items := lift (Py.iter branches_data) in
    let* branches := lift (Py.map_result (fun b => Py.getitem b "name") items) in
    let n := List.length branches in
    let result :=
      JObj [("success", JBool true);
            ("repository", JStr repository_url);
            ("owner", JStr owner);
            ("repo", JStr repo);
            ("branches", JList branches);
            ("total_branches", JNum (Z.of_nat n));
            ("message",
             JStr ("Retrieved " +:+ PyStr.of_nat n +:+ " branches for "
                   +:+ cache_key owner repo))] in
    let* now := total time_time in
    let* _ :=
      modify (fun st =>
        set_branches_cache
          (<[cache_key owner repo := result]> (_branches_cache st))
          (<[cache_key owner repo := now]> (_branches_cache_timestamp st)) st) in
    ret result
  else if code =? 404 then ret (branches_not_found repository_url owner repo)
  else if code =? 401 then ret (branches_private repository_url owner repo)
  else
    let* error_text := lift (resp_text resp) in
    ret (branches_api_error repository_url code error_text).

(** The test that guards the cached answer:
    [not force_refresh and self._is_cache_valid(ts.get(key)) and key in cache]. *)
Definition branches_cache_check (force_refresh : bool) (key : string)
  : state -> option json * state :=
  fun st =>
    if force_refresh then (None, st)
    else
      let (valid, st') := _is_cache_valid (_branches_cache_timestamp st !! key) st in
      (if valid then _branches_cache st !! key else None, st').

(** The [try] block. *)
Definition branches_body (repository_url : string) (force_refresh : bool) : M json :=
  let* '(owner, repo) := lift (_extract_repo_info repository_url) in
  let* hit := total (branches_cache_check force_refresh (cache_key owner repo)) in
  match hit with
  | Some cached => ret cached
  | None =>
      let* resp := send (github_request owner repo) in
      on_github_response repository_url owner repo resp
  end.

(** The [except] block. *)
Definition branches_fallback (repository_url : string) (e : exn) (st : state) : json * state :=
  match _extract_repo_info repository_url with
  | Ok (owner, repo) =>
      match _branches_cache st !! cache_key owner repo with
      | Some cached => (cached, st)
      | None => (branches_default repository_url e, st)
      end
  | Raise _ => (branches_default repository_url e, st)
  end.

Definition _list_repository_branches (repository_url : string) (force_refresh : bool)
  : state -> json * state :=
  catching (branches_body repository_url force_refresh) (branches_fallback repository_url).

End Server.

(** ** The agents-summary resource

    The branch of [handle_read_resource] for "mcp://cursor-agent/agents-summary":
    the dictionary it builds, whose [json.dumps] it returns; when the loop
    raises, the handler returns an error object instead. *)

Record Summary : Type := {
  total_agents : nat;
  agents_by_status : list (json * Z);
  summary_agents : list json
}.

(** [d.get(k, default)] on a dictionary keyed by Python values. *)
Fixpoint tally_get (k : json) (d : list (json * Z)) (default : Z) : Z :=
  match d with
  | nil => default
  | (k', n) :: d' => if Py.key_eqb k k' then n else tally_get k d' default
  end.

(** [d[k] = n]: an equal key keeps its place. *)
Fixpoint tally_set (k : json) (n : Z) (d : list (json * Z)) : list (json * Z) :=
  match d with
  | nil => [(k, n)]
  | (k', n') :: d' =>
      if Py.key_eqb k k' then (k', n) :: d' else (k', n') :: tally_set k n d'
  end.

Definition summary_entry (a : BackgroundAgent) : json :=
  JObj [("agent_id", agent_id a);
        ("status", status a);
        ("repository_url", repository_url a);
        ("created_at", created_at a);
        ("branch", branch a)].

(** The body of the loop over [self.agents.values()]. *)
Definition summarise_agent (s : Summary) (a : BackgroundAgent) : result Summary :=
  if Py.hashable (status a) then
    Ok {| total_agents := total_agents s;
          agents_by_status :=
            tally_set (status a) (tally_get (status a) (agents_by_status s) 0 + 1)
              (agents_by_status s);
          summary_agents := summary_agents s ++ [summary_entry a] |}
  else Raise unhashable.

Fixpoint summarise (l : list (json * BackgroundAgent)) (s : Summary) : result Summary :=
  match l with
  | nil => Ok s
  | (_, a) :: l' =>
      match summarise_agent s a with
      | Ok s' => summarise l' s'
      | Raise e => Raise e
      end
  end.

Definition agents_summary (st : state) : result Summary :=
  summarise (agents st)
    {| total_agents := List.length (agents st); agents_by_status := nil; summary_agents := nil |}.

(** ** Notions used to state the properties *)

Definition colon : ascii := ":"%char.

(** No occurrence of [old] starts inside the first part [p] of [p +:+ s]. *)
Fixpoint no_hit (old p s : string) : bool :=
  match p with
  | EmptyString => true
  | String _ p' => negb (PyStr.startswith old (p +:+ s)) && no_hit old p' s
  end.

(** A session over which a request can still be sent: not created yet
    (the executor creates it) or open. *)
Definition session_usable (st : state) : bool :=
  match session st with
  | Some s => negb (closed s)
  | None => true
  end.

(** The attempt gets a response with this status whose body decodes to
    [data]. *)
Definition replies (a : attempt) (code : Z) (data : json) : Prop :=
  match a with
  | Responded r => resp_status r = code /\ resp_json r = Ok data
  | Raised _ => False
  end.

(** The delays [2^a, 2^(a+1), ...] of [k] successive retries. *)
Fixpoint backoff (a : Z) (k : nat) : list Z :=
  match k with
  | O => nil
  | S k' => 2 ^ a :: backoff (a + 1) k'
  end.

(** The state after [k] attempts of [r] that were each followed by a
    backoff sleep, the first of them being attempt number [a]. *)
Definition retried (r : request) (a : Z) (k : nat) (st : state) : state :=
  set_world (sent st ++ List.repeat r k) (clock_reads st) (sleeps st ++ backoff a k) st.

(** The state after one request was sent. *)
Definition sent_one (r : request) (st : state) : state :=
  set_world (sent st ++ [r]) (clock_reads st) (sleeps st) st.

(** A response with this status whose body decodes to [data]. *)
Definition json_reply (code : Z) (data : json) : attempt :=
  Responded {| resp_status := code; resp_json := Ok data; resp_text := Ok "" |}.

(** An environment with the default configuration and a given transport;
    the clock advances by [step] time-units at each reading. *)
Definition scripted (step : Z) (t : nat -> attempt) : environment :=
  {| config := default_config "key";
     transport := t;
     clock := fun n => step * Z.of_nat n;
     utc_iso := fun _ => "2024-01-01T00:00:00";
     utc_stamp := fun _ => "1704067200.0";
     repr := fun _ => "<value>" |}.

(** The cache attributes of the server. *)
Definition caches (st : state)
  : option json * option Z * option json * option Z * gmap string json * gmap string Z :=
  (_models_cache st, _models_cache_timestamp st,
   _repositories_cache st, _repositories_cache_timestamp st,
   _branches_cache st, _branches_cache_timestamp st).

(** A computation that leaves a part [proj] of the state as it found it,
    whether it returns or raises. *)
Definition preserves {X A : Type} (proj : state -> X) (c : M A) : Prop :=
  forall st r st', c st = (r, st') -> proj st' = proj st.

(** A computation that leaves [proj] as it found it when it raises. *)
Definition preserves_on_raise {X A : Type} (proj : state -> X) (c : M A) : Prop :=
  forall st e st', c st = (Raise e, st') -> proj st' = proj st.

(** The models answer once, then the API rejects the key. *)
Definition models_then_unauthorized : environment :=
  scripted 1 (fun n => match n with
                       | O => json_reply 200 (JObj [("models", JList [JStr "o3"])])
                       | _ => json_reply 401 JNull
                       end).

(** The branches answer once, then the repository is not found; the clock
    advances by more than the freshness window at each reading. *)
Definition branches_then_not_found : environment :=
  scripted 400 (fun n => match n with
                         | O => json_reply 200 (JList [JObj [("name", JStr "main")];
                                                       JObj [("name", JStr "dev")]])
                         | _ => json_reply 404 JNull
                         end).

(** The branches answer once; then the secondary API answers with a 500
    whose body cannot be read.  The clock advances by more than the
    freshness window at each reading. *)
Definition branches_then_unreadable : environment :=
  scripted 400 (fun n => match n with
                         | O => json_reply 200 (JList [JObj [("name", JStr "main")];
                                                       JObj [("name", JStr "dev")]])
                         | _ => Responded {| resp_status := 500;
                                             resp_json := Raise (Exn ValueError "Expecting value");
                                             resp_text := Raise (Exn ClientError
                                                                   "Response payload is not completed") |}
                         end).

(** What [response.json()] raises on a body that is not JSON: a client
    error ([aiohttp.ContentTypeError]) when the content type of the
    response is not a JSON one, and otherwise the [ValueError] of the
    decoder ([json.JSONDecodeError]). *)
Definition content_type_error : exn :=
  Exn ClientError "Attempt to decode JSON with unexpected mimetype: text/html".

Definition json_decode_error : exn :=
  Exn ValueError "Expecting value: line 1 column 1 (char 0)".

(** A response with this status and a body that is not JSON, labelled
    as HTML and as JSON. *)
Definition mistyped_reply (code : Z) : attempt :=
  Responded {| resp_status := code;
               resp_json := Raise content_type_error;
               resp_text := Ok "<html></html>" |}.

Definition malformed_reply (code : Z) : attempt :=
  Responded {| resp_status := code;
               resp_json := Raise json_decode_error;
               resp_text := Ok "<html></html>" |}.

(** The API creates the agent "a1", then reports it running. *)
Definition created_then_running : environment :=
  scripted 1 (fun n => match n with
                       | O => json_reply 201 (JObj [("id", JStr "a1"); ("status", JStr "CREATING")])
                       | _ => json_reply 200 (JObj [("status", JStr "running");
                                                    ("progress", JObj [("step", JNum 1)])])
                       end).

(** Every request is rejected as unauthorized. *)
Definition always_unauthorized : environment :=
  scripted 1 (fun _ => json_reply 401 JNull).

(** A field of a result envelope. *)
Definition field (k : string) (envelope : json) : option json :=
  match envelope with
  | JObj m => Py.lookup k m
  | _ => None
  end.

Definition is_success (envelope : json) : bool :=
  match field "success" envelope with
  | Some (JBool true) => true
  | _ => false
  end.

(** An outcome of attempt number [number] after which the executor sleeps
    and goes round the loop again: a rate-limited response whose body
    decodes, or a client error (raised by the request or by the decoding of
    the body) on an attempt that is not the last one. *)
Definition retryable (env : environment) (number : Z) (o : attempt) : bool :=
  let retried_fault (e : exn) : bool :=
    is_client_error e && negb (number =? max_retries (config env) - 1) in
  match o with
  | Raised e => retried_fault e
  | Responded r =>
      match resp_json r with
      | Ok _ => (resp_status r =? 429)
      | Raise e => retried_fault e
      end
  end.

(** What the executor makes of a response that is not rate limited. *)
Definition decided (env : environment) (code : Z) (data : json) : result json :=
  if (code =? 200) || (code =? 201) then Ok data
  else if code =? 401 then Raise authentication_failed
  else Raise (api_request_failed env code data).

(** The exception an attempt ends with, if it raised one: from the request
    itself or from the decoding of the body. *)
Definition fault_of (o : attempt) : option exn :=
  match o with
  | Raised e => Some e
  | Responded r => match resp_json r with Raise e => Some e | Ok _ => None end
  end.

(** A computation that keeps a property [P] of the state, whether it
    returns or raises. *)
Definition keeps {A : Type} (P : state -> Prop) (c : M A) : Prop :=
  forall st r st', P st -> c st = (r, st') -> P st'.

(** The network is unreachable: every request raises a client error. *)
Definition always_unreachable : environment :=
  scripted 1 (fun _ => Raised (Exn ClientError "Cannot connect to host")).

(** A connection reset, then rate limiting, then a server error. *)
Definition flaky_then_rejected : environment :=
  scripted 1 (fun n => match n with
                       | O => Raised (Exn ClientError "Connection reset by peer")
                       | S O => json_reply 429 JNull
                       | _ => json_reply 500 (JObj [("error", JStr "internal")])
                       end).

(** The fields of a record that are set when it is created. *)
Definition creation_fields (a : BackgroundAgent) : json * json * json * json * json * json :=
  (agent_id a, repository_url a, prompt a, branch a, model a, created_at a).

(** Cache entries and their timestamps come in pairs. *)
Definition caches_paired (st : state) : Prop :=
  (_models_cache st = None <-> _models_cache_timestamp st = None)
  /\ (_repositories_cache st = None <-> _repositories_cache_timestamp st = None)
  /\ (forall k, _branches_cache st !! k = None <-> _branches_cache_timestamp st !! k = None).

(** Every stored cache entry is a success envelope. *)
Definition caches_ok (st : state) : Prop :=
  (forall v, _models_cache st = Some v -> is_success v = true)
  /\ (forall v, _repositories_cache st = Some v -> is_success v = true)
  /\ (forall k v, _branches_cache st !! k = Some v -> is_success v = true).

(** The operations of the server. *)
Inductive operation : Type :=
| Initialize
| Cleanup
| ClearCache
| Create (args : list (string * json))
| GetStatus (args : list (string * json))
| FollowUp (args : list (string * json))
| Stop (args : list (string * json))
| ListAgents (args : list (string * json))
| Usage
| ListModels (force_refresh : bool)
| ListRepositories (force_refresh : bool)
| ListBranches (repository_url : string) (force_refresh : bool).

(** The state an operation leaves. *)
Definition run (env : environment) (op : operation) (st : state) : state :=
  match op with
  | Initialize => snd (initialize env st)
  | Cleanup => snd (cleanup st)
  | ClearCache => snd (clear_cache st)
  | Create args => snd (_create_background_agent env args st)
  | GetStatus args => snd (_get_agent_status env args st)
  | FollowUp args => snd (_add_followup_instruction env args st)
  | Stop args => snd (_stop_background_agent env args st)
  | ListAgents args => snd (_list_background_agents env args st)
  | Usage => snd (_get_api_usage env st)
  | ListModels fr => snd (_list_available_models env fr st)
  | ListRepositories fr => snd (_list_repositories env fr st)
  | ListBranches url fr => snd (_list_repository_branches env url fr st)
  end.

(** The operations whose code assigns to [self.agents] or to a record in
    it. *)
Definition writes_registry (op : operation) : bool :=
  match op with
  | Create _ | GetStatus _ | Stop _ | ListAgents _ => true
  | _ => false
  end.

(** The cache slots that list-models does not own. *)
Definition beside_models (st : state)
  : option json * option Z * gmap string json * gmap string Z :=
  (_repositories_cache st, _repositories_cache_timestamp st,
   _branches_cache st, _branches_cache_timestamp st).

(** The cache slots that list-repositories does not own. *)
Definition beside_repositories (st : state)
  : option json * option Z * gmap string json * gmap string Z :=
  (_models_cache st, _models_cache_timestamp st,
   _branches_cache st, _branches_cache_timestamp st).

(** The cache slots that list-branches does not own: the two single
    slots, and the entries of the branches under a key [k]. *)
Definition beside_branches (st : state) : option json * option Z * option json * option Z :=
  (_models_cache st, _models_cache_timestamp st,
   _repositories_cache st, _repositories_cache_timestamp st).

Definition branches_entry (k : string) (st : state) : option json * option Z :=
  (_branches_cache st !! k, _branches_cache_timestamp st !! k).

(** The timestamp is less than the cache duration behind the clock. *)
Definition fresh (env : environment) (ts : option Z) (st : state) : Prop :=
  exists t, ts = Some t /\ clock env (clock_reads st) - t < 300.

(** The dictionary a handler answers with. *)
Definition answer (env : environment) (op : operation) (st : state) : option json :=
  match op with
  | Initialize | Cleanup | ClearCache => None
  | Create args => Some (fst (_create_background_agent env args st))
  | GetStatus args => Some (fst (_get_agent_status env args st))
  | FollowUp args => Some (fst (_add_followup_instruction env args st))
  | Stop args => Some (fst (_stop_background_agent env args st))
  | ListAgents args => Some (fst (_list_background_agents env args st))
  | Usage => Some (fst (_get_api_usage env st))
  | ListModels fr => Some (fst (_list_available_models env fr st))
  | ListRepositories fr => Some (fst (_list_repositories env fr st))
  | ListBranches url fr => Some (fst (_list_repository_branches env url fr st))
  end.

(** A result envelope: success is true, or it is false and there is an
    error string. *)
Definition envelope (a : json) : Prop :=
  is_success a = true
  \/ (field "success" a = Some (JBool false) /\ exists msg, field "error" a = Some (JStr msg)).

(** The registered agents whose status equals [k], as Python compares
    dictionary keys. *)
Definition with_status (k : json) (l : list (json * BackgroundAgent))
  : list (json * BackgroundAgent) :=
  List.filter (fun ka => Py.key_eqb k (status (snd ka))) l.

(** The sum of the counts of a tally. *)
Fixpoint tally_sum (d : list (json * Z)) : Z :=
  match d with
  | nil => 0
  | (_, n) :: d' => n + tally_sum d'
  end.

(** The API reports an object where a status string is expected. *)
Definition created_then_structured : environment :=
  scripted 1 (fun n => match n with
                       | O => json_reply 201 (JObj [("id", JStr "a1"); ("status", JStr "CREATING")])
                       | _ => json_reply 200 (JObj [("status", JObj [("phase", JStr "run")])])
                       end).

(** The API lists three agents, two of them running. *)
Definition three_listed : environment :=
  scripted 1 (fun _ =>
    json_reply 200
      (JObj [("agents",
              JList [JObj [("agent_id", JStr "a7"); ("status", JStr "running")];
                     JObj [("agent_id", JStr "a8"); ("status", JStr "stopped")];
                     JObj [("agent_id", JStr "a9"); ("status", JStr "running")]])])).

(** * Properties *)

(** ** Strings *)

Module PyStrFacts.
Import PyStr.

Lemma startswith_has_char c p t :
  startswith p t = true -> has_char c p = true -> has_char c t = true.
Proof.
  revert t. induction p as [|a p IH]; intros t Hp Hc; [discriminate|].
  destruct t as [|b t]; [discriminate|]. simpl in *.
  apply andb_true_iff in Hp as [Hab Hp]. apply Ascii.eqb_eq in Hab. subst b.
  apply orb_true_iff in Hc as [Hc|Hc].
  - rewrite Hc. reflexivity.
  - rewrite (IH t Hp Hc). apply orb_true_r.
Qed.

(** Replacing a pattern leaves alone a text that lacks one of the
    pattern's characters. *)
Lemma replace_absent c old new s :
  has_char c old = true -> has_char c s = false -> replace old new s = s.
Proof.
  intros Hold. unfold replace. induction s as [|a s IH]; intros Hs; [reflexivity|].
  cbn [replace_from].
  destruct (startswith old (String a s)) eqn:Hp.
  - rewrite (startswith_has_char c _ _ Hp Hold) in Hs. discriminate.
  - simpl in Hs. apply orb_false_iff in Hs as [_ Hs]. rewrite (IH Hs). reflexivity.
Qed.

Lemma has_char_app c a b : has_char c (a +:+ b) = has_char c a || has_char c b.
Proof.
  induction a as [|x a IH]; [reflexivity|]. simpl. rewrite IH. apply orb_assoc.
Qed.

Lemma rstrip_cons_nonempty c a s : rstrip c s <> "" -> rstrip c (String a s) = String a (rstrip c s).
Proof. intros H. simpl. destruct (rstrip c s); [contradiction|reflexivity]. Qed.

Lemma rstrip_app c a b : rstrip c b <> "" -> rstrip c (a +:+ b) = a +:+ rstrip c b.
Proof.
  intros Hb. induction a as [|x a IH]; [reflexivity|].
  change (String x a +:+ b) with (String x (a +:+ b)).
  change (String x a +:+ rstrip c b) with (String x (a +:+ rstrip c b)).
  rewrite <- IH. apply rstrip_cons_nonempty. rewrite IH.
  destruct a; [exact Hb|discriminate].
Qed.

Lemma split_once_app c a b :
  has_char c a = false -> split_once c (a +:+ String c b) = Some (a, b).
Proof.
  induction a as [|x a IH]; intros H; simpl.
  - rewrite Ascii.eqb_refl. reflexivity.
  - simpl in H. apply orb_false_iff in H as [Hx Ha]. rewrite Hx, (IH Ha). reflexivity.
Qed.

Lemma split_once_spec c s l r :
  split_once c s = Some (l, r) -> s = l +:+ String c r /\ has_char c l = false.
Proof.
  revert l. induction s as [|a s IH]; intros l H; [discriminate|].
  simpl in H. destruct (Ascii.eqb a c) eqn:E.
  - apply Ascii.eqb_eq in E. injection H as <- <-. subst. split; reflexivity.
  - destruct (split_once c s) as [[l' r']|]; [|discriminate].
    injection H as <- <-. destruct (IH l' eq_refl) as [-> Hl].
    split; [reflexivity|]. simpl. rewrite E, Hl. reflexivity.
Qed.

Lemma contains_char_app c a b : contains (String c "") (a +:+ String c b) = true.
Proof.
  induction a as [|x a IH].
  - simpl. rewrite Ascii.eqb_refl. reflexivity.
  - change (contains (String c "") (String x a +:+ String c b))
      with (startswith (String c "") (String x (a +:+ String c b))
            || contains (String c "") (a +:+ String c b)).
    rewrite IH. apply orb_true_r.
Qed.

Lemma startswith_app p s : startswith p (p +:+ s) = true.
Proof.
  induction p as [|a p IH]; [reflexivity|].
  change (String a p +:+ s) with (String a (p +:+ s)). simpl.
  rewrite Ascii.eqb_refl. exact IH.
Qed.

Lemma replace_from_skip old new p s :
  replace_from old new (String.length p) (p +:+ s) = replace_from old new O s.
Proof. induction p as [|a p IH]; [reflexivity|exact IH]. Qed.

(** An occurrence at the head of the text is replaced, and the search
    goes on after it. *)
Lemma replace_hit old new s :
  old <> "" -> replace old new (old +:+ s) = new +:+ replace old new s.
Proof.
  intros Hne. destruct old as [|a old]; [contradiction|].
  unfold replace. change (String a old +:+ s) with (String a (old +:+ s)).
  cbn [replace_from].
  change (String a (old +:+ s)) with (String a old +:+ s). rewrite startswith_app.
  f_equal. apply (replace_from_skip (String a old) new old s).
Qed.

Lemma replace_miss old new c s :
  startswith old (String c s) = false ->
  replace old new (String c s) = String c (replace old new s).
Proof. intros H. unfold replace. cbn [replace_from]. rewrite H. reflexivity. Qed.

Lemma replace_no_hit old new p s :
  no_hit old p s = true -> replace old new (p +:+ s) = p +:+ replace old new s.
Proof.
  induction p as [|a p IH]; intros H; [reflexivity|].
  cbn [no_hit] in H. apply andb_true_iff in H as [H1 H2].
  apply negb_true_iff in H1.
  change (String a p +:+ s) with (String a (p +:+ s)) in *.
  rewrite (replace_miss _ _ _ _ H1), (IH H2). reflexivity.
Qed.
End PyStrFacts.

(** ** Repository URL parsing *)

Section RepoInfo.
Import PyStr PyStrFacts.

Lemma body_facts owner rest :
  has_char colon owner = false -> has_char colon rest = false ->
  has_char colon (owner +:+ "/" +:+ rest) = false.
Proof.
  intros Ho Hr. rewrite has_char_app, Ho. exact Hr.
Qed.

Lemma parts_of_body owner rest :
  has_char slash owner = false -> rstrip slash rest <> "" ->
  (let parts := rstrip slash (owner +:+ "/" +:+ rest) in
   if contains "/" parts then split_once slash parts else None)
  = Some (owner, rstrip slash rest).
Proof.
  intros Ho Hr. cbv zeta.
  assert (E : rstrip slash (owner +:+ "/" +:+ rest) = owner +:+ String slash (rstrip slash rest)).
  { change ("/" +:+ rest) with (String slash rest). rewrite rstrip_app.
    - f_equal. apply (rstrip_cons_nonempty slash slash rest Hr).
    - rewrite (rstrip_cons_nonempty slash slash rest Hr). discriminate. }
  rewrite E, contains_char_app. apply split_once_app, Ho.
Qed.

Lemma extract_https owner rest :
  has_char colon owner = false -> has_char colon rest = false ->
  has_char slash owner = false -> rstrip slash rest <> "" ->
  extract_parts ("https://github.com/" +:+ owner +:+ "/" +:+ rest) = Some (owner, rstrip slash rest).
Proof.
  intros Hc1 Hc2 Hs Hr.
  pose proof (body_facts owner rest Hc1 Hc2) as Hb.
  pose proof (parts_of_body owner rest Hs Hr) as Hp.
  remember (owner +:+ "/" +:+ rest) as body eqn:Eb. clear Eb.
  unfold extract_parts.
  replace (contains "github.com" ("https://github.com/" +:+ body)) with true by reflexivity.
  rewrite replace_hit by discriminate.
  change ("" +:+ replace "https://github.com/" "" body) with (replace "https://github.com/" "" body).
  rewrite (replace_absent colon "https://github.com/" "" body eq_refl Hb).
  rewrite (replace_absent colon "http://github.com/" "" body eq_refl Hb).
  exact Hp.
Qed.

Lemma extract_http owner rest :
  has_char colon owner = false -> has_char colon rest = false ->
  has_char slash owner = false -> rstrip slash rest <> "" ->
  extract_parts ("http://github.com/" +:+ owner +:+ "/" +:+ rest) = Some (owner, rstrip slash rest).
Proof.
  intros Hc1 Hc2 Hs Hr.
  pose proof (body_facts owner rest Hc1 Hc2) as Hb.
  pose proof (parts_of_body owner rest Hs Hr) as Hp.
  remember (owner +:+ "/" +:+ rest) as body eqn:Eb. clear Eb.
  unfold extract_parts.
  replace (contains "github.com" ("http://github.com/" +:+ body)) with true by reflexivity.
  rewrite (replace_no_hit "https://github.com/" "" "http://github.com/" body) by reflexivity.
  rewrite (replace_absent colon "https://github.com/" "" body eq_refl Hb).
  rewrite replace_hit by discriminate.
  change ("" +:+ replace "http://github.com/" "" body) with (replace "http://github.com/" "" body).
  rewrite (replace_absent colon "http://github.com/" "" body eq_refl Hb).
  exact Hp.
Qed.
Lemma extract_rejects url :
  contains "github.com" url = false ->
  _extract_repo_info url = Raise (invalid_repository_url url).
Proof. intros H. unfold _extract_repo_info, extract_parts. rewrite H. reflexivity. Qed.

Lemma extract_sound url owner repo :
  _extract_repo_info url = Ok (owner, repo) ->
  contains "github.com" url = true
  /\ has_char slash owner = false
  /\ rstrip slash (replace "http://github.com/" "" (replace "https://github.com/" "" url))
     = owner +:+ "/" +:+ repo.
Proof.
  unfold _extract_repo_info, extract_parts. intros H.
  destruct (contains "github.com" url); [|discriminate].
  destruct (contains "/" _); [|discriminate].
  destruct (split_once slash _) as [[o r]|] eqn:E; [|discriminate].
  injection H as -> ->. destruct (split_once_spec _ _ _ _ E) as [E1 E2].
  repeat split; assumption.
Qed.

(** What the parser does: the two examples of the specification hold;
    an input without the text [github.com] is rejected with the
    invalid-repository-URL error; a URL [http(s)://github.com/<owner>/<rest>]
    (no colon in [owner] and [rest], no slash in [owner], [rest] not only
    slashes) gives [owner] and [rest] without its trailing slashes; and
    whatever is accepted contains [github.com] and is split at the first
    slash of what the two prefix removals and the right strip leave.
    Inputs of other forms that contain [github.com] are accepted too. *)
Lemma extract_repo_info_characterised :
  _extract_repo_info "https://github.com/acme/widgets" = Ok ("acme", "widgets")
  /\ _extract_repo_info "https://gitlab.com/acme/widgets"
     = Raise (invalid_repository_url "https://gitlab.com/acme/widgets")
  /\ (forall url, contains "github.com" url = false ->
        _extract_repo_info url = Raise (invalid_repository_url url))
  /\ (forall owner rest,
        has_char colon owner = false -> has_char colon rest = false ->
        has_char slash owner = false -> rstrip slash rest <> "" ->
        _extract_repo_info ("https://github.com/" +:+ owner +:+ "/" +:+ rest)
          = Ok (owner, rstrip slash rest)
        /\ _extract_repo_info ("http://github.com/" +:+ owner +:+ "/" +:+ rest)
          = Ok (owner, rstrip slash rest))
  /\ (forall url owner repo,
        _extract_repo_info url = Ok (owner, repo) ->
        contains "github.com" url = true
        /\ has_char slash owner = false
        /\ rstrip slash
             (replace "http://github.com/" "" (replace "https://github.com/" "" url))
           = owner +:+ "/" +:+ repo).
Proof.
  split; [reflexivity|]. split; [reflexivity|]. split; [exact extract_rejects|].
  split; [|exact extract_sound].
  intros owner rest H1 H2 H3 H4. unfold _extract_repo_info.
  rewrite (extract_https owner rest H1 H2 H3 H4), (extract_http owner rest H1 H2 H3 H4).
  split; reflexivity.
Qed.

Lemma extract_repo_info_characterised_witness :
  _extract_repo_info "ftp://example.org/acme" = Raise (invalid_repository_url "ftp://example.org/acme")
  /\ _extract_repo_info "http://github.com/acme/widgets/tree/main/"
     = Ok ("acme", "widgets/tree/main")
  /\ contains "github.com" "https://github.com/acme/widgets" = true.
Proof.
  destruct extract_repo_info_characterised as (_ & _ & Hrej & Hacc & Hsound).
  split; [apply Hrej; reflexivity|].
  split.
  - apply (Hacc "acme" "widgets/tree/main/"); [reflexivity..|discriminate].
  - apply (Hsound "https://github.com/acme/widgets" "acme" "widgets"). reflexivity.
Defined.

(** C5, where the code departs from it: the guard is the test that the
    text [github.com] occurs somewhere in the input, so inputs that are
    not of the form [http(s)://github.com/<owner>/<repo>] are taken for
    GitHub URLs as soon as they contain that text and a slash, and what
    comes back as the owner is not one: a URL without its scheme gives the
    owner [github.com], a URL of another host gives the owner [https:]. *)
Theorem extract_repo_info_accepts_other_forms :
  spec_github_url "github.com/acme/widgets" = false
  /\ _extract_repo_info "github.com/acme/widgets" = Ok ("github.com", "acme/widgets")
  /\ spec_github_url "https://gitlab.com/github.com/x" = false
  /\ _extract_repo_info "https://gitlab.com/github.com/x"
     = Ok ("https:", "/gitlab.com/github.com/x").
Proof. repeat split; reflexivity. Qed.

End RepoInfo.

(** ** The retrying request executor *)

Section ExecutorFacts.

Variable env : environment.

Lemma backoff_snoc a k : backoff a (S k) = (backoff a k ++ [2 ^ (a + Z.of_nat k)])%list.
Proof.
  revert a. induction k as [|k IH]; intros a.
  - simpl. rewrite Z.add_0_r. reflexivity.
  - change (backoff a (S (S k))) with (2 ^ a :: backoff (a + 1) (S k)).
    rewrite IH. replace (a + 1 + Z.of_nat k) with (a + Z.of_nat (S k)) by lia.
    reflexivity.
Qed.

Lemma retried_zero r a st : retried r a 0 st = st.
Proof. destruct st. unfold retried, set_world. simpl. rewrite !app_nil_r. reflexivity. Qed.

Lemma retried_step r a k st :
  retried r (a + 1) k (retried r a 1 st) = retried r a (S k) st.
Proof.
  unfold retried, set_world. simpl. rewrite <- !app_assoc. reflexivity.
Qed.

(** One pass of the loop on a rate-limited response: sleep [2^attempt]
    and go round again. *)
Lemma one_attempt_rate_limited r a st s b :
  session st = Some s -> closed s = false ->
  replies (transport env (length (sent st))) 429 b ->
  one_attempt env r a st = (Ok Continue, retried r a 1 st).
Proof.
  intros Hs Hc Hr. unfold one_attempt, send. rewrite Hs, Hc.
  destruct (transport env (length (sent st))) as [e|resp]; [contradiction|].
  destruct Hr as [Hcode Hjson]. rewrite Hjson, Hcode. reflexivity.
Qed.

Lemma attempts_rate_limited r k : forall rem a st s,
  session st = Some s -> closed s = false ->
  (forall i, (i < k)%nat -> exists b, replies (transport env (length (sent st) + i)) 429 b) ->
  attempts env r (k + rem) a st = attempts env r rem (a + Z.of_nat k) (retried r a k st).
Proof.
  induction k as [|k IH]; intros rem a st s Hs Hc Hall.
  - rewrite retried_zero, Z.add_0_r. reflexivity.
  - destruct (Hall O ltac:(lia)) as [b Hb]. rewrite Nat.add_0_r in Hb.
    change (S k + rem)%nat with (S (k + rem)). cbn [attempts]. unfold bind at 1.
    rewrite (one_attempt_rate_limited r a st s b Hs Hc Hb).
    rewrite (IH rem (a + 1) (retried r a 1 st) s Hs Hc).
    + rewrite retried_step. f_equal. lia.
    + intros i Hi. destruct (Hall (S i) ltac:(lia)) as [b' Hb']. exists b'.
      unfold retried, set_world. simpl. rewrite length_app. simpl.
      replace (length (sent st) + 1 + i)%nat with (length (sent st) + S i)%nat by lia.
      exact Hb'.
Qed.

(** The executor opens the session when there is none and leaves an
    open one alone. *)
Lemma ensure_usable st :
  session_usable st = true ->
  exists s, closed s = false
    /\ _ensure_session env st = (Ok tt, set_session (Some s) st).
Proof.
  unfold session_usable, _ensure_session. destruct (session st) as [s|] eqn:E; intros H.
  - exists s. split; [destruct (closed s); [discriminate|reflexivity]|].
    destruct st; simpl in *. subst. reflexivity.
  - exists (new_session env). split; reflexivity.
Qed.

Lemma one_attempt_replied r a st s resp data :
  session st = Some s -> closed s = false ->
  transport env (length (sent st)) = Responded resp ->
  resp_json resp = Ok data ->
  one_attempt env r a st =
    let code := resp_status resp in
    if (code =? 200) || (code =? 201) then (Ok (Return data), sent_one r st)
    else if code =? 401 then (Ok (Fail authentication_failed), sent_one r st)
    else if code =? 429 then (Ok Continue, retried r a 1 st)
    else (Ok (Fail (api_request_failed env code data)), sent_one r st).
Proof.
  intros Hs Hc Ht Hj. unfold one_attempt, send. rewrite Hs, Hc, Ht, Hj. cbv zeta.
  destruct (_ || _); [reflexivity|].
  destruct (_ =? 401); [reflexivity|].
  destruct (_ =? 429); reflexivity.
Qed.

Lemma replies_inv a code data :
  replies a code data ->
  exists resp, a = Responded resp /\ resp_status resp = code /\ resp_json resp = Ok data.
Proof. destruct a as [e|resp]; [contradiction|]. intros [H1 H2]. eauto. Qed.

(** Rate limiting, with bodies that decode: two rate-limited responses
    and then a 200 give the decoded body of the 200 after exactly the
    sleeps [2^0] and [2^1] and three requests (the loop must allow a third
    attempt); and when every one of the [max_retries] attempts is rate
    limited, the executor raises the generic failure, having slept after
    each attempt. *)
Lemma rate_limit_backoff (method endpoint : string) (body : option json) (st : state) :
  session_usable st = true ->
  let n := length (sent st) in
  let r := {| req_method := method;
              req_url := base_url (config env) +:+ endpoint;
              req_json := body |} in
  (forall b0 b1 data,
      3 <= max_retries (config env) ->
      replies (transport env n) 429 b0 ->
      replies (transport env (n + 1)) 429 b1 ->
      replies (transport env (n + 2)) 200 data ->
      exists st',
        _make_api_request env method endpoint body st = (Ok data, st')
        /\ sleeps st' = (sleeps st ++ [2 ^ 0; 2 ^ 1])%list
        /\ sent st' = (sent st ++ [r; r; r])%list)
  /\ ((forall i, (i < Z.to_nat (max_retries (config env)))%nat ->
         exists b, replies (transport env (n + i)) 429 b) ->
      exists st',
        _make_api_request env method endpoint body st = (Raise (retries_exhausted env), st')
        /\ sleeps st' = (sleeps st ++ backoff 0 (Z.to_nat (max_retries (config env))))%list
        /\ sent st' = (sent st ++ List.repeat r (Z.to_nat (max_retries (config env))))%list).
Proof.
  intros Hu n r. destruct (ensure_usable st Hu) as (s & Hc & He).
  set (st1 := set_session (Some s) st) in *.
  assert (Hs1 : session st1 = Some s) by reflexivity.
  split.
  - intros b0 b1 data Hmax H0 H1 H2.
    destruct (replies_inv _ _ _ H2) as (resp & Ht & Hcode & Hjson).
    destruct (Z.to_nat (max_retries (config env))) as [|[|[|rem]]] eqn:Em; try lia.
    unfold _make_api_request, bind at 1. rewrite He. fold r. rewrite Em.
    change (S (S (S rem))) with (2 + S rem)%nat.
    rewrite (attempts_rate_limited r 2 (S rem) 0 st1 s Hs1 Hc).
    + cbn [attempts]. unfold bind at 1.
      rewrite (one_attempt_replied r _ (retried r 0 2 st1) s resp data Hs1 Hc); [| |exact Hjson].
      * rewrite Hcode. cbn. eexists. split; [reflexivity|].
        simpl. rewrite <- !app_assoc. split; reflexivity.
      * simpl. rewrite length_app. exact Ht.
    + intros i Hi. destruct i as [|[|i]]; [| |lia].
      * exists b0. rewrite Nat.add_0_r. exact H0.
      * exists b1. exact H1.
  - intros Hall.
    unfold _make_api_request, bind at 1. rewrite He. fold r.
    pose proof (attempts_rate_limited r _ O 0 st1 s Hs1 Hc Hall) as E.
    rewrite Nat.add_0_r in E. rewrite E.
    cbn [attempts]. unfold raise. eexists. split; [reflexivity|].
    split; reflexivity.
Qed.

(** A 401 response to the first attempt whose body decodes makes the
    executor raise the authentication failure at once: one request sent,
    no sleep. *)
Lemma unauthorized_fails_at_once (method endpoint : string) (body : option json)
    (st : state) (data : json) :
  session_usable st = true ->
  1 <= max_retries (config env) ->
  replies (transport env (length (sent st))) 401 data ->
  exists st',
    _make_api_request env method endpoint body st = (Raise authentication_failed, st')
    /\ sleeps st' = sleeps st
    /\ sent st' = (sent st ++ [{| req_method := method;
                                  req_url := base_url (config env) +:+ endpoint;
                                  req_json := body |}])%list.
Proof.
  intros Hu Hmax Hr. destruct (ensure_usable st Hu) as (s & Hc & He).
  destruct (replies_inv _ _ _ Hr) as (resp & Ht & Hcode & Hjson).
  destruct (Z.to_nat (max_retries (config env))) as [|rem] eqn:Em; [lia|].
  unfold _make_api_request, bind at 1. rewrite He, Em. cbn [attempts]. unfold bind at 1.
  rewrite (one_attempt_replied _ _ (set_session (Some s) st) s resp data eq_refl Hc Ht Hjson).
  rewrite Hcode. cbn. eexists. split; [reflexivity|]. split; reflexivity.
Qed.

End ExecutorFacts.

Lemma rate_limit_backoff_witness :
  let ok := JObj [("models", JList [JStr "o3"])] in
  let recovering :=
    scripted 1 (fun n => match n with
                         | O | S O => json_reply 429 JNull
                         | _ => json_reply 200 ok
                         end) in
  let limited := scripted 1 (fun _ => json_reply 429 JNull) in
  (exists st', _make_api_request recovering "GET" "/v0/models" None init = (Ok ok, st')
               /\ sleeps st' = [1; 2]
               /\ length (sent st') = 3%nat)
  /\ (exists st', _make_api_request limited "GET" "/v0/models" None init
                  = (Raise (retries_exhausted limited), st')
                  /\ sleeps st' = [1; 2; 4]
                  /\ length (sent st') = 3%nat).
Proof.
  intros ok recovering limited. split.
  - destruct (rate_limit_backoff recovering "GET" "/v0/models" None init eq_refl) as [H _].
    destruct (H JNull JNull ok) as (st' & H1 & H2 & H3).
    + simpl. lia.
    + split; reflexivity.
    + split; reflexivity.
    + split; reflexivity.
    + exists st'. rewrite H1, H2, H3. repeat split.
  - destruct (rate_limit_backoff limited "GET" "/v0/models" None init eq_refl) as [_ H].
    destruct H as (st' & H1 & H2 & H3).
    + intros i _. exists JNull. split; reflexivity.
    + exists st'. rewrite H1, H2, H3. repeat split.
Defined.

Lemma unauthorized_fails_at_once_witness :
  let env := scripted 1 (fun _ => json_reply 401 (JObj [("error", JStr "unauthorized")])) in
  exists st', _make_api_request env "GET" "/v0/api-key-info" None init
              = (Raise authentication_failed, st')
              /\ sleeps st' = []
              /\ length (sent st') = 1%nat.
Proof.
  intros env.
  destruct (unauthorized_fails_at_once env "GET" "/v0/api-key-info" None init
              (JObj [("error", JStr "unauthorized")])) as (st' & H1 & H2 & H3).
  - reflexivity.
  - simpl. lia.
  - split; reflexivity.
  - exists st'. rewrite H1, H2, H3. repeat split.
Defined.

(** C2, where the code departs from it: the body of a response is
    decoded before its status is looked at, so a rate-limited response
    reaches the branch that sleeps and retries only when its body decodes.
    A 429 with a malformed body, followed by a 429 and a 200, ends the
    request at once with the error of the decoder: one request, no sleep,
    no payload.  And when every response is a 429 whose content type is
    not a JSON one, the request ends on the last attempt as a network
    error, after one sleep fewer than attempts. *)
Theorem rate_limited_body_decoded_first :
  let ok := JObj [("models", JList [JStr "o3"])] in
  let recovering :=
    scripted 1 (fun n => match n with
                         | O => malformed_reply 429
                         | S O => json_reply 429 JNull
                         | _ => json_reply 200 ok
                         end) in
  let limited := scripted 1 (fun _ => mistyped_reply 429) in
  (exists st', _make_api_request recovering "GET" "/v0/models" None init
               = (Raise json_decode_error, st')
               /\ sleeps st' = []
               /\ length (sent st') = 1%nat)
  /\ (exists st', _make_api_request limited "GET" "/v0/models" None init
                  = (Raise (network_error limited content_type_error), st')
                  /\ sleeps st' = [1; 2]
                  /\ length (sent st') = 3%nat)
  /\ network_error limited content_type_error <> retries_exhausted limited.
Proof.
  intros ok recovering limited. split; [|split].
  - eexists. split; [vm_compute; reflexivity|]. split; reflexivity.
  - eexists. split; [vm_compute; reflexivity|]. split; reflexivity.
  - vm_compute. discriminate.
Qed.

(** C6, where the code departs from it: the body of a response is
    decoded before its status is looked at, so a 401 reaches the branch
    that raises the authentication failure only when its body decodes.  A
    401 whose content type is not a JSON one is retried like a network
    fault: with three attempts allowed, three requests and the sleeps
    [2^0] and [2^1], and then the network error.  A 401 with a malformed
    body ends the request with the error of the decoder. *)
Theorem unauthorized_body_decoded_first :
  let mistyped := scripted 1 (fun _ => mistyped_reply 401) in
  let malformed := scripted 1 (fun _ => malformed_reply 401) in
  (exists st', _make_api_request mistyped "GET" "/v0/api-key-info" None init
               = (Raise (network_error mistyped content_type_error), st')
               /\ sleeps st' = [1; 2]
               /\ length (sent st') = 3%nat)
  /\ (exists st', _make_api_request malformed "GET" "/v0/api-key-info" None init
                  = (Raise json_decode_error, st')
                  /\ sleeps st' = []
                  /\ length (sent st') = 1%nat)
  /\ network_error mistyped content_type_error <> authentication_failed
  /\ json_decode_error <> authentication_failed.
Proof.
  intros mistyped malformed. split; [|split; [|split]].
  - eexists. split; [vm_compute; reflexivity|]. split; reflexivity.
  - eexists. split; [vm_compute; reflexivity|]. split; reflexivity.
  - vm_compute. discriminate.
  - discriminate.
Qed.

(** ** Stepping through computations *)

Lemma bind_ok {A B : Type} (c : M A) (k : A -> M B) st b st' :
  bind c k st = (Ok b, st') ->
  exists a st1, c st = (Ok a, st1) /\ k a st1 = (Ok b, st').
Proof.
  unfold bind. destruct (c st) as [[a|e] st1]; intros H; [|discriminate]. eauto.
Qed.

Lemma bind_raise {A B : Type} (c : M A) (k : A -> M B) st e st' :
  bind c k st = (Raise e, st') ->
  c st = (Raise e, st') \/ exists a st1, c st = (Ok a, st1) /\ k a st1 = (Raise e, st').
Proof.
  unfold bind. destruct (c st) as [[a|e1] st1]; intros H; [right; eauto|].
  left. injection H as -> ->. reflexivity.
Qed.

Lemma bind_step {A B : Type} (c : M A) (k : A -> M B) st a st1 :
  c st = (Ok a, st1) -> bind c k st = k a st1.
Proof. intros H. unfold bind. rewrite H. reflexivity. Qed.

Lemma bind_fail {A B : Type} (c : M A) (k : A -> M B) st e st1 :
  c st = (Raise e, st1) -> bind c k st = (Raise e, st1).
Proof. intros H. unfold bind. rewrite H. reflexivity. Qed.

Lemma lift_inv {A : Type} (r : result A) st r' st' :
  lift r st = (r', st') -> r' = r /\ st' = st.
Proof. unfold lift. intros H. injection H as <- <-. split; reflexivity. Qed.

(** ** Parts of the state that a computation leaves alone *)

Section Frame.

Context {X : Type} (proj : state -> X).

Lemma preserves_ret {A : Type} (a : A) : preserves proj (ret a).
Proof. intros st r st' H. injection H as _ <-. reflexivity. Qed.

Lemma preserves_raise {A : Type} (e : exn) : preserves proj (@raise A e).
Proof. intros st r st' H. injection H as _ <-. reflexivity. Qed.

Lemma preserves_lift {A : Type} (x : result A) : preserves proj (lift x).
Proof. intros st r st' H. injection H as _ <-. reflexivity. Qed.

Lemma preserves_gets {A : Type} (f : state -> A) : preserves proj (gets f).
Proof. intros st r st' H. injection H as _ <-. reflexivity. Qed.

Lemma preserves_bind {A B : Type} (c : M A) (k : A -> M B) :
  preserves proj c -> (forall a, preserves proj (k a)) -> preserves proj (bind c k).
Proof.
  intros Hc Hk st r st' H. unfold bind in H.
  destruct (c st) as [[a|e] st1] eqn:E.
  - rewrite (Hk a _ _ _ H). exact (Hc _ _ _ E).
  - injection H as _ <-. exact (Hc _ _ _ E).
Qed.

Lemma preserves_modify (f : state -> state) :
  (forall st, proj (f st) = proj st) -> preserves proj (modify f).
Proof. intros Hf st r st' H. injection H as _ <-. apply Hf. Qed.

Lemma preserves_total {A : Type} (c : state -> A * state) :
  (forall st, proj (snd (c st)) = proj st) -> preserves proj (total c).
Proof.
  intros Hc st r st' H. unfold total in H. specialize (Hc st).
  destruct (c st) as [a st1]. injection H as _ <-. exact Hc.
Qed.

Lemma preserves_if {A : Type} (b : bool) (c1 c2 : M A) :
  preserves proj c1 -> preserves proj c2 -> preserves proj (if b then c1 else c2).
Proof. destruct b; auto. Qed.

Lemma preserves_for_each {A : Type} (f : A -> M unit) (l : list A) :
  (forall a, preserves proj (f a)) -> preserves proj (for_each f l).
Proof.
  intros Hf. induction l as [|x l IH]; [apply preserves_ret|].
  apply preserves_bind; [apply Hf|intros _; exact IH].
Qed.

Lemma on_raise_of_preserves {A : Type} (c : M A) :
  preserves proj c -> preserves_on_raise proj c.
Proof. intros H st e st' E. exact (H _ _ _ E). Qed.

Lemma on_raise_bind {A B : Type} (c : M A) (k : A -> M B) :
  preserves proj c -> (forall a, preserves_on_raise proj (k a)) ->
  preserves_on_raise proj (bind c k).
Proof.
  intros Hc Hk st e st' H. apply bind_raise in H as [H|(a & st1 & E & H)].
  - exact (Hc _ _ _ H).
  - rewrite (Hk a _ _ _ H). exact (Hc _ _ _ E).
Qed.

Lemma on_raise_ret {A : Type} (a : A) : preserves_on_raise proj (ret a).
Proof. intros st e st' H. discriminate H. Qed.

Lemma on_raise_store_then_ret {A : Type} (f : state -> state) (a : A) :
  preserves_on_raise proj (bind (modify f) (fun _ => ret a)).
Proof. intros st e st' H. discriminate H. Qed.

Lemma on_raise_if {A : Type} (b : bool) (c1 c2 : M A) :
  preserves_on_raise proj c1 -> preserves_on_raise proj c2 ->
  preserves_on_raise proj (if b then c1 else c2).
Proof. destruct b; auto. Qed.

(** What follows holds for the parts that neither the session nor the
    record of the outside world belong to. *)
Hypothesis proj_world : forall s c z st, proj (set_world s c z st) = proj st.
Hypothesis proj_session : forall v st, proj (set_session v st) = proj st.

Variable env : environment.

Lemma preserves_sleep d : preserves proj (sleep d).
Proof. apply preserves_modify. intros st. apply proj_world. Qed.

Lemma preserves_tick st : proj (tick st) = proj st.
Proof. apply proj_world. Qed.

Lemma preserves_send r : preserves proj (send env r).
Proof.
  intros st res st'. unfold send.
  destruct (session st) as [s|]; [|intros H; injection H as _ <-; reflexivity].
  destruct (closed s); [intros H; injection H as _ <-; reflexivity|].
  destruct (transport env _); intros H; injection H as _ <-; apply proj_world.
Qed.

Lemma preserves_ensure_session : preserves proj (_ensure_session env).
Proof.
  intros st res st'. unfold _ensure_session.
  destruct (session st); intros H; injection H as _ <-; [reflexivity|apply proj_session].
Qed.

Lemma preserves_one_attempt r a : preserves proj (one_attempt env r a).
Proof.
  assert (Hexc : forall e st res st',
             (if is_client_error e
              then if a =? max_retries (config env) - 1
                   then (Ok (Fail (network_error env e)), st)
                   else bind (sleep (2 ^ a)) (fun _ => ret Continue) st
              else (Ok (Fail e), st)) = (res, st') -> proj st' = proj st).
  { intros e st res st'. destruct (is_client_error e).
    - destruct (a =? _).
      + intros H; injection H as _ <-; reflexivity.
      + apply (preserves_bind (sleep (2 ^ a)) (fun _ => ret Continue));
          [apply preserves_sleep|intros _; apply preserves_ret].
    - intros H; injection H as _ <-; reflexivity. }
  intros st res st'. unfold one_attempt.
  destruct (send env r st) as [[resp|e] st1] eqn:Es;
    pose proof (preserves_send r _ _ _ Es) as H1.
  - destruct (resp_json resp) as [data|e].
    + cbv zeta. destruct (_ || _); [intros H; injection H as _ <-; exact H1|].
      destruct (_ =? 401); [intros H; injection H as _ <-; exact H1|].
      destruct (_ =? 429); [|intros H; injection H as _ <-; exact H1].
      intros H. rewrite <- H1.
      apply (preserves_bind (sleep (2 ^ a)) (fun _ => ret Continue)
               (preserves_sleep _) (fun _ => preserves_ret Continue) _ _ _ H).
    + intros H. rewrite <- H1. exact (Hexc e _ _ _ H).
  - intros H. rewrite <- H1. exact (Hexc e _ _ _ H).
Qed.

Lemma preserves_attempts r k : forall a, preserves proj (attempts env r k a).
Proof.
  induction k as [|k IH]; intros a; cbn [attempts].
  - apply preserves_raise.
  - apply preserves_bind; [apply preserves_one_attempt|].
    intros [data|e|]; [apply preserves_ret|apply preserves_raise|apply IH].
Qed.

Lemma preserves_request method endpoint data :
  preserves proj (_make_api_request env method endpoint data).
Proof.
  unfold _make_api_request. apply preserves_bind; [apply preserves_ensure_session|].
  intros _. apply preserves_attempts.
Qed.

End Frame.

(** ** The transport session *)

Section SessionFacts.

Variable env : environment.

(** The first [_ensure_session] creates an open session. *)
Lemma ensure_creates st :
  session st = None ->
  _ensure_session env st = (Ok tt, set_session (Some (new_session env)) st)
  /\ closed (new_session env) = false.
Proof. intros H. unfold _ensure_session. rewrite H. split; reflexivity. Qed.

(** A later [_ensure_session] changes nothing. *)
Lemma ensure_again st s : session st = Some s -> _ensure_session env st = (Ok tt, st).
Proof. intros H. unfold _ensure_session. rewrite H. reflexivity. Qed.

(** A second [cleanup] changes nothing. *)
Lemma cleanup_twice st : snd (cleanup (snd (cleanup st))) = snd (cleanup st).
Proof. unfold cleanup. destruct (session st) as [s|] eqn:E; simpl; [reflexivity|]. rewrite E. reflexivity. Qed.

(** No request leaves over a closed session. *)
Lemma send_closed r st s :
  session st = Some s -> closed s = true ->
  send env r st = (Raise (Exn RuntimeError "Session is closed"), st).
Proof. intros H1 H2. unfold send. rewrite H1, H2. reflexivity. Qed.

(** C9, where the code departs from it: after [initialize] and [cleanup],
    [_ensure_session] finds a session object (the closed one) and does
    nothing, so that the session is still closed and a request made then
    raises without anything being sent. *)
Theorem ensure_after_cleanup_stays_closed :
  let closed_state := snd (cleanup (snd (initialize env init))) in
  _ensure_session env closed_state = (Ok tt, closed_state)
  /\ session closed_state = Some (close (new_session env))
  /\ session_usable closed_state = false
  /\ (forall r, send env r closed_state
                 = (Raise (Exn RuntimeError "Session is closed"), closed_state))
  /\ (forall method endpoint body,
        exists e, _make_api_request env method endpoint body closed_state
                  = (Raise e, closed_state)).
Proof.
  cbv zeta. split; [reflexivity|]. split; [reflexivity|]. split; [reflexivity|].
  split; [reflexivity|].
  intros method endpoint body. unfold _make_api_request.
  set (closed_state := snd (cleanup (snd (initialize env init)))).
  assert (He : _ensure_session env closed_state = (Ok tt, closed_state)) by reflexivity.
  rewrite (bind_step _ _ _ _ _ He).
  destruct (Z.to_nat (max_retries (config env))) as [|k] eqn:E.
  - exists (retries_exhausted env). reflexivity.
  - exists (Exn RuntimeError "Session is closed"). reflexivity.
Qed.

End SessionFacts.

(** ** The time-boxed caches *)

Ltac step H :=
  let a := fresh "a" in
  let st := fresh "st" in
  let E := fresh "E" in
  apply bind_ok in H as (a & st & E & H).

Lemma success_truthy v : is_success v = true -> Py.truthy v = true.
Proof.
  unfold is_success, field. destruct v as [| | | | |m]; try discriminate.
  destruct m; [discriminate|reflexivity].
Qed.

Section CacheFacts.

Variable env : environment.

(** A valid, non-empty cached answer is returned after one reading of the
    clock and nothing else. *)
Lemma cache_check_hit ts cache payload t st :
  ts = Some t -> cache = Some payload -> Py.truthy payload = true ->
  clock env (clock_reads st) - t < 300 ->
  cache_check env false ts cache st = (Some payload, tick st).
Proof.
  intros -> -> Ht Hlt. unfold cache_check, _is_cache_valid, time_time. cbn.
  unfold _cache_duration. rewrite (proj2 (Z.ltb_lt _ _) Hlt), Ht. reflexivity.
Qed.

Lemma fetch_models_ok st0 payload st1 :
  fetch_models env st0 = (Ok payload, st1) ->
  is_success payload = true
  /\ _models_cache st1 = Some payload
  /\ exists t, _models_cache_timestamp st1 = Some t.
Proof.
  unfold fetch_models. intros H. do 4 step H. cbv zeta in H. do 2 step H.
  injection H as <- <-. injection E4 as _ HE. rewrite <- HE.
  split; [reflexivity|]. split; [reflexivity|]. eexists. reflexivity.
Qed.

Lemma fetch_repositories_ok st0 payload st1 :
  fetch_repositories env st0 = (Ok payload, st1) ->
  is_success payload = true
  /\ _repositories_cache st1 = Some payload
  /\ exists t, _repositories_cache_timestamp st1 = Some t.
Proof.
  unfold fetch_repositories. intros H. do 3 step H. cbv zeta in H. do 2 step H.
  injection H as <- <-. injection E3 as _ HE. rewrite <- HE.
  split; [reflexivity|]. split; [reflexivity|]. eexists. reflexivity.
Qed.

Lemma github_response_ok url owner repo resp st0 payload st1 :
  resp_status resp = 200 ->
  on_github_response env url owner repo resp st0 = (Ok payload, st1) ->
  is_success payload = true
  /\ _branches_cache st1 !! cache_key owner repo = Some payload
  /\ exists t, _branches_cache_timestamp st1 !! cache_key owner repo = Some t.
Proof.
  unfold on_github_response. intros Hcode H. cbv zeta in H. rewrite Hcode in H.
  change (200 =? 200) with true in H. cbv iota in H. do 5 step H.
  injection H as <- <-. injection E3 as _ HE. rewrite <- HE. split; [reflexivity|].
  cbn. rewrite !lookup_insert_eq. split; [reflexivity|]. eexists. reflexivity.
Qed.

(** The executor sends and sleeps, but does not read the clock. *)
Lemma one_attempt_clock r a st v st' :
  one_attempt env r a st = (v, st') -> clock_reads st' = clock_reads st.
Proof.
  unfold one_attempt, send.
  assert (Hexc : forall e st1 res st2,
             (if is_client_error e
              then if a =? max_retries (config env) - 1
                   then (Ok (Fail (network_error env e)), st1)
                   else bind (sleep (2 ^ a)) (fun _ => ret Continue) st1
              else (Ok (Fail e), st1)) = (res, st2) ->
             clock_reads st2 = clock_reads st1).
  { intros e st1 res st2. destruct (is_client_error e); [destruct (a =? _)|];
      intros H; injection H as _ <-; reflexivity. }
  destruct (session st) as [s|]; [|intros H; injection H as _ <-; reflexivity].
  destruct (closed s); [intros H; injection H as _ <-; reflexivity|].
  destruct (transport env (length (sent st))) as [e|resp].
  - intros H. apply Hexc in H. exact H.
  - destruct (resp_json resp) as [data|e]; [|intros H; apply Hexc in H; exact H].
    cbv zeta. destruct (_ || _); [|destruct (_ =? 401); [|destruct (_ =? 429)]];
      intros H; injection H as _ <-; reflexivity.
Qed.

Lemma attempts_clock r k : forall a st res st',
  attempts env r k a st = (res, st') -> clock_reads st' = clock_reads st.
Proof.
  induction k as [|k IH]; intros a st res st' H; cbn [attempts] in H.
  - injection H as _ <-. reflexivity.
  - unfold bind in H at 1. destruct (one_attempt env r a st) as [[v|e] st1] eqn:E;
      pose proof (one_attempt_clock _ _ _ _ _ E) as H1.
    + destruct v as [data|e|].
      * injection H as _ <-. exact H1.
      * injection H as _ <-. exact H1.
      * rewrite (IH _ _ _ _ H). exact H1.
    + injection H as _ <-. exact H1.
Qed.

Lemma request_clock method endpoint data st res st' :
  _make_api_request env method endpoint data st = (res, st') ->
  clock_reads st' = clock_reads st.
Proof.
  unfold _make_api_request, bind at 1, _ensure_session. intros H.
  destruct (session st); exact (attempts_clock _ _ _ _ _ _ H).
Qed.

(** A fetch that succeeds reads the clock once, when the response has
    been taken apart, and stores that reading as the timestamp. *)
Lemma fetch_models_stamp st0 payload st1 :
  fetch_models env st0 = (Ok payload, st1) ->
  _models_cache_timestamp st1 = Some (clock env (clock_reads st0))
  /\ clock_reads st1 = S (clock_reads st0).
Proof.
  unfold fetch_models. intros H.
  apply bind_ok in H as (response & sa & Ereq & H). apply request_clock in Ereq.
  apply bind_ok in H as (models & sb & E1 & H). apply lift_inv in E1 as [_ ->].
  apply bind_ok in H as (n & sc & E2 & H). apply lift_inv in E2 as [_ ->].
  apply bind_ok in H as (recommended & sd & E3 & H).
  assert (sd = sa) as ->.
  { destruct (Py.truthy models); [apply lift_inv in E3 as [_ ->]|injection E3 as _ <-];
      reflexivity. }
  cbv zeta in H. apply bind_ok in H as (now & se & E4 & H).
  unfold total, time_time in E4. injection E4 as <- <-.
  apply bind_ok in H as ([] & sf & E5 & H). injection E5 as <-. injection H as _ <-.
  cbn. rewrite Ereq. split; reflexivity.
Qed.

Lemma fetch_repositories_stamp st0 payload st1 :
  fetch_repositories env st0 = (Ok payload, st1) ->
  _repositories_cache_timestamp st1 = Some (clock env (clock_reads st0))
  /\ clock_reads st1 = S (clock_reads st0).
Proof.
  unfold fetch_repositories. intros H.
  apply bind_ok in H as (response & sa & Ereq & H). apply request_clock in Ereq.
  apply bind_ok in H as (repositories & sb & E1 & H). apply lift_inv in E1 as [_ ->].
  apply bind_ok in H as (n & sc & E2 & H). apply lift_inv in E2 as [_ ->].
  cbv zeta in H. apply bind_ok in H as (now & se & E4 & H).
  unfold total, time_time in E4. injection E4 as <- <-.
  apply bind_ok in H as ([] & sf & E5 & H). injection E5 as <-. injection H as _ <-.
  cbn. rewrite Ereq. split; reflexivity.
Qed.

Lemma github_response_stamp url owner repo resp st0 payload st1 :
  resp_status resp = 200 ->
  on_github_response env url owner repo resp st0 = (Ok payload, st1) ->
  _branches_cache_timestamp st1 !! cache_key owner repo = Some (clock env (clock_reads st0))
  /\ clock_reads st1 = S (clock_reads st0).
Proof.
  unfold on_github_response. intros Hcode H. cbv zeta in H. rewrite Hcode in H.
  change (200 =? 200) with true in H. cbv iota in H.
  apply bind_ok in H as (branches_data & sa & E1 & H). apply lift_inv in E1 as [_ ->].
  apply bind_ok in H as (items & sb & E2 & H). apply lift_inv in E2 as [_ ->].
  apply bind_ok in H as (branches & sc & E3 & H). apply lift_inv in E3 as [_ ->].
  apply bind_ok in H as (now & se & E4 & H).
  unfold total, time_time in E4. injection E4 as <- <-.
  apply bind_ok in H as ([] & sf & E5 & H). injection E5 as <-. injection H as _ <-.
  cbn. rewrite lookup_insert_eq. split; reflexivity.
Qed.

Lemma models_hit st payload t :
  _models_cache st = Some payload -> is_success payload = true ->
  _models_cache_timestamp st = Some t ->
  clock env (clock_reads st) - t < 300 ->
  _list_available_models env false st = (payload, tick st).
Proof.
  intros Hc Hs Ht Hlt. unfold _list_available_models.
  rewrite (cache_check_hit _ _ payload t st Ht Hc (success_truthy _ Hs) Hlt). reflexivity.
Qed.

Lemma repositories_hit st payload t :
  _repositories_cache st = Some payload -> is_success payload = true ->
  _repositories_cache_timestamp st = Some t ->
  clock env (clock_reads st) - t < 300 ->
  _list_repositories env false st = (payload, tick st).
Proof.
  intros Hc Hs Ht Hlt. unfold _list_repositories.
  rewrite (cache_check_hit _ _ payload t st Ht Hc (success_truthy _ Hs) Hlt). reflexivity.
Qed.

Lemma branches_hit url owner repo st payload t :
  _extract_repo_info url = Ok (owner, repo) ->
  _branches_cache st !! cache_key owner repo = Some payload ->
  _branches_cache_timestamp st !! cache_key owner repo = Some t ->
  clock env (clock_reads st) - t < 300 ->
  _list_repository_branches env url false st = (payload, tick st).
Proof.
  intros Hu Hc Ht Hlt.
  unfold _list_repository_branches, catching, branches_body, bind, lift, total.
  rewrite Hu. unfold branches_cache_check, _is_cache_valid, time_time. rewrite Ht.
  unfold _cache_duration. rewrite (proj2 (Z.ltb_lt _ _) Hlt), Hc. reflexivity.
Qed.

(** C1: a fetch that succeeds stores, as the timestamp of its payload,
    the reading of the clock that it takes; a call without [force_refresh]
    made while the caches are as that fetch left them, and whose own
    reading of the clock is less than 300 time-units after that of the
    fetch, returns the stored payload and sends no request; for the
    models, for the repositories, and for the branches of each
    repository. *)
Theorem fresh_cache_served_without_refresh :
  (forall st0 payload st1,
      fetch_models env st0 = (Ok payload, st1) ->
      _models_cache_timestamp st1 = Some (clock env (clock_reads st0))
      /\ clock_reads st1 = S (clock_reads st0)
      /\ forall st, caches st = caches st1 ->
           clock env (clock_reads st) - clock env (clock_reads st0) < 300 ->
           exists st2, _list_available_models env false st = (payload, st2)
                       /\ sent st2 = sent st)
  /\ (forall st0 payload st1,
        fetch_repositories env st0 = (Ok payload, st1) ->
        _repositories_cache_timestamp st1 = Some (clock env (clock_reads st0))
        /\ clock_reads st1 = S (clock_reads st0)
        /\ forall st, caches st = caches st1 ->
             clock env (clock_reads st) - clock env (clock_reads st0) < 300 ->
             exists st2, _list_repositories env false st = (payload, st2)
                         /\ sent st2 = sent st)
  /\ (forall url owner repo resp st0 payload st1,
        resp_status resp = 200 ->
        on_github_response env url owner repo resp st0 = (Ok payload, st1) ->
        _branches_cache_timestamp st1 !! cache_key owner repo
        = Some (clock env (clock_reads st0))
        /\ clock_reads st1 = S (clock_reads st0)
        /\ forall url' st, _extract_repo_info url' = Ok (owner, repo) ->
             caches st = caches st1 ->
             clock env (clock_reads st) - clock env (clock_reads st0) < 300 ->
             exists st2, _list_repository_branches env url' false st = (payload, st2)
                         /\ sent st2 = sent st).
Proof.
  split; [|split].
  - intros st0 payload st1 H. destruct (fetch_models_ok _ _ _ H) as (Hs & Hc & _).
    destruct (fetch_models_stamp _ _ _ H) as [Ht Hreads].
    split; [exact Ht|]. split; [exact Hreads|]. intros st Heq Hlt. unfold caches in Heq.
    injection Heq as E1 E2 _ _ _ _. exists (tick st). split; [|reflexivity].
    apply (models_hit st payload (clock env (clock_reads st0))); congruence.
  - intros st0 payload st1 H. destruct (fetch_repositories_ok _ _ _ H) as (Hs & Hc & _).
    destruct (fetch_repositories_stamp _ _ _ H) as [Ht Hreads].
    split; [exact Ht|]. split; [exact Hreads|]. intros st Heq Hlt. unfold caches in Heq.
    injection Heq as _ _ E1 E2 _ _. exists (tick st). split; [|reflexivity].
    apply (repositories_hit st payload (clock env (clock_reads st0))); congruence.
  - intros url owner repo resp st0 payload st1 Hcode H.
    destruct (github_response_ok _ _ _ _ _ _ _ Hcode H) as (Hs & Hc & _).
    destruct (github_response_stamp _ _ _ _ _ _ _ Hcode H) as [Ht Hreads].
    split; [exact Ht|]. split; [exact Hreads|]. intros url' st Hu Heq Hlt.
    unfold caches in Heq. injection Heq as _ _ _ _ E1 E2. exists (tick st).
    split; [|reflexivity].
    apply (branches_hit url' owner repo st payload (clock env (clock_reads st0)));
      congruence.
Qed.

End CacheFacts.

Lemma fresh_cache_served_without_refresh_witness :
  let branches := JList [JObj [("name", JStr "main")]; JObj [("name", JStr "dev")]] in
  let env :=
    scripted 10 (fun n => match n with
                          | O => json_reply 200 (JObj [("models", JList [JStr "o3"])])
                          | S O => json_reply 200 (JObj [("repositories", JList [])])
                          | _ => json_reply 200 branches
                          end) in
  let resp := {| resp_status := 200; resp_json := Ok branches; resp_text := Ok "" |} in
  let st0 := snd (_list_available_models env false init) in
  (exists payload st1 st2,
      fetch_models env init = (Ok payload, st1)
      /\ _list_available_models env false st1 = (payload, st2)
      /\ sent st2 = sent st1
      /\ length (sent st2) = 1%nat)
  /\ (exists payload st1 st2,
        fetch_repositories env st0 = (Ok payload, st1)
        /\ _repositories_cache_timestamp st1 = Some 10
        /\ _list_repositories env false st1 = (payload, st2)
        /\ sent st2 = sent st1)
  /\ (exists payload st1 st2,
        on_github_response env "https://github.com/acme/widgets" "acme" "widgets" resp st0
        = (Ok payload, st1)
        /\ _branches_cache_timestamp st1 !! "acme/widgets" = Some 10
        /\ _list_repository_branches env "http://github.com/acme/widgets/" false st1
           = (payload, st2)
        /\ sent st2 = sent st1).
Proof.
  intros branches env resp st0.
  destruct (fresh_cache_served_without_refresh env) as (Hm & Hr & Hb).
  split; [|split].
  - destruct (fetch_models env init) as [[payload|e] st1] eqn:E; [|discriminate E].
    destruct (Hm init payload st1 E) as (Ht & Hreads & Hserve).
    destruct (Hserve st1 eq_refl) as (st2 & H1 & H2).
    + rewrite Hreads. vm_compute. reflexivity.
    + exists payload, st1, st2. split; [reflexivity|].
      split; [exact H1|]. split; [exact H2|]. rewrite H2.
      vm_compute in E. injection E as _ <-. reflexivity.
  - destruct (fetch_repositories env st0) as [[payload|e] st1] eqn:E;
      [|vm_compute in E; discriminate E].
    destruct (Hr st0 payload st1 E) as (Ht & Hreads & Hserve).
    destruct (Hserve st1 eq_refl) as (st2 & H1 & H2).
    + rewrite Hreads. vm_compute. reflexivity.
    + exists payload, st1, st2. split; [reflexivity|]. split; [exact Ht|].
      split; assumption.
  - destruct (on_github_response env "https://github.com/acme/widgets" "acme" "widgets"
                resp st0) as [[payload|e] st1] eqn:E; [|vm_compute in E; discriminate E].
    destruct (Hb _ _ _ resp st0 payload st1 eq_refl E) as (Ht & Hreads & Hserve).
    destruct (Hserve "http://github.com/acme/widgets/" st1 eq_refl eq_refl) as (st2 & H1 & H2).
    + rewrite Hreads. vm_compute. reflexivity.
    + exists payload, st1, st2. split; [reflexivity|]. split; [exact Ht|].
      split; assumption.
Defined.

(** ** Failed refreshes *)

Lemma caches_world s c z st : caches (set_world s c z st) = caches st.
Proof. reflexivity. Qed.

Lemma caches_session v st : caches (set_session v st) = caches st.
Proof. reflexivity. Qed.

Lemma caches_agents v st : caches (set_agents v st) = caches st.
Proof. reflexivity. Qed.

Lemma caches_ok_same st st' : caches st' = caches st -> caches_ok st -> caches_ok st'.
Proof.
  unfold caches, caches_ok. intros H. injection H as -> _ -> _ -> _. auto.
Qed.

Section RefreshFacts.

Variable env : environment.

Lemma cache_check_frame fr ts cache st r st0 :
  cache_check env fr ts cache st = (r, st0) ->
  caches st0 = caches st /\ session st0 = session st /\ sent st0 = sent st
  /\ agents st0 = agents st /\ sleeps st0 = sleeps st.
Proof.
  unfold cache_check, _is_cache_valid, time_time. destruct fr.
  - intros H. injection H as _ <-. repeat split.
  - destruct ts as [t|]; intros H; injection H as _ <-; repeat split.
Qed.

Lemma branches_cache_check_frame fr key st r st0 :
  branches_cache_check env fr key st = (r, st0) ->
  caches st0 = caches st /\ session st0 = session st /\ sent st0 = sent st
  /\ agents st0 = agents st /\ sleeps st0 = sleeps st.
Proof.
  unfold branches_cache_check, _is_cache_valid, time_time. destruct fr.
  - intros H. injection H as _ <-. repeat split.
  - destruct (_branches_cache_timestamp st !! key) as [t|]; intros H;
      injection H as _ <-; repeat split.
Qed.

(** A cache slot that holds nothing is never served. *)
Lemma cache_check_none fr ts st :
  exists st0, cache_check env fr ts None st = (None, st0).
Proof.
  unfold cache_check. destruct fr; [eexists; reflexivity|].
  destruct (_is_cache_valid env ts st) as [valid st0]. exists st0.
  rewrite andb_false_r. reflexivity.
Qed.

Lemma fetch_models_raise : preserves_on_raise caches (fetch_models env).
Proof.
  unfold fetch_models.
  apply on_raise_bind; [apply preserves_request; reflexivity|]. intros response.
  apply on_raise_bind; [apply preserves_lift|]. intros models.
  apply on_raise_bind; [apply preserves_lift|]. intros n.
  apply on_raise_bind; [apply preserves_if; [apply preserves_lift|apply preserves_ret]|].
  intros recommended. cbv zeta.
  apply on_raise_bind; [apply preserves_total; reflexivity|]. intros now.
  apply on_raise_store_then_ret.
Qed.

Lemma fetch_repositories_raise : preserves_on_raise caches (fetch_repositories env).
Proof.
  unfold fetch_repositories.
  apply on_raise_bind; [apply preserves_request; reflexivity|]. intros response.
  apply on_raise_bind; [apply preserves_lift|]. intros repositories.
  apply on_raise_bind; [apply preserves_lift|]. intros n. cbv zeta.
  apply on_raise_bind; [apply preserves_total; reflexivity|]. intros now.
  apply on_raise_store_then_ret.
Qed.

Lemma github_response_raise url owner repo resp :
  preserves_on_raise caches (on_github_response env url owner repo resp).
Proof.
  unfold on_github_response. cbv zeta.
  apply on_raise_if.
  - apply on_raise_bind; [apply preserves_lift|]. intros data.
    apply on_raise_bind; [apply preserves_lift|]. intros items.
    apply on_raise_bind; [apply preserves_lift|]. intros names.
    apply on_raise_bind; [apply preserves_total; reflexivity|]. intros now.
    apply on_raise_store_then_ret.
  - apply on_raise_if; [apply on_raise_ret|].
    apply on_raise_if; [apply on_raise_ret|].
    apply on_raise_bind; [apply preserves_lift|]. intros text. apply on_raise_ret.
Qed.

Lemma branches_body_raise url fr : preserves_on_raise caches (branches_body env url fr).
Proof.
  unfold branches_body.
  apply on_raise_bind; [apply preserves_lift|]. intros [owner repo].
  apply on_raise_bind.
  - intros st r st' H. unfold total in H.
    destruct (branches_cache_check env fr (cache_key owner repo) st) as [hit st0] eqn:E.
    injection H as _ <-. apply (branches_cache_check_frame _ _ _ _ _ E).
  - intros [cached|]; [apply on_raise_ret|].
    apply on_raise_bind; [apply preserves_send; reflexivity|]. intros resp.
    apply github_response_raise.
Qed.

Lemma models_cache_of_caches st st' :
  caches st' = caches st -> _models_cache st' = _models_cache st.
Proof. unfold caches. intros H. injection H as H _ _ _ _ _. exact H. Qed.

Lemma repositories_cache_of_caches st st' :
  caches st' = caches st -> _repositories_cache st' = _repositories_cache st.
Proof. unfold caches. intros H. injection H as _ _ H _ _ _. exact H. Qed.

Lemma branches_cache_of_caches st st' :
  caches st' = caches st -> _branches_cache st' = _branches_cache st.
Proof. unfold caches. intros H. injection H as _ _ _ _ H _. exact H. Qed.

(** What list-models answers when its refresh fails. *)
Lemma models_refresh_failed fr st st0 e st1 :
  caches_ok st ->
  cache_check env fr (_models_cache_timestamp st) (_models_cache st) st = (None, st0) ->
  fetch_models env st0 = (Raise e, st1) ->
  _list_available_models env fr st
  = (match _models_cache st with Some cached => cached | None => models_default e end, st1).
Proof.
  intros Hok Hcheck Hfetch. unfold _list_available_models, catching.
  rewrite Hcheck, Hfetch. unfold models_fallback.
  rewrite (models_cache_of_caches st0 st1 (fetch_models_raise _ _ _ Hfetch)).
  rewrite (models_cache_of_caches st st0 (proj1 (cache_check_frame _ _ _ _ _ _ Hcheck))).
  destruct (_models_cache st) as [cached|] eqn:E; [|reflexivity].
  rewrite (success_truthy cached (proj1 Hok cached E)). reflexivity.
Qed.

Lemma repositories_refresh_failed fr st st0 e st1 :
  caches_ok st ->
  cache_check env fr (_repositories_cache_timestamp st) (_repositories_cache st) st
  = (None, st0) ->
  fetch_repositories env st0 = (Raise e, st1) ->
  _list_repositories env fr st
  = (match _repositories_cache st with
     | Some cached => cached
     | None => repositories_default e
     end, st1).
Proof.
  intros Hok Hcheck Hfetch. unfold _list_repositories, catching.
  rewrite Hcheck, Hfetch. unfold repositories_fallback.
  rewrite (repositories_cache_of_caches st0 st1 (fetch_repositories_raise _ _ _ Hfetch)).
  rewrite (repositories_cache_of_caches st st0 (proj1 (cache_check_frame _ _ _ _ _ _ Hcheck))).
  destruct (_repositories_cache st) as [cached|] eqn:E; [|reflexivity].
  rewrite (success_truthy cached (proj1 (proj2 Hok) cached E)). reflexivity.
Qed.

(** What list-branches answers when its [try] block raises. *)
Lemma branches_refresh_raised url owner repo fr st e st1 :
  _extract_repo_info url = Ok (owner, repo) ->
  branches_body env url fr st = (Raise e, st1) ->
  _list_repository_branches env url fr st
  = (match _branches_cache st !! cache_key owner repo with
     | Some cached => cached
     | None => branches_default url e
     end, st1).
Proof.
  intros Hu Hbody. unfold _list_repository_branches, catching. rewrite Hbody.
  unfold branches_fallback. rewrite Hu.
  rewrite (branches_cache_of_caches st st1 (branches_body_raise _ _ _ _ _ Hbody)).
  destruct (_branches_cache st !! cache_key owner repo); reflexivity.
Qed.

(** list-branches once the secondary API has responded. *)
Lemma branches_on_response url owner repo fr st st0 s resp :
  _extract_repo_info url = Ok (owner, repo) ->
  branches_cache_check env fr (cache_key owner repo) st = (None, st0) ->
  session st = Some s -> closed s = false ->
  transport env (length (sent st)) = Responded resp ->
  _list_repository_branches env url fr st
  = catching (on_github_response env url owner repo resp) (branches_fallback url)
      (sent_one (github_request owner repo) st0).
Proof.
  intros Hu Hcheck Hs Hc Ht.
  destruct (branches_cache_check_frame _ _ _ _ _ Hcheck) as (_ & Hs0 & Hsent & _).
  unfold _list_repository_branches, catching, branches_body, bind, lift, total.
  rewrite Hu, Hcheck. unfold send. rewrite <- Hsent in Ht.
  rewrite Hs0, Hs, Hc, Ht. reflexivity.
Qed.

(** The answers to a response of the secondary API that is not a 200. *)
Lemma branches_on_status url owner repo resp st :
  resp_status resp <> 200 ->
  catching (on_github_response env url owner repo resp) (branches_fallback url) st
  = if resp_status resp =? 404 then (branches_not_found url owner repo, st)
    else if resp_status resp =? 401 then (branches_private url owner repo, st)
    else match resp_text resp with
         | Ok error_text => (branches_api_error url (resp_status resp) error_text, st)
         | Raise e => branches_fallback url e st
         end.
Proof.
  intros Hne. unfold catching, on_github_response. cbv zeta.
  rewrite (proj2 (Z.eqb_neq _ _) Hne).
  destruct (resp_status resp =? 404); [reflexivity|].
  destruct (resp_status resp =? 401); [reflexivity|].
  destruct (resp_text resp); reflexivity.
Qed.

(** C3, as the code has it.  For list-models and list-repositories, a
    refresh that fails (forced, or made because the entry is missing or
    expired) is answered with the stored payload whenever one is stored,
    whatever its age, and with the hardcoded default only when none is.
    For list-branches the same holds whenever the [try] block raises,
    which includes a response with a status other than 200, 404 and 401
    whose body cannot be read as text; when the secondary API responds
    with 404 or 401, or with another status other than 200 and a body that
    can be read, the answer is a hardcoded list of branch names, whether
    or not an entry is stored.  A URL that the parser rejects has no key:
    the answer is the hardcoded default. *)
Theorem stale_entry_on_failed_refresh :
  (forall fr st st0 e st1,
      caches_ok st ->
      cache_check env fr (_models_cache_timestamp st) (_models_cache st) st = (None, st0) ->
      fetch_models env st0 = (Raise e, st1) ->
      (forall cached, _models_cache st = Some cached ->
                      _list_available_models env fr st = (cached, st1))
      /\ (_models_cache st = None ->
          _list_available_models env fr st = (models_default e, st1)))
  /\ (forall fr st st0 e st1,
        caches_ok st ->
        cache_check env fr (_repositories_cache_timestamp st) (_repositories_cache st) st
        = (None, st0) ->
        fetch_repositories env st0 = (Raise e, st1) ->
        (forall cached, _repositories_cache st = Some cached ->
                        _list_repositories env fr st = (cached, st1))
        /\ (_repositories_cache st = None ->
            _list_repositories env fr st = (repositories_default e, st1)))
  /\ (forall url owner repo fr st e st1,
        _extract_repo_info url = Ok (owner, repo) ->
        branches_body env url fr st = (Raise e, st1) ->
        (forall cached, _branches_cache st !! cache_key owner repo = Some cached ->
                        _list_repository_branches env url fr st = (cached, st1))
        /\ (_branches_cache st !! cache_key owner repo = None ->
            _list_repository_branches env url fr st = (branches_default url e, st1)))
  /\ (forall url owner repo fr st st0 s resp,
        _extract_repo_info url = Ok (owner, repo) ->
        branches_cache_check env fr (cache_key owner repo) st = (None, st0) ->
        session st = Some s -> closed s = false ->
        transport env (length (sent st)) = Responded resp ->
        resp_status resp <> 200 ->
        (resp_status resp = 404 \/ resp_status resp = 401
         \/ exists error_text, resp_text resp = Ok error_text) ->
        exists answer,
          _list_repository_branches env url fr st
          = (answer, sent_one (github_request owner repo) st0)
          /\ is_success answer = false
          /\ (field "branches" answer = Some (strs common_branches)
              \/ field "branches" answer = Some (strs more_branches)))
  /\ (forall url owner repo fr st st0 s resp e,
        _extract_repo_info url = Ok (owner, repo) ->
        branches_cache_check env fr (cache_key owner repo) st = (None, st0) ->
        session st = Some s -> closed s = false ->
        transport env (length (sent st)) = Responded resp ->
        resp_status resp <> 200 -> resp_status resp <> 404 -> resp_status resp <> 401 ->
        resp_text resp = Raise e ->
        (forall cached, _branches_cache st !! cache_key owner repo = Some cached ->
                        _list_repository_branches env url fr st
                        = (cached, sent_one (github_request owner repo) st0))
        /\ (_branches_cache st !! cache_key owner repo = None ->
            _list_repository_branches env url fr st
            = (branches_default url e, sent_one (github_request owner repo) st0)))
  /\ (forall url fr st e,
        _extract_repo_info url = Raise e ->
        _list_repository_branches env url fr st = (branches_default url e, st)).
Proof.
  split; [|split; [|split; [|split; [|split]]]].
  - intros fr st st0 e st1 Hok Hcheck Hfetch.
    rewrite (models_refresh_failed fr st st0 e st1 Hok Hcheck Hfetch).
    split; [intros cached ->|intros ->]; reflexivity.
  - intros fr st st0 e st1 Hok Hcheck Hfetch.
    rewrite (repositories_refresh_failed fr st st0 e st1 Hok Hcheck Hfetch).
    split; [intros cached ->|intros ->]; reflexivity.
  - intros url owner repo fr st e st1 Hu Hbody.
    rewrite (branches_refresh_raised url owner repo fr st e st1 Hu Hbody).
    split; [intros cached ->|intros ->]; reflexivity.
  - intros url owner repo fr st st0 s resp Hu Hcheck Hs Hc Ht Hne Hread.
    rewrite (branches_on_response url owner repo fr st st0 s resp Hu Hcheck Hs Hc Ht).
    rewrite (branches_on_status url owner repo resp _ Hne).
    destruct (resp_status resp =? 404) eqn:E404;
      [eexists; split; [reflexivity|]; split; [reflexivity|]; auto|].
    destruct (resp_status resp =? 401) eqn:E401;
      [eexists; split; [reflexivity|]; split; [reflexivity|]; auto|].
    destruct Hread as [H|[H|[error_text Htext]]].
    + rewrite H in E404. discriminate E404.
    + rewrite H in E401. discriminate E401.
    + rewrite Htext. eexists; split; [reflexivity|]; split; [reflexivity|]; auto.
  - intros url owner repo fr st st0 s resp e Hu Hcheck Hs Hc Ht Hne H404 H401 Htext.
    rewrite (branches_on_response url owner repo fr st st0 s resp Hu Hcheck Hs Hc Ht).
    rewrite (branches_on_status url owner repo resp _ Hne).
    rewrite (proj2 (Z.eqb_neq _ _) H404), (proj2 (Z.eqb_neq _ _) H401), Htext.
    unfold branches_fallback. rewrite Hu.
    assert (Hb : _branches_cache (sent_one (github_request owner repo) st0)
                 = _branches_cache st).
    { exact (branches_cache_of_caches st st0
               (proj1 (branches_cache_check_frame _ _ _ _ _ Hcheck))). }
    rewrite Hb. split; [intros cached ->|intros ->]; reflexivity.
  - intros url fr st e Hu.
    unfold _list_repository_branches, catching, branches_body, bind, lift.
    rewrite Hu. unfold branches_fallback. rewrite Hu. reflexivity.
Qed.

End RefreshFacts.

(** ** What the handlers leave in the caches *)

Lemma catching_preserves {X A : Type} (proj : state -> X) (body : M A)
    (handler : exn -> state -> A * state) :
  preserves proj body ->
  (forall e st, proj (snd (handler e st)) = proj st) ->
  forall st, proj (snd (catching body handler st)) = proj st.
Proof.
  intros Hb Hh st. unfold catching. destruct (body st) as [[a|e] st1] eqn:E.
  - exact (Hb _ _ _ E).
  - rewrite Hh. exact (Hb _ _ _ E).
Qed.

Section HandlerFrames.

Variable env : environment.

Lemma reg_store_caches k a : preserves caches (reg_store k a).
Proof.
  intros st r st'. unfold reg_store. destruct (Py.hashable k); intros H;
    injection H as _ <-; reflexivity.
Qed.

Lemma reg_contains_caches k : preserves caches (reg_contains k).
Proof.
  intros st r st'. unfold reg_contains. destruct (Py.hashable k); intros H;
    injection H as _ <-; reflexivity.
Qed.

Ltac frame :=
  repeat first
    [ apply preserves_ret
    | apply preserves_raise
    | apply preserves_lift
    | apply preserves_gets
    | apply reg_store_caches
    | apply reg_contains_caches
    | apply preserves_request; reflexivity
    | apply preserves_total; reflexivity
    | apply preserves_modify; reflexivity
    | apply preserves_for_each
    | apply preserves_if
    | apply preserves_bind
    | intro
    | progress cbv zeta ].

Lemma absorb_agent_caches agent_data : preserves caches (absorb_agent env agent_data).
Proof. unfold absorb_agent. frame. Qed.

Lemma create_caches args st :
  caches (snd (_create_background_agent env args st)) = caches st.
Proof.
  unfold _create_background_agent. apply catching_preserves; [frame|reflexivity].
Qed.

Lemma get_status_caches args st :
  caches (snd (_get_agent_status env args st)) = caches st.
Proof.
  unfold _get_agent_status. apply catching_preserves; [frame|reflexivity].
Qed.

Lemma followup_caches args st :
  caches (snd (_add_followup_instruction env args st)) = caches st.
Proof.
  unfold _add_followup_instruction. apply catching_preserves; [frame|reflexivity].
Qed.

Lemma stop_caches args st :
  caches (snd (_stop_background_agent env args st)) = caches st.
Proof.
  unfold _stop_background_agent. apply catching_preserves; [frame|reflexivity].
Qed.

Lemma list_agents_caches args st :
  caches (snd (_list_background_agents env args st)) = caches st.
Proof.
  unfold _list_background_agents. apply catching_preserves; [frame|reflexivity].
Qed.

Lemma usage_caches st : caches (snd (_get_api_usage env st)) = caches st.
Proof.
  unfold _get_api_usage. apply catching_preserves; [unfold fetch_usage; frame|reflexivity].
Qed.

End HandlerFrames.

(** ** The cache invariant *)

Lemma caches_ok_init : caches_ok init.
Proof.
  unfold caches_ok, init. cbn. repeat split; discriminate.
Qed.

Lemma caches_ok_set_models payload t sa st0 :
  caches sa = caches st0 -> caches_ok st0 -> is_success payload = true ->
  caches_ok (set_models_cache (Some payload) (Some t) sa).
Proof.
  intros Hc Hok Hs. apply (caches_ok_same st0 sa Hc) in Hok.
  destruct Hok as (_ & H2 & H3). unfold caches_ok. cbn. repeat split; auto.
  intros v H. injection H as <-. exact Hs.
Qed.

Lemma caches_ok_set_repositories payload t sa st0 :
  caches sa = caches st0 -> caches_ok st0 -> is_success payload = true ->
  caches_ok (set_repositories_cache (Some payload) (Some t) sa).
Proof.
  intros Hc Hok Hs. apply (caches_ok_same st0 sa Hc) in Hok.
  destruct Hok as (H1 & _ & H3). unfold caches_ok. cbn. repeat split; auto.
  intros v H. injection H as <-. exact Hs.
Qed.

Lemma caches_ok_set_branches key payload t sa st0 :
  caches sa = caches st0 -> caches_ok st0 -> is_success payload = true ->
  caches_ok (set_branches_cache (<[key := payload]> (_branches_cache sa))
               (<[key := t]> (_branches_cache_timestamp sa)) sa).
Proof.
  intros Hc Hok Hs. apply (caches_ok_same st0 sa Hc) in Hok.
  destruct Hok as (H1 & H2 & H3). unfold caches_ok. cbn. repeat split; auto.
  intros k v H. destruct (decide (key = k)) as [->|Hne].
  - rewrite lookup_insert_eq in H. injection H as <-. exact Hs.
  - rewrite lookup_insert_ne in H by exact Hne. exact (H3 k v H).
Qed.

Section Invariant.

Variable env : environment.

Lemma fetch_models_stores st0 payload st1 :
  fetch_models env st0 = (Ok payload, st1) -> caches_ok st0 -> caches_ok st1.
Proof.
  unfold fetch_models. intros H Hok. do 4 step H. cbv zeta in H. do 2 step H.
  injection H as <- <-. injection E4 as _ HE. rewrite <- HE.
  apply (caches_ok_set_models _ _ _ st0); [|exact Hok|reflexivity].
  apply lift_inv in E0 as [_ ->]. apply lift_inv in E1 as [_ ->].
  assert (st4 = st) as ->.
  { destruct (Py.truthy a0); [apply lift_inv in E2 as [_ ->]|injection E2 as _ ->]; reflexivity. }
  unfold total, time_time in E3. injection E3 as _ <-.
  transitivity (caches st); [reflexivity|].
  exact (preserves_request caches caches_world caches_session env _ _ _ _ _ _ E).
Qed.

Lemma fetch_repositories_stores st0 payload st1 :
  fetch_repositories env st0 = (Ok payload, st1) -> caches_ok st0 -> caches_ok st1.
Proof.
  unfold fetch_repositories. intros H Hok. do 3 step H. cbv zeta in H. do 2 step H.
  injection H as <- <-. injection E3 as _ HE. rewrite <- HE.
  apply (caches_ok_set_repositories _ _ _ st0); [|exact Hok|reflexivity].
  apply lift_inv in E0 as [_ ->]. apply lift_inv in E1 as [_ ->].
  unfold total, time_time in E2. injection E2 as _ <-.
  transitivity (caches st); [reflexivity|].
  exact (preserves_request caches caches_world caches_session env _ _ _ _ _ _ E).
Qed.

Lemma github_response_stores url owner repo resp st0 payload st1 :
  on_github_response env url owner repo resp st0 = (Ok payload, st1) ->
  caches_ok st0 -> caches_ok st1.
Proof.
  unfold on_github_response. cbv zeta. intros H Hok.
  destruct (resp_status resp =? 200).
  - do 5 step H. injection H as <- <-. injection E3 as _ HE. rewrite <- HE.
    apply lift_inv in E as [_ ->]. apply lift_inv in E0 as [_ ->].
    apply lift_inv in E1 as [_ ->]. unfold total, time_time in E2. injection E2 as _ <-.
    apply (caches_ok_set_branches _ _ _ _ st0); [reflexivity|exact Hok|reflexivity].
  - destruct (resp_status resp =? 404); [injection H as _ <-; exact Hok|].
    destruct (resp_status resp =? 401); [injection H as _ <-; exact Hok|].
    step H. apply lift_inv in E as [_ ->]. injection H as _ <-. exact Hok.
Qed.

Lemma models_caches_ok fr st :
  caches_ok st -> caches_ok (snd (_list_available_models env fr st)).
Proof.
  intros Hok. unfold _list_available_models.
  destruct (cache_check env fr _ _ st) as [[cached|] st0] eqn:Hcheck;
    pose proof (proj1 (cache_check_frame _ _ _ _ _ _ _ Hcheck)) as Hf;
    pose proof (caches_ok_same st st0 Hf Hok) as Hok0; [exact Hok0|].
  unfold catching. destruct (fetch_models env st0) as [[payload|e] st1] eqn:F.
  - exact (fetch_models_stores _ _ _ F Hok0).
  - pose proof (caches_ok_same st0 st1 (fetch_models_raise env _ _ _ F) Hok0) as Hok1.
    unfold models_fallback. destruct (_models_cache st1) as [c|]; [destruct (Py.truthy c)|];
      exact Hok1.
Qed.

Lemma repositories_caches_ok fr st :
  caches_ok st -> caches_ok (snd (_list_repositories env fr st)).
Proof.
  intros Hok. unfold _list_repositories.
  destruct (cache_check env fr _ _ st) as [[cached|] st0] eqn:Hcheck;
    pose proof (proj1 (cache_check_frame _ _ _ _ _ _ _ Hcheck)) as Hf;
    pose proof (caches_ok_same st st0 Hf Hok) as Hok0; [exact Hok0|].
  unfold catching. destruct (fetch_repositories env st0) as [[payload|e] st1] eqn:F.
  - exact (fetch_repositories_stores _ _ _ F Hok0).
  - pose proof (caches_ok_same st0 st1 (fetch_repositories_raise env _ _ _ F) Hok0) as Hok1.
    unfold repositories_fallback.
    destruct (_repositories_cache st1) as [c|]; [destruct (Py.truthy c)|]; exact Hok1.
Qed.

Lemma branches_body_stores url fr st payload st1 :
  branches_body env url fr st = (Ok payload, st1) -> caches_ok st -> caches_ok st1.
Proof.
  unfold branches_body. intros H Hok. step H. destruct a as [owner repo].
  apply lift_inv in E as [_ ->]. step H. unfold total in E.
  destruct (branches_cache_check env fr (cache_key owner repo) st) as [hit st2] eqn:Hcheck.
  injection E as <- <-.
  pose proof (caches_ok_same st st2 (proj1 (branches_cache_check_frame _ _ _ _ _ _ Hcheck)) Hok)
    as Hok2.
  destruct hit as [cached|]; [injection H as _ <-; exact Hok2|].
  step H. apply (github_response_stores _ _ _ _ _ _ _ H).
  exact (caches_ok_same st2 st0 (preserves_send caches caches_world env _ _ _ _ E) Hok2).
Qed.

Lemma branches_caches_ok url fr st :
  caches_ok st -> caches_ok (snd (_list_repository_branches env url fr st)).
Proof.
  intros Hok. unfold _list_repository_branches, catching.
  destruct (branches_body env url fr st) as [[payload|e] st1] eqn:B.
  - exact (branches_body_stores _ _ _ _ _ B Hok).
  - pose proof (caches_ok_same st st1 (branches_body_raise env _ _ _ _ _ B) Hok) as Hok1.
    unfold branches_fallback. destruct (_extract_repo_info url) as [[owner repo]|];
      [destruct (_branches_cache st1 !! cache_key owner repo)|]; exact Hok1.
Qed.

(** Every operation keeps the invariant. *)
Lemma run_caches_ok op st : caches_ok st -> caches_ok (run env op st).
Proof.
  intros Hok.
  destruct op as [| | |args|args|args|args|args| |fr|fr|url fr]; cbn [run].
  - apply (caches_ok_same st); [|exact Hok]. unfold initialize, _ensure_session.
    destruct (session st); reflexivity.
  - apply (caches_ok_same st); [|exact Hok]. unfold cleanup. destruct (session st); reflexivity.
  - unfold caches_ok. cbn. repeat split; discriminate.
  - exact (caches_ok_same _ _ (create_caches env args st) Hok).
  - exact (caches_ok_same _ _ (get_status_caches env args st) Hok).
  - exact (caches_ok_same _ _ (followup_caches env args st) Hok).
  - exact (caches_ok_same _ _ (stop_caches env args st) Hok).
  - exact (caches_ok_same _ _ (list_agents_caches env args st) Hok).
  - exact (caches_ok_same _ _ (usage_caches env st) Hok).
  - exact (models_caches_ok fr st Hok).
  - exact (repositories_caches_ok fr st Hok).
  - exact (branches_caches_ok url fr st Hok).
Qed.

End Invariant.

(** ** Requests that reach the network *)

Section NetworkFacts.

Variable env : environment.

Lemma one_attempt_sends r a st s v st' :
  session st = Some s -> closed s = false ->
  one_attempt env r a st = (v, st') ->
  sent st' = (sent st ++ [r])%list /\ session st' = session st.
Proof.
  intros Hs Hc. unfold one_attempt, send. rewrite Hs, Hc.
  assert (Hexc : forall e st1 res st2,
             (if is_client_error e
              then if a =? max_retries (config env) - 1
                   then (Ok (Fail (network_error env e)), st1)
                   else bind (sleep (2 ^ a)) (fun _ => ret Continue) st1
              else (Ok (Fail e), st1)) = (res, st2) ->
             sent st2 = sent st1 /\ session st2 = session st1).
  { intros e st1 res st2. destruct (is_client_error e); [destruct (a =? _)|];
      intros H; injection H as _ <-; split; reflexivity. }
  destruct (transport env (length (sent st))) as [e|resp].
  - intros H. apply Hexc in H as [H1 H2]. rewrite H1, H2. split; [reflexivity|exact Hs].
  - destruct (resp_json resp) as [data|e].
    + cbv zeta. destruct (_ || _); [|destruct (_ =? 401); [|destruct (_ =? 429)]];
        intros H; injection H as _ <-; split; (reflexivity || exact Hs).
    + intros H. apply Hexc in H as [H1 H2]. rewrite H1, H2. split; [reflexivity|exact Hs].
Qed.

Lemma attempts_send r k : forall a st s res st',
  session st = Some s -> closed s = false ->
  attempts env r (S k) a st = (res, st') ->
  (length (sent st) < length (sent st'))%nat.
Proof.
  induction k as [|k IH]; intros a st s res st' Hs Hc H; cbn [attempts] in H;
    unfold bind in H at 1;
    destruct (one_attempt env r a st) as [[v|e] st1] eqn:E;
    destruct (one_attempt_sends r a st s _ _ Hs Hc E) as [H1 H2].
  - assert (sent st' = sent st1) as ->.
    { destruct v; injection H as _ <-; reflexivity. }
    rewrite H1, length_app. simpl. lia.
  - injection H as _ <-. rewrite H1, length_app. simpl. lia.
  - destruct v as [data|e|].
    + injection H as _ <-. rewrite H1, length_app. simpl. lia.
    + injection H as _ <-. rewrite H1, length_app. simpl. lia.
    + rewrite Hs in H2. pose proof (IH _ _ s _ _ H2 Hc H) as Hlt.
      rewrite H1, length_app in Hlt. simpl in Hlt. lia.
  - injection H as _ <-. rewrite H1, length_app. simpl. lia.
Qed.

(** With a usable session and at least one attempt allowed, the executor
    sends a request. *)
Lemma request_sends method endpoint data st res st' :
  session_usable st = true -> 1 <= max_retries (config env) ->
  _make_api_request env method endpoint data st = (res, st') ->
  (length (sent st) < length (sent st'))%nat.
Proof.
  intros Hu Hmax H. destruct (ensure_usable env st Hu) as (s & Hc & He).
  unfold _make_api_request in H. rewrite (bind_step _ _ _ _ _ He) in H.
  destruct (Z.to_nat (max_retries (config env))) as [|k] eqn:Ek; [lia|].
  exact (attempts_send _ k 0 (set_session (Some s) st) s _ _ eq_refl Hc H).
Qed.

Lemma bind_sends {A B : Type} (c : M A) (k : A -> M B) st :
  (forall r st', c st = (r, st') -> (length (sent st) < length (sent st'))%nat) ->
  (forall a, preserves sent (k a)) ->
  forall r st', bind c k st = (r, st') -> (length (sent st) < length (sent st'))%nat.
Proof.
  intros Hc Hk r st' H. unfold bind in H. destruct (c st) as [[a|e] st1] eqn:E.
  - rewrite (Hk a _ _ _ H). exact (Hc _ _ eq_refl).
  - injection H as _ <-. exact (Hc _ _ eq_refl).
Qed.

Ltac keeps_sent :=
  repeat first
    [ apply preserves_ret
    | apply preserves_lift
    | apply preserves_total; reflexivity
    | apply preserves_modify; reflexivity
    | apply preserves_if
    | apply preserves_bind
    | intro
    | progress cbv zeta ].

Lemma models_refresh_sends fr st :
  _models_cache st = None -> session_usable st = true -> 1 <= max_retries (config env) ->
  (length (sent st) < length (sent (snd (_list_available_models env fr st))))%nat.
Proof.
  intros Hnone Hu Hmax. unfold _list_available_models. rewrite Hnone.
  destruct (cache_check_none env fr (_models_cache_timestamp st) st) as [st0 Hcheck].
  rewrite Hcheck. destruct (cache_check_frame _ _ _ _ _ _ _ Hcheck) as (_ & Hs & Hsent & _).
  rewrite <- Hsent. unfold catching.
  destruct (fetch_models env st0) as [r st1] eqn:F.
  assert (Hlt : (length (sent st0) < length (sent st1))%nat).
  { unfold fetch_models in F. revert F. apply bind_sends; [|keeps_sent].
    intros r' st' H. apply (request_sends _ _ _ _ _ _) in H; [exact H| |exact Hmax].
    unfold session_usable. rewrite Hs. exact Hu. }
  destruct r as [payload|e]; [exact Hlt|].
  unfold models_fallback. destruct (_models_cache st1) as [c|]; [destruct (Py.truthy c)|];
    exact Hlt.
Qed.

Lemma repositories_refresh_sends fr st :
  _repositories_cache st = None -> session_usable st = true ->
  1 <= max_retries (config env) ->
  (length (sent st) < length (sent (snd (_list_repositories env fr st))))%nat.
Proof.
  intros Hnone Hu Hmax. unfold _list_repositories. rewrite Hnone.
  destruct (cache_check_none env fr (_repositories_cache_timestamp st) st) as [st0 Hcheck].
  rewrite Hcheck. destruct (cache_check_frame _ _ _ _ _ _ _ Hcheck) as (_ & Hs & Hsent & _).
  rewrite <- Hsent. unfold catching.
  destruct (fetch_repositories env st0) as [r st1] eqn:F.
  assert (Hlt : (length (sent st0) < length (sent st1))%nat).
  { unfold fetch_repositories in F. revert F. apply bind_sends; [|keeps_sent].
    intros r' st' H. apply (request_sends _ _ _ _ _ _) in H; [exact H| |exact Hmax].
    unfold session_usable. rewrite Hs. exact Hu. }
  destruct r as [payload|e]; [exact Hlt|].
  unfold repositories_fallback.
  destruct (_repositories_cache st1) as [c|]; [destruct (Py.truthy c)|]; exact Hlt.
Qed.

Lemma github_response_keeps_sent url owner repo resp :
  preserves sent (on_github_response env url owner repo resp).
Proof. unfold on_github_response. keeps_sent. Qed.

Lemma branches_refresh_sends url owner repo fr st s :
  _extract_repo_info url = Ok (owner, repo) ->
  _branches_cache st !! cache_key owner repo = None ->
  session st = Some s -> closed s = false ->
  (length (sent st) < length (sent (snd (_list_repository_branches env url fr st))))%nat.
Proof.
  intros Hu Hnone Hs Hc.
  destruct (branches_cache_check env fr (cache_key owner repo) st) as [hit st0] eqn:Hcheck.
  destruct (branches_cache_check_frame _ _ _ _ _ _ Hcheck) as (_ & Hs0 & Hsent & _).
  assert (hit = None) as ->.
  { unfold branches_cache_check in Hcheck. destruct fr; [injection Hcheck as <- _; reflexivity|].
    destruct (_is_cache_valid env _ st) as [valid st2]. rewrite Hnone in Hcheck.
    destruct valid; injection Hcheck as <- _; reflexivity. }
  unfold _list_repository_branches, catching, branches_body, bind, lift, total.
  rewrite Hu, Hcheck. unfold send. rewrite Hs0, Hs, Hc.
  set (st1 := set_world _ _ _ st0).
  assert (Hlt : (length (sent st) < length (sent st1))%nat).
  { subst st1. cbn. rewrite Hsent, length_app. simpl. lia. }
  destruct (transport env (length (sent st0))) as [e|resp].
  - unfold branches_fallback. rewrite Hu.
    destruct (_branches_cache st1 !! cache_key owner repo); exact Hlt.
  - destruct (on_github_response env url owner repo resp st1) as [[payload|e] st2] eqn:G;
      pose proof (github_response_keeps_sent url owner repo resp _ _ _ G) as Hk.
    + cbn. rewrite Hk. exact Hlt.
    + unfold branches_fallback. rewrite Hu.
      destruct (_branches_cache st2 !! cache_key owner repo); cbn; rewrite Hk; exact Hlt.
Qed.

End NetworkFacts.

(** ** Answers that are not cached *)

Section NotCached.

Variable env : environment.

Lemma models_failure_not_cached fr st :
  is_success (fst (_list_available_models env fr st)) = false ->
  caches (snd (_list_available_models env fr st)) = caches st.
Proof.
  unfold _list_available_models.
  destruct (cache_check env fr _ _ st) as [[cached|] st0] eqn:Hcheck;
    pose proof (proj1 (cache_check_frame _ _ _ _ _ _ _ Hcheck)) as Hf; [intros _; exact Hf|].
  unfold catching. destruct (fetch_models env st0) as [[payload|e] st1] eqn:F.
  - intros H. cbn in H. rewrite (proj1 (fetch_models_ok env _ _ _ F)) in H. discriminate.
  - intros _. rewrite <- Hf, <- (fetch_models_raise env _ _ _ F).
    unfold models_fallback. destruct (_models_cache st1) as [c|]; [destruct (Py.truthy c)|];
      reflexivity.
Qed.

Lemma repositories_failure_not_cached fr st :
  is_success (fst (_list_repositories env fr st)) = false ->
  caches (snd (_list_repositories env fr st)) = caches st.
Proof.
  unfold _list_repositories.
  destruct (cache_check env fr _ _ st) as [[cached|] st0] eqn:Hcheck;
    pose proof (proj1 (cache_check_frame _ _ _ _ _ _ _ Hcheck)) as Hf; [intros _; exact Hf|].
  unfold catching. destruct (fetch_repositories env st0) as [[payload|e] st1] eqn:F.
  - intros H. cbn in H. rewrite (proj1 (fetch_repositories_ok env _ _ _ F)) in H. discriminate.
  - intros _. rewrite <- Hf, <- (fetch_repositories_raise env _ _ _ F).
    unfold repositories_fallback.
    destruct (_repositories_cache st1) as [c|]; [destruct (Py.truthy c)|]; reflexivity.
Qed.

Lemma github_response_unsuccessful url owner repo resp st0 payload st1 :
  on_github_response env url owner repo resp st0 = (Ok payload, st1) ->
  is_success payload = false -> st1 = st0.
Proof.
  intros H Hs. destruct (resp_status resp =? 200) eqn:Ecode.
  - apply Z.eqb_eq in Ecode.
    rewrite (proj1 (github_response_ok env _ _ _ _ _ _ _ Ecode H)) in Hs. discriminate.
  - unfold on_github_response in H. cbv zeta in H. rewrite Ecode in H.
    destruct (resp_status resp =? 404); [injection H as _ <-; reflexivity|].
    destruct (resp_status resp =? 401); [injection H as _ <-; reflexivity|].
    step H. apply lift_inv in E as [_ ->]. injection H as _ <-. reflexivity.
Qed.

Lemma branches_failure_not_cached url fr st :
  is_success (fst (_list_repository_branches env url fr st)) = false ->
  caches (snd (_list_repository_branches env url fr st)) = caches st.
Proof.
  unfold _list_repository_branches, catching.
  destruct (branches_body env url fr st) as [[payload|e] st1] eqn:B.
  - cbn. intros Hs. unfold branches_body in B. step B. destruct a as [owner repo].
    apply lift_inv in E as [_ ->]. step B. unfold total in E.
    destruct (branches_cache_check env fr (cache_key owner repo) st) as [hit st2] eqn:Hcheck.
    injection E as <- <-.
    pose proof (proj1 (branches_cache_check_frame _ _ _ _ _ _ Hcheck)) as Hf.
    destruct hit as [cached|]; [injection B as _ <-; exact Hf|].
    step B. rewrite (github_response_unsuccessful _ _ _ _ _ _ _ B Hs).
    rewrite <- Hf. exact (preserves_send caches caches_world env _ _ _ _ E).
  - intros _. rewrite <- (branches_body_raise env _ _ _ _ _ B).
    unfold branches_fallback. destruct (_extract_repo_info url) as [[owner repo]|];
      [destruct (_branches_cache st1 !! cache_key owner repo)|]; reflexivity.
Qed.

(** C10: the caches start empty of anything but success envelopes and
    every operation keeps them so; a call that does not answer with a
    success envelope leaves every cache attribute as it was; and, the slot
    being empty, the call after an unsuccessful one sends a request again
    (given a session that is not closed and a retry limit of at least 1). *)
Theorem cache_holds_only_successes :
  caches_ok init
  /\ (forall op st, caches_ok st -> caches_ok (run env op st))
  /\ (forall fr st,
        is_success (fst (_list_available_models env fr st)) = false ->
        caches (snd (_list_available_models env fr st)) = caches st)
  /\ (forall fr st,
        is_success (fst (_list_repositories env fr st)) = false ->
        caches (snd (_list_repositories env fr st)) = caches st)
  /\ (forall url fr st,
        is_success (fst (_list_repository_branches env url fr st)) = false ->
        caches (snd (_list_repository_branches env url fr st)) = caches st)
  /\ (forall fr fr' st,
        _models_cache st = None ->
        is_success (fst (_list_available_models env fr st)) = false ->
        let st' := snd (_list_available_models env fr st) in
        session_usable st' = true -> 1 <= max_retries (config env) ->
        _models_cache st' = None
        /\ (length (sent st') < length (sent (snd (_list_available_models env fr' st'))))%nat)
  /\ (forall fr fr' st,
        _repositories_cache st = None ->
        is_success (fst (_list_repositories env fr st)) = false ->
        let st' := snd (_list_repositories env fr st) in
        session_usable st' = true -> 1 <= max_retries (config env) ->
        _repositories_cache st' = None
        /\ (length (sent st') < length (sent (snd (_list_repositories env fr' st'))))%nat)
  /\ (forall url owner repo fr fr' st s,
        _extract_repo_info url = Ok (owner, repo) ->
        _branches_cache st !! cache_key owner repo = None ->
        is_success (fst (_list_repository_branches env url fr st)) = false ->
        let st' := snd (_list_repository_branches env url fr st) in
        session st' = Some s -> closed s = false ->
        _branches_cache st' !! cache_key owner repo = None
        /\ (length (sent st')
            < length (sent (snd (_list_repository_branches env url fr' st'))))%nat).
Proof.
  split; [exact caches_ok_init|]. split; [exact (run_caches_ok env)|].
  split; [exact models_failure_not_cached|]. split; [exact repositories_failure_not_cached|].
  split; [exact branches_failure_not_cached|]. split; [|split].
  - intros fr fr' st Hnone Hfail st' Hu Hmax.
    assert (Hn : _models_cache st' = None).
    { subst st'. rewrite (models_cache_of_caches _ _ (models_failure_not_cached fr st Hfail)).
      exact Hnone. }
    split; [exact Hn|]. exact (models_refresh_sends env fr' st' Hn Hu Hmax).
  - intros fr fr' st Hnone Hfail st' Hu Hmax.
    assert (Hn : _repositories_cache st' = None).
    { subst st'.
      rewrite (repositories_cache_of_caches _ _ (repositories_failure_not_cached fr st Hfail)).
      exact Hnone. }
    split; [exact Hn|]. exact (repositories_refresh_sends env fr' st' Hn Hu Hmax).
  - intros url owner repo fr fr' st s Hu Hnone Hfail st' Hs Hc.
    assert (Hn : _branches_cache st' !! cache_key owner repo = None).
    { subst st'.
      rewrite (branches_cache_of_caches _ _ (branches_failure_not_cached url fr st Hfail)).
      exact Hnone. }
    split; [exact Hn|]. exact (branches_refresh_sends env url owner repo fr' st' s Hu Hn Hs Hc).
Qed.

End NotCached.

(** ** Degraded answers *)

Section Degraded.

Variable env : environment.


End Degraded.

(** ** The claims at concrete inputs *)

(** C3 as stated fails for list-branches: with an entry stored for the
    repository, a forced refresh and a refresh of the expired entry that
    are answered with a 404 both return the hardcoded answer, not the
    stored payload. *)
Lemma stored_branches_not_served_on_404 :
  let env := branches_then_not_found in
  let url := "https://github.com/acme/widgets" in
  let st1 := snd (_list_repository_branches env url false (snd (initialize env init))) in
  exists stored,
    _branches_cache st1 !! "acme/widgets" = Some stored
    /\ is_success stored = true
    /\ fst (_list_repository_branches env url true st1) = branches_not_found url "acme" "widgets"
    /\ fst (_list_repository_branches env url false st1) = branches_not_found url "acme" "widgets"
    /\ branches_not_found url "acme" "widgets" <> stored.
Proof.
  eexists. split; [vm_compute; reflexivity|]. split; [reflexivity|].
  split; [vm_compute; reflexivity|]. split; [vm_compute; reflexivity|]. discriminate.
Qed.

Lemma stale_entry_on_failed_refresh_witness :
  let env := models_then_unauthorized in
  let st1 := run env (ListModels false) init in
  let url := "https://github.com/acme/widgets" in
  let st3 := run branches_then_unreadable (ListBranches url false)
               (run branches_then_unreadable Initialize init) in
  (exists cached st2,
      _models_cache st1 = Some cached
      /\ _list_available_models env true st1 = (cached, st2))
  /\ (exists e st2,
        _list_available_models always_unauthorized false init = (models_default e, st2))
  /\ (exists cached,
        _branches_cache st3 !! "acme/widgets" = Some cached
        /\ fst (_list_repository_branches branches_then_unreadable url true st3) = cached
        /\ fst (_list_repository_branches branches_then_unreadable url false st3) = cached).
Proof.
  intros env st1 url st3. split; [|split].
  - destruct (stale_entry_on_failed_refresh env) as (Hm & _).
    destruct (fetch_models env st1) as [[payload|e] st2] eqn:F; [discriminate F|].
    destruct (Hm true st1 st1 e st2) as [Hstale _].
    + exact (run_caches_ok env (ListModels false) init caches_ok_init).
    + reflexivity.
    + exact F.
    + destruct (_models_cache st1) as [cached|] eqn:E; [|discriminate E].
      exists cached, st2. split; [reflexivity|]. exact (Hstale cached eq_refl).
  - destruct (stale_entry_on_failed_refresh always_unauthorized) as (Hm & _).
    destruct (fetch_models always_unauthorized init) as [[payload|e] st2] eqn:F;
      [discriminate F|].
    destruct (Hm false init init e st2 caches_ok_init eq_refl F) as [_ Hdefault].
    exists e, st2. exact (Hdefault eq_refl).
  - destruct (stale_entry_on_failed_refresh branches_then_unreadable)
      as (_ & _ & _ & _ & Hb & _).
    assert (E : exists cached, _branches_cache st3 !! "acme/widgets" = Some cached)
      by (vm_compute; eexists; reflexivity).
    destruct E as [cached E]. exists cached. split; [exact E|].
    set (resp := {| resp_status := 500;
                    resp_json := Raise (Exn ValueError "Expecting value");
                    resp_text := Raise (Exn ClientError "Response payload is not completed") |}).
    split.
    + destruct (Hb url "acme" "widgets" true st3 st3 (new_session branches_then_unreadable)
                  resp (Exn ClientError "Response payload is not completed"))
        as [Hstale _]; try reflexivity; try (simpl; lia).
      rewrite (Hstale cached E). reflexivity.
    + destruct (Hb url "acme" "widgets" false st3 (tick st3)
                  (new_session branches_then_unreadable)
                  resp (Exn ClientError "Response payload is not completed"))
        as [Hstale _]; try reflexivity; try (simpl; lia).
      rewrite (Hstale cached E). reflexivity.
Defined.



Lemma cache_holds_only_successes_witness :
  let env := always_unauthorized in
  let st1 := snd (_list_available_models env false init) in
  caches_ok (run env (ListBranches "https://github.com/acme/widgets" true) st1)
  /\ _models_cache st1 = None
  /\ (length (sent st1) < length (sent (snd (_list_available_models env false st1))))%nat.
Proof.
  intros env st1.
  destruct (cache_holds_only_successes env) as (Hinit & Hrun & _ & _ & _ & Hm & _).
  split.
  - apply Hrun. exact (Hrun (ListModels false) init Hinit).
  - apply (Hm false false init).
    + reflexivity.
    + reflexivity.
    + reflexivity.
    + simpl. lia.
Defined.

(** ** The fallback of list-branches *)

(** C7: for a repository URL that parses, when list-branches makes its
    fetch and the secondary API responds with 404, the answer has
    success = false and the branches main, master and develop; when it
    responds with 401, the branch feature/new-feature is added. *)
Theorem branches_fallback_on_status (env : environment) (url owner repo : string)
    (fr : bool) (st st0 : state) (s : ClientSession) (resp : response) :
  _extract_repo_info url = Ok (owner, repo) ->
  branches_cache_check env fr (cache_key owner repo) st = (None, st0) ->
  session st = Some s -> closed s = false ->
  transport env (length (sent st)) = Responded resp ->
  (resp_status resp = 404 ->
   exists answer st',
     _list_repository_branches env url fr st = (answer, st')
     /\ field "success" answer = Some (JBool false)
     /\ field "branches" answer = Some (JList [JStr "main"; JStr "master"; JStr "develop"]))
  /\ (resp_status resp = 401 ->
      exists answer st',
        _list_repository_branches env url fr st = (answer, st')
        /\ field "success" answer = Some (JBool false)
        /\ field "branches" answer
           = Some (JList [JStr "main"; JStr "master"; JStr "develop";
                          JStr "feature/new-feature"])).
Proof.
  intros Hu Hcheck Hs Hc Ht.
  rewrite (branches_on_response env url owner repo fr st st0 s resp Hu Hcheck Hs Hc Ht).
  split; intros Hcode.
  - rewrite branches_on_status by (rewrite Hcode; discriminate).
    rewrite Hcode. cbn. eexists. eexists. split; [reflexivity|]. split; reflexivity.
  - rewrite branches_on_status by (rewrite Hcode; discriminate).
    rewrite Hcode. cbn. eexists. eexists. split; [reflexivity|]. split; reflexivity.
Qed.

Lemma branches_fallback_on_status_witness :
  let url := "https://github.com/acme/widgets" in
  let missing := scripted 1 (fun _ => json_reply 404 JNull) in
  let private := always_unauthorized in
  (exists answer st',
      _list_repository_branches missing url false (snd (initialize missing init)) = (answer, st')
      /\ field "success" answer = Some (JBool false)
      /\ field "branches" answer = Some (JList [JStr "main"; JStr "master"; JStr "develop"]))
  /\ (exists answer st',
        _list_repository_branches private url true (snd (initialize private init))
        = (answer, st')
        /\ field "success" answer = Some (JBool false)
        /\ field "branches" answer
           = Some (JList [JStr "main"; JStr "master"; JStr "develop";
                          JStr "feature/new-feature"])).
Proof.
  intros url missing private. split.
  - refine (proj1 (branches_fallback_on_status missing url "acme" "widgets" false
                     (snd (initialize missing init)) (snd (initialize missing init))
                     (new_session missing)
                     {| resp_status := 404; resp_json := Ok JNull; resp_text := Ok "" |}
                     _ _ _ _ _) _); reflexivity.
  - refine (proj2 (branches_fallback_on_status private url "acme" "widgets" true
                     (snd (initialize private init)) (snd (initialize private init))
                     (new_session private)
                     {| resp_status := 401; resp_json := Ok JNull; resp_text := Ok "" |}
                     _ _ _ _ _) _); reflexivity.
Defined.

(** ** The agent registry *)

Lemma reg_find_set k a l :
  Py.key_eqb k k = true -> reg_find k (reg_set k a l) = Some a.
Proof.
  intros Hk. induction l as [|[k' a'] l IH]; simpl.
  - rewrite Hk. reflexivity.
  - destruct (Py.key_eqb k k') eqn:E; simpl; rewrite E; [reflexivity|exact IH].
Qed.

Lemma reg_find_alter f k l :
  reg_find k (reg_alter f k l) = option_map f (reg_find k l).
Proof.
  induction l as [|[k' a'] l IH]; simpl; [reflexivity|].
  destruct (Py.key_eqb k k') eqn:E; simpl; rewrite E; [reflexivity|exact IH].
Qed.

Lemma dict_get_found m k d v :
  Py.dict_get m k d = v -> v <> d -> forall d', Py.dict_get m k d' = v.
Proof.
  unfold Py.dict_get. destruct (Py.lookup k m) as [x|]; intros H Hne d';
    [exact H|]. subst. contradiction.
Qed.

Section RegistryFacts.

Variable env : environment.

Lemma request_keeps_agents method endpoint data :
  preserves agents (_make_api_request env method endpoint data).
Proof. apply preserves_request; reflexivity. Qed.

(** What a successful create leaves in the registry. *)
Lemma create_registers args st0 answer st1 :
  _create_background_agent env args st0 = (answer, st1) ->
  is_success answer = true ->
  exists created,
    field "agent_id" answer = Some (agent_id created)
    /\ (Py.hashable (agent_id created) = true ->
        Py.key_eqb (agent_id created) (agent_id created) = true ->
        reg_find (agent_id created) (agents st1) = Some created)
    /\ Py.lookup "repository_url" args = Some (repository_url created)
    /\ Py.lookup "prompt" args = Some (prompt created).
Proof.
  unfold _create_background_agent, catching.
  match goal with |- context [match ?b st0 with _ => _ end] =>
    destruct (b st0) as [[r|e] st'] eqn:B end.
  2: { intros H Hs. injection H as <- _. discriminate Hs. }
  intros H _. injection H as <- <-. do 2 step B. cbv zeta in B. do 5 step B.
  injection B as <- <-.
  match type of E5 with reg_store _ ?created _ = _ => exists created end.
  split; [reflexivity|].
  apply lift_inv in E as [E _]. apply lift_inv in E0 as [E0 _].
  unfold Py.dict_getitem in E, E0.
  destruct (Py.lookup "prompt" args) as [p|]; [injection E as <-|discriminate E].
  destruct (Py.lookup "repository_url" args) as [u|]; [injection E0 as <-|discriminate E0].
  split; [|split; reflexivity].
  cbn [agent_id] in *. intros Hh Hk. unfold reg_store in E5. rewrite Hh in E5.
  injection E5 as _ <-. cbn [agents set_agents]. apply reg_find_set. exact Hk.
Qed.

(** What a successful get-status does to a record of the registry. *)
Lemma status_updates args id st1 answer st2 created :
  Py.lookup "agent_id" args = Some id -> Py.hashable id = true ->
  reg_find id (agents st1) = Some created ->
  _get_agent_status env args st1 = (answer, st2) ->
  is_success answer = true ->
  exists fields now,
    reg_find id (agents st2)
    = Some (set_status_progress (Py.dict_get fields "status" (status created))
              (Py.dict_get fields "progress" (progress created)) now created)
    /\ field "status" answer = Some (Py.dict_get fields "status" (JStr "unknown")).
Proof.
  intros Hid Hh Hfind. unfold _get_agent_status, catching.
  match goal with |- context [match ?b st1 with _ => _ end] =>
    destruct (b st1) as [[r|e] st'] eqn:B end.
  2: { intros H Hs. injection H as <- _. discriminate Hs. }
  intros H _. injection H as <- <-.
  apply bind_ok in B as (id' & sa & Eid & B).
  apply lift_inv in Eid as [Eid ->]. unfold Py.dict_getitem in Eid. rewrite Hid in Eid.
  injection Eid as <-.
  apply bind_ok in B as (response & sb & Ereq & B).
  pose proof (request_keeps_agents _ _ _ _ _ _ Ereq) as Hag.
  apply bind_ok in B as (known & sc & Eknown & B).
  unfold reg_contains in Eknown. rewrite Hh, Hag, Hfind in Eknown. injection Eknown as <- <-.
  apply bind_ok in B as (u & sd & Eupd & B). cbv iota in Eupd.
  apply bind_ok in Eupd as (fields & se & Ef & Eupd). apply lift_inv in Ef as [Ef ->].
  apply bind_ok in Eupd as (now & sf & Enow & Eupd).
  unfold total, utcnow_isoformat in Enow. injection Enow as <- <-.
  injection Eupd as _ <-.
  apply bind_ok in B as (fields2 & sg & Ef2 & B). apply lift_inv in Ef2 as [Ef2 ->].
  rewrite <- Ef in Ef2. injection Ef2 as ->. injection B as <- <-.
  exists fields, (JStr (utc_iso env (clock_reads sb))). split; [|reflexivity].
  cbn [agents set_agents tick set_world]. rewrite reg_find_alter, Hag, Hfind. reflexivity.
Qed.

(** C8: after a create that succeeded with the identifier [id], a
    get-status for [id] that succeeds and reports the status "running"
    leaves under [id] a record whose status is "running" and whose
    repository URL and prompt are the arguments of the create (as are its
    identifier, branch, model and creation time those of the record the
    create stored). *)
Theorem status_update_keeps_creation_fields (args1 args2 : list (string * json))
    (id : string) (st0 st1 st2 : state) (answer1 answer2 : json) :
  _create_background_agent env args1 st0 = (answer1, st1) ->
  is_success answer1 = true ->
  field "agent_id" answer1 = Some (JStr id) ->
  Py.lookup "agent_id" args2 = Some (JStr id) ->
  _get_agent_status env args2 st1 = (answer2, st2) ->
  is_success answer2 = true ->
  field "status" answer2 = Some (JStr "running") ->
  exists created updated,
    reg_find (JStr id) (agents st1) = Some created
    /\ reg_find (JStr id) (agents st2) = Some updated
    /\ status updated = JStr "running"
    /\ Py.lookup "repository_url" args1 = Some (repository_url updated)
    /\ Py.lookup "prompt" args1 = Some (prompt updated)
    /\ repository_url updated = repository_url created
    /\ prompt updated = prompt created
    /\ agent_id updated = agent_id created
    /\ branch updated = branch created
    /\ model updated = model created
    /\ created_at updated = created_at created.
Proof.
  intros Hcreate Hs1 Hid1 Hid2 Hstatus Hs2 Hrunning.
  destruct (create_registers args1 st0 answer1 st1 Hcreate Hs1)
    as (created & Hfield & Hfind & Hrepo & Hprompt).
  rewrite Hid1 in Hfield. injection Hfield as Hcid. rewrite <- Hcid in Hfind.
  specialize (Hfind eq_refl (String.eqb_refl id)).
  destruct (status_updates args2 (JStr id) st1 answer2 st2 created Hid2 eq_refl Hfind
              Hstatus Hs2) as (fields & now & Hupd & Hst).
  rewrite Hrunning in Hst. injection Hst as Hst. symmetry in Hst.
  exists created. eexists. split; [exact Hfind|]. split; [exact Hupd|].
  cbn. split; [|repeat split; assumption].
  apply (dict_get_found _ _ _ _ Hst). discriminate.
Qed.

End RegistryFacts.

Lemma status_update_keeps_creation_fields_witness :
  let env := created_then_running in
  let args1 := [("repository_url", JStr "https://github.com/acme/widgets");
                ("prompt", JStr "Fix the failing test")] in
  let st1 := snd (_create_background_agent env args1 init) in
  let st2 := snd (_get_agent_status env [("agent_id", JStr "a1")] st1) in
  exists created updated,
    reg_find (JStr "a1") (agents st1) = Some created
    /\ reg_find (JStr "a1") (agents st2) = Some updated
    /\ status created = JStr "CREATING"
    /\ status updated = JStr "running"
    /\ repository_url updated = JStr "https://github.com/acme/widgets"
    /\ prompt updated = JStr "Fix the failing test".
Proof.
  intros env args1 st1 st2.
  destruct (status_update_keeps_creation_fields env args1 [("agent_id", JStr "a1")] "a1"
              init st1 st2
              (fst (_create_background_agent env args1 init))
              (fst (_get_agent_status env [("agent_id", JStr "a1")] st1)))
    as (created & updated & H1 & H2 & H3 & H4 & H5 & _).
  - reflexivity.
  - reflexivity.
  - reflexivity.
  - reflexivity.
  - reflexivity.
  - reflexivity.
  - reflexivity.
  - exists created, updated. split; [exact H1|]. split; [exact H2|].
    split; [vm_compute in H1; injection H1 as <-; reflexivity|].
    split; [exact H3|].
    split; [injection H4 as <-; reflexivity|injection H5 as <-; reflexivity].
Defined.

(** * Further properties of the code *)

(** ** The executor on every kind of outcome *)

Section ExecutorOutcomes.

Variable env : environment.

Lemma one_attempt_retry r a st s :
  session st = Some s -> closed s = false ->
  retryable env a (transport env (length (sent st))) = true ->
  one_attempt env r a st = (Ok Continue, retried r a 1 st).
Proof.
  intros Hs Hc Hr. unfold one_attempt, send. rewrite Hs, Hc.
  unfold retryable in Hr.
  destruct (transport env (length (sent st))) as [e|resp].
  - apply andb_true_iff in Hr as [H1 H2]. rewrite H1.
    apply negb_true_iff in H2. rewrite H2. reflexivity.
  - destruct (resp_json resp) as [data|e].
    + cbv zeta. apply Z.eqb_eq in Hr. rewrite Hr. reflexivity.
    + apply andb_true_iff in Hr as [H1 H2]. rewrite H1.
      apply negb_true_iff in H2. rewrite H2. reflexivity.
Qed.

Lemma attempts_retry r k : forall rem a st s,
  session st = Some s -> closed s = false ->
  (forall i, (i < k)%nat ->
     retryable env (a + Z.of_nat i) (transport env (length (sent st) + i)) = true) ->
  attempts env r (k + rem) a st = attempts env r rem (a + Z.of_nat k) (retried r a k st).
Proof.
  induction k as [|k IH]; intros rem a st s Hs Hc Hall.
  - rewrite retried_zero, Z.add_0_r. reflexivity.
  - pose proof (Hall O ltac:(lia)) as H0. rewrite Nat.add_0_r, Z.add_0_r in H0.
    change (S k + rem)%nat with (S (k + rem)). cbn [attempts]. unfold bind at 1.
    rewrite (one_attempt_retry r a st s Hs Hc H0).
    rewrite (IH rem (a + 1) (retried r a 1 st) s Hs Hc).
    + rewrite retried_step. f_equal. lia.
    + intros i Hi. pose proof (Hall (S i) ltac:(lia)) as Hi'.
      unfold retried, set_world. simpl. rewrite length_app. simpl.
      replace (length (sent st) + 1 + i)%nat with (length (sent st) + S i)%nat by lia.
      replace (a + 1 + Z.of_nat i) with (a + Z.of_nat (S i)) by lia. exact Hi'.
Qed.

Lemma sent_after_retries r a k st :
  sent (sent_one r (retried r a k st)) = (sent st ++ List.repeat r (S k))%list
  /\ sleeps (sent_one r (retried r a k st)) = (sleeps st ++ backoff a k)%list.
Proof.
  split; [|reflexivity]. cbn. rewrite <- app_assoc. f_equal.
  rewrite <- repeat_cons. reflexivity.
Qed.

(** The state in which attempt number [k] is made, when the [k] attempts
    before it were all retried. *)
Lemma request_after_retries method endpoint body st k :
  session_usable st = true ->
  Z.of_nat k < max_retries (config env) ->
  (forall i, (i < k)%nat ->
     retryable env (Z.of_nat i) (transport env (length (sent st) + i)) = true) ->
  let r := {| req_method := method;
              req_url := base_url (config env) +:+ endpoint;
              req_json := body |} in
  exists s st1 rem,
    closed s = false /\ session st1 = Some s
    /\ sent st1 = sent st /\ sleeps st1 = sleeps st
    /\ _make_api_request env method endpoint body st
       = attempts env r (S rem) (Z.of_nat k) (retried r 0 k st1).
Proof.
  intros Hu Hk Hall r. destruct (ensure_usable env st Hu) as (s & Hc & He).
  assert (E : exists rem, Z.to_nat (max_retries (config env)) = (k + S rem)%nat).
  { exists (Z.to_nat (max_retries (config env)) - S k)%nat. lia. }
  destruct E as [rem E]. exists s, (set_session (Some s) st), rem.
  split; [exact Hc|]. split; [reflexivity|]. split; [reflexivity|]. split; [reflexivity|].
  unfold _make_api_request. rewrite (bind_step _ _ _ _ _ He). fold r. rewrite E.
  rewrite (attempts_retry r k _ 0 (set_session (Some s) st) s eq_refl Hc Hall).
  rewrite Z.add_0_l. reflexivity.
Qed.

(** X1: after any number of retried attempts (rate limiting or client errors,
    fewer than [max_retries]), a response that is not rate limited and
    whose body decodes decides the request at once: 200 and 201 return
    the body, 401 raises the authentication failure, any other status
    raises the API failure carrying status and body.  One request was sent
    per attempt, and the sleeps are [2^0 .. 2^(k-1)]. *)
Theorem executor_decides (method endpoint : string) (body : option json) (st : state)
    (k : nat) (resp : response) (data : json) :
  session_usable st = true ->
  Z.of_nat k < max_retries (config env) ->
  (forall i, (i < k)%nat ->
     retryable env (Z.of_nat i) (transport env (length (sent st) + i)) = true) ->
  transport env (length (sent st) + k) = Responded resp ->
  resp_json resp = Ok data ->
  resp_status resp <> 429 ->
  exists st',
    _make_api_request env method endpoint body st
    = (decided env (resp_status resp) data, st')
    /\ sleeps st' = (sleeps st ++ backoff 0 k)%list
    /\ sent st' = (sent st ++ List.repeat
                     {| req_method := method;
                        req_url := base_url (config env) +:+ endpoint;
                        req_json := body |} (S k))%list.
Proof.
  intros Hu Hk Hall Ht Hj Hcode.
  destruct (request_after_retries method endpoint body st k Hu Hk Hall)
    as (s & st1 & rem & Hc & Hs & Hsent & Hsleeps & ->).
  set (r := {| req_method := method; req_url := _; req_json := body |}).
  cbn [attempts]. unfold bind at 1.
  rewrite (one_attempt_replied env r _ (retried r 0 k st1) s resp data Hs Hc); [| |exact Hj].
  - destruct (sent_after_retries r 0 k st1) as [E1 E2]. rewrite Hsent in E1.
    rewrite Hsleeps in E2. unfold decided. cbv zeta.
    destruct (_ || _); [eexists; split; [reflexivity|]; split; assumption|].
    destruct (_ =? 401); [eexists; split; [reflexivity|]; split; assumption|].
    rewrite (proj2 (Z.eqb_neq _ _) Hcode).
    eexists; split; [reflexivity|]; split; assumption.
  - cbn. rewrite length_app, repeat_length, Hsent. exact Ht.
Qed.

(** X2: after any number of retried attempts, an exception that is not
    retried ends the request: an exception that is not a client error is
    raised as it is, and a client error on the last attempt is raised as
    the network error, with no sleep after it. *)
Theorem executor_stops_on_fault (method endpoint : string) (body : option json)
    (st : state) (k : nat) (e : exn) :
  session_usable st = true ->
  Z.of_nat k < max_retries (config env) ->
  (forall i, (i < k)%nat ->
     retryable env (Z.of_nat i) (transport env (length (sent st) + i)) = true) ->
  fault_of (transport env (length (sent st) + k)) = Some e ->
  retryable env (Z.of_nat k) (transport env (length (sent st) + k)) = false ->
  exists st',
    _make_api_request env method endpoint body st
    = (Raise (if is_client_error e then network_error env e else e), st')
    /\ (is_client_error e = true -> Z.of_nat k = max_retries (config env) - 1)
    /\ sleeps st' = (sleeps st ++ backoff 0 k)%list
    /\ sent st' = (sent st ++ List.repeat
                     {| req_method := method;
                        req_url := base_url (config env) +:+ endpoint;
                        req_json := body |} (S k))%list.
Proof.
  intros Hu Hk Hall Hf Hnr.
  destruct (request_after_retries method endpoint body st k Hu Hk Hall)
    as (s & st1 & rem & Hc & Hs & Hsent & Hsleeps & ->).
  set (r := {| req_method := method; req_url := _; req_json := body |}).
  destruct (sent_after_retries r 0 k st1) as [E1 E2]. rewrite Hsent in E1.
  rewrite Hsleeps in E2.
  assert (Hlen : length (sent (retried r 0 k st1)) = (length (sent st) + k)%nat).
  { cbn. rewrite length_app, repeat_length, Hsent. reflexivity. }
  assert (Hlast : is_client_error e = true -> (Z.of_nat k =? max_retries (config env) - 1) = true).
  { intros He. unfold retryable, fault_of in *.
    destruct (transport env (length (sent st) + k)) as [e'|resp].
    - injection Hf as ->. rewrite He in Hnr. apply negb_false_iff in Hnr. exact Hnr.
    - destruct (resp_json resp) as [d|e']; [discriminate|]. injection Hf as ->.
      rewrite He in Hnr. apply negb_false_iff in Hnr. exact Hnr. }
  assert (Hs' : session (retried r 0 k st1) = Some s) by exact Hs.
  cbn [attempts]. unfold bind at 1, one_attempt, send. rewrite Hs', Hc, Hlen.
  fold (sent_one r (retried r 0 k st1)).
  unfold fault_of in Hf.
  destruct (transport env (length (sent st) + k)) as [e'|resp].
  - injection Hf as ->. destruct (is_client_error e) eqn:He.
    + rewrite (Hlast eq_refl). eexists. split; [reflexivity|].
      split; [intros _; apply Z.eqb_eq, Hlast; reflexivity|]. split; assumption.
    + eexists. split; [reflexivity|]. split; [discriminate|]. split; assumption.
  - destruct (resp_json resp) as [d|e']; [discriminate|]. injection Hf as ->.
    destruct (is_client_error e) eqn:He.
    + rewrite (Hlast eq_refl). eexists. split; [reflexivity|].
      split; [intros _; apply Z.eqb_eq, Hlast; reflexivity|]. split; assumption.
    + eexists. split; [reflexivity|]. split; [discriminate|]. split; assumption.
Qed.

(** One pass of the loop either asks for another pass, having sent the
    request and slept, or ends the loop, having sent the request at most
    once and not slept. *)
Lemma one_attempt_effect r a st res st' :
  one_attempt env r a st = (res, st') ->
  (res = Ok Continue /\ st' = retried r a 1 st)
  \/ (exists v, res = Ok v /\ v <> Continue /\ (st' = st \/ st' = sent_one r st)).
Proof.
  unfold one_attempt, send.
  assert (Hexc : forall e st1,
             (if is_client_error e
              then if a =? max_retries (config env) - 1
                   then (Ok (Fail (network_error env e)), sent_one r st1)
                   else bind (sleep (2 ^ a)) (fun _ => ret Continue) (sent_one r st1)
              else (Ok (Fail e), sent_one r st1)) = (res, st') ->
             (res = Ok Continue /\ st' = retried r a 1 st1)
             \/ (exists v, res = Ok v /\ v <> Continue
                           /\ (st' = st1 \/ st' = sent_one r st1))).
  { intros e st1. destruct (is_client_error e); [destruct (a =? _)|]; intros H;
      injection H as <- <-;
      solve [left; split; reflexivity
            |right; eexists; split; [reflexivity|]; split; [discriminate|right; reflexivity]]. }
  destruct (session st) as [s|].
  - destruct (closed s).
    + intros H. injection H as <- <-. right. eexists. split; [reflexivity|].
      split; [discriminate|left; reflexivity].
    + fold (sent_one r st). destruct (transport env (length (sent st))) as [e|resp].
      * apply Hexc.
      * destruct (resp_json resp) as [data|e]; [|apply Hexc]. cbv zeta.
        destruct (_ || _); [|destruct (_ =? 401); [|destruct (_ =? 429)]]; intros H;
          injection H as <- <-;
          solve [left; split; reflexivity
                |right; eexists; split; [reflexivity|]; split;
                 [discriminate|right; reflexivity]].
  - intros H. injection H as <- <-. right. eexists. split; [reflexivity|].
    split; [discriminate|left; reflexivity].
Qed.

Lemma attempts_bounded r k : forall a st,
  exists n j,
    (n <= k)%nat /\ (j = n \/ S j = n)
    /\ sent (snd (attempts env r k a st)) = (sent st ++ List.repeat r n)%list
    /\ sleeps (snd (attempts env r k a st)) = (sleeps st ++ backoff a j)%list.
Proof.
  induction k as [|k IH]; intros a st.
  - exists O, O. cbn. rewrite !app_nil_r. repeat split; auto.
  - cbn [attempts]. unfold bind at 1 2.
    destruct (one_attempt env r a st) as [res st1] eqn:E.
    destruct (one_attempt_effect r a st res st1 E) as [[-> ->]|(v & -> & Hv & Hst)].
    + destruct (IH (a + 1) (retried r a 1 st)) as (n & j & Hn & Hj & H1 & H2).
      exists (S n), (S j). split; [lia|]. split; [lia|].
      rewrite H1, H2. cbn. rewrite <- !app_assoc. split; reflexivity.
    + assert (Hend : snd (match v with
                          | Return data => ret data
                          | Fail e => raise e
                          | Continue => attempts env r k (a + 1)
                          end st1) = st1).
      { destruct v; [reflexivity|reflexivity|contradiction]. }
      rewrite Hend. destruct Hst as [->| ->].
      * exists O, O. cbn. rewrite !app_nil_r. split; [lia|]. split; [left|]; auto.
      * exists 1%nat, O. cbn. rewrite !app_nil_r. split; [lia|]. split; [right|]; auto.
Qed.

(** X3: whatever the network does, the executor sends the request at most
    [max_retries] times (never, when [max_retries] is not positive), and
    it sleeps exactly [2^0, 2^1, ...], once after each attempt but possibly
    the last one made. *)
Theorem executor_bounded (method endpoint : string) (body : option json) (st : state) :
  let r := {| req_method := method;
              req_url := base_url (config env) +:+ endpoint;
              req_json := body |} in
  let st' := snd (_make_api_request env method endpoint body st) in
  exists n j,
    Z.of_nat n <= Z.max 0 (max_retries (config env))
    /\ (j = n \/ S j = n)
    /\ sent st' = (sent st ++ List.repeat r n)%list
    /\ sleeps st' = (sleeps st ++ backoff 0 j)%list.
Proof.
  intros r st'. subst st'. unfold _make_api_request, bind.
  destruct (_ensure_session env st) as [[[]|e] st1] eqn:E.
  - assert (H : sent st1 = sent st /\ sleeps st1 = sleeps st).
    { unfold _ensure_session in E. destruct (session st); injection E as <-; split; reflexivity. }
    destruct H as [H1 H2]. fold r.
    destruct (attempts_bounded r (Z.to_nat (max_retries (config env))) 0 st1)
      as (n & j & Hn & Hj & H3 & H4).
    exists n, j. rewrite H3, H4, H1, H2. split; [lia|]. repeat split; auto.
  - unfold _ensure_session in E. destruct (session st); discriminate E.
Qed.

End ExecutorOutcomes.

(** ** Properties that every operation keeps *)

Section Keeps.

Variable P : state -> Prop.

Lemma keeps_ret {A : Type} (a : A) : keeps P (ret a).
Proof. intros st r st' HP H. injection H as _ <-. exact HP. Qed.

Lemma keeps_raise {A : Type} (e : exn) : keeps P (@raise A e).
Proof. intros st r st' HP H. injection H as _ <-. exact HP. Qed.

Lemma keeps_lift {A : Type} (x : result A) : keeps P (lift x).
Proof. intros st r st' HP H. injection H as _ <-. exact HP. Qed.

Lemma keeps_bind {A B : Type} (c : M A) (k : A -> M B) :
  keeps P c -> (forall a, keeps P (k a)) -> keeps P (bind c k).
Proof.
  intros Hc Hk st r st' HP H. unfold bind in H.
  destruct (c st) as [[a|e] st1] eqn:E.
  - exact (Hk a _ _ _ (Hc _ _ _ HP E) H).
  - injection H as _ <-. exact (Hc _ _ _ HP E).
Qed.

Lemma keeps_modify (f : state -> state) :
  (forall st, P st -> P (f st)) -> keeps P (modify f).
Proof. intros Hf st r st' HP H. injection H as _ <-. exact (Hf _ HP). Qed.

Lemma keeps_total {A : Type} (c : state -> A * state) :
  (forall st, P st -> P (snd (c st))) -> keeps P (total c).
Proof.
  intros Hc st r st' HP H. unfold total in H. specialize (Hc st HP).
  destruct (c st) as [a st1]. injection H as _ <-. exact Hc.
Qed.

Lemma keeps_if {A : Type} (b : bool) (c1 c2 : M A) :
  keeps P c1 -> keeps P c2 -> keeps P (if b then c1 else c2).
Proof. destruct b; auto. Qed.

Lemma keeps_for_each {A : Type} (f : A -> M unit) (l : list A) :
  (forall a, keeps P (f a)) -> keeps P (for_each f l).
Proof.
  intros Hf. induction l as [|x l IH]; [apply keeps_ret|].
  apply keeps_bind; [apply Hf|intros _; exact IH].
Qed.

Lemma keeps_catching {A : Type} (body : M A) (handler : exn -> state -> A * state) :
  keeps P body ->
  (forall e st, P st -> P (snd (handler e st))) ->
  forall st, P st -> P (snd (catching body handler st)).
Proof.
  intros Hb Hh st HP. unfold catching. destruct (body st) as [[a|e] st1] eqn:E.
  - exact (Hb _ _ _ HP E).
  - apply Hh. exact (Hb _ _ _ HP E).
Qed.

(** What the operations do to the state, step by step: if [P] survives
    each of these steps, it survives every handler. *)
Variable env : environment.

Hypothesis P_request : forall method endpoint data,
  keeps P (_make_api_request env method endpoint data).
Hypothesis P_send : forall r, keeps P (send env r).
Hypothesis P_insert : forall k a st,
  P st -> reg_find k (agents st) = None -> P (set_agents (reg_set k a (agents st)) st).
Hypothesis P_alter : forall (new_status new_progress : BackgroundAgent -> json) now k st,
  P st ->
  P (set_agents
       (reg_alter (fun a => set_status_progress (new_status a) (new_progress a) now a)
          k (agents st)) st).
Hypothesis P_tick : forall st, P st -> P (tick st).
Hypothesis P_models : forall v t st, P st -> P (set_models_cache (Some v) (Some t) st).
Hypothesis P_repositories : forall v t st,
  P st -> P (set_repositories_cache (Some v) (Some t) st).
Hypothesis P_branches : forall key v t st,
  P st ->
  P (set_branches_cache (<[key := v]> (_branches_cache st))
       (<[key := t]> (_branches_cache_timestamp st)) st).

Lemma keeps_contains k : keeps P (reg_contains k).
Proof.
  intros st r st' HP. unfold reg_contains. destruct (Py.hashable k); intros H;
    injection H as _ <-; exact HP.
Qed.

Ltac keep_with extra :=
  repeat first
    [ extra
    | apply keeps_ret
    | apply keeps_raise
    | apply keeps_lift
    | apply P_request
    | apply P_send
    | apply keeps_contains
    | apply keeps_total; intros ? ?; apply P_tick; assumption
    | apply keeps_modify; intros ? ?;
      first [apply P_alter | apply P_models | apply P_repositories | apply P_branches];
      assumption
    | apply keeps_for_each
    | apply keeps_if
    | apply keeps_bind
    | intro
    | progress cbv zeta ].

Ltac keep := keep_with fail.

Lemma keeps_cache_check fr ts cache st :
  P st -> P (snd (cache_check env fr ts cache st)).
Proof.
  intros HP. unfold cache_check, _is_cache_valid, time_time.
  destruct fr; [exact HP|]. destruct ts; cbn; [apply P_tick|]; exact HP.
Qed.

Lemma keeps_branches_cache_check fr key st :
  P st -> P (snd (branches_cache_check env fr key st)).
Proof.
  intros HP. unfold branches_cache_check, _is_cache_valid, time_time.
  destruct fr; [exact HP|].
  destruct (_branches_cache_timestamp st !! key); cbn; [apply P_tick|]; exact HP.
Qed.

Lemma keeps_fetch_models : keeps P (fetch_models env).
Proof. unfold fetch_models. keep. Qed.

Lemma keeps_fetch_repositories : keeps P (fetch_repositories env).
Proof. unfold fetch_repositories. keep. Qed.

Lemma keeps_github_response url owner repo resp :
  keeps P (on_github_response env url owner repo resp).
Proof. unfold on_github_response. keep. Qed.

Lemma keeps_branches_body url fr : keeps P (branches_body env url fr).
Proof.
  unfold branches_body. apply keeps_bind; [apply keeps_lift|]. intros [owner repo].
  apply keeps_bind.
  - apply keeps_total. intros st HP. apply keeps_branches_cache_check. exact HP.
  - intros [cached|]; [apply keeps_ret|].
    apply keeps_bind; [apply P_send|]. intros resp. apply keeps_github_response.
Qed.

(** The loop body of list stores a record only under an identifier that
    the registry does not hold. *)
Lemma keeps_absorb_agent agent_data : keeps P (absorb_agent env agent_data).
Proof.
  unfold absorb_agent. apply keeps_bind; [apply keeps_lift|]. intros fields. cbv zeta.
  apply keeps_if; [|apply keeps_ret].
  intros st r st' HP H. unfold bind in H at 1. unfold reg_contains in H.
  destruct (Py.hashable (Py.dict_get fields "agent_id" JNull)) eqn:Hh;
    [|injection H as _ <-; exact HP].
  destruct (reg_find (Py.dict_get fields "agent_id" JNull) (agents st)) eqn:Hfind.
  - revert H. apply (keeps_bind (total (utcnow_isoformat env))); [| |exact HP].
    + apply keeps_total. intros ? ?. apply P_tick. assumption.
    + intros now. apply keeps_modify. intros ? ?. apply P_alter. assumption.
  - unfold reg_store in H. rewrite Hh in H. injection H as _ <-.
    apply P_insert; assumption.
Qed.

Lemma keeps_get_status args st : P st -> P (snd (_get_agent_status env args st)).
Proof. intros HP. unfold _get_agent_status. apply keeps_catching; [keep|auto|exact HP]. Qed.

Lemma keeps_stop args st : P st -> P (snd (_stop_background_agent env args st)).
Proof. intros HP. unfold _stop_background_agent. apply keeps_catching; [keep|auto|exact HP]. Qed.

(** Every handler keeps [P]; create needs [P] to survive the replacement
    of a record. *)
Lemma handlers_keep op st :
  op <> Initialize -> op <> Cleanup -> op <> ClearCache ->
  (forall args, op = Create args -> forall k a, keeps P (reg_store k a)) ->
  P st -> P (run env op st).
Proof.
  intros H1 H2 H3 Hcreate HP.
  destruct op as [| | |args|args|args|args|args| |fr|fr|url fr]; try contradiction;
    cbn [run].
  - specialize (Hcreate args eq_refl).
    unfold _create_background_agent.
    apply keeps_catching; [keep_with ltac:(apply Hcreate)|auto|exact HP].
  - unfold _get_agent_status. apply keeps_catching; [keep|auto|exact HP].
  - unfold _add_followup_instruction. apply keeps_catching; [keep|auto|exact HP].
  - unfold _stop_background_agent. apply keeps_catching; [keep|auto|exact HP].
  - unfold _list_background_agents. apply keeps_catching; [|auto|exact HP].
    apply keeps_bind; [apply P_request|]. intros response.
    apply keeps_bind; [apply keeps_lift|]. intros listed.
    apply keeps_bind; [apply keeps_lift|]. intros items.
    apply keeps_bind; [apply keeps_for_each; exact keeps_absorb_agent|]. keep.
  - unfold _get_api_usage. apply keeps_catching; [unfold fetch_usage; keep|auto|exact HP].
  - unfold _list_available_models.
    pose proof (keeps_cache_check fr (_models_cache_timestamp st) (_models_cache st) st HP)
      as H0.
    destruct (cache_check env fr _ _ st) as [[cached|] st0]; [exact H0|].
    apply keeps_catching; [apply keeps_fetch_models| |exact H0].
    intros e st1 HP1. unfold models_fallback.
    destruct (_models_cache st1) as [c|]; [destruct (Py.truthy c)|]; exact HP1.
  - unfold _list_repositories.
    pose proof (keeps_cache_check fr (_repositories_cache_timestamp st)
                  (_repositories_cache st) st HP) as H0.
    destruct (cache_check env fr _ _ st) as [[cached|] st0]; [exact H0|].
    apply keeps_catching; [apply keeps_fetch_repositories| |exact H0].
    intros e st1 HP1. unfold repositories_fallback.
    destruct (_repositories_cache st1) as [c|]; [destruct (Py.truthy c)|]; exact HP1.
  - unfold _list_repository_branches.
    apply keeps_catching; [apply keeps_branches_body| |exact HP].
    intros e st1 HP1. unfold branches_fallback.
    destruct (_extract_repo_info url) as [[owner repo]|];
      [destruct (_branches_cache st1 !! cache_key owner repo)|]; exact HP1.
Qed.

End Keeps.

(** ** Properties that changes to the outside world do not touch *)

Section WorldStable.

Variable P : state -> Prop.
Hypothesis P_world : forall s c z st, P st -> P (set_world s c z st).
Variable env : environment.

Lemma keeps_send_world r : keeps P (send env r).
Proof.
  intros st res st' HP. unfold send. destruct (session st) as [s|];
    [destruct (closed s)|]; try (intros H; injection H as _ <-; exact HP).
  destruct (transport env _); intros H; injection H as _ <-; apply P_world; exact HP.
Qed.

Lemma keeps_one_attempt_world r a : keeps P (one_attempt env r a).
Proof.
  intros st res st' HP H.
  destruct (one_attempt_effect env r a st res st' H) as [[_ ->]|(v & _ & _ & [->| ->])];
    [apply P_world|idtac|apply P_world]; exact HP.
Qed.

Lemma keeps_attempts_world r k : forall a, keeps P (attempts env r k a).
Proof.
  induction k as [|k IH]; intros a; cbn [attempts]; [apply keeps_raise|].
  apply keeps_bind; [apply keeps_one_attempt_world|].
  intros [data|e|]; [apply keeps_ret|apply keeps_raise|apply IH].
Qed.

Lemma keeps_request_world method endpoint data :
  keeps P (_ensure_session env) -> keeps P (_make_api_request env method endpoint data).
Proof.
  intros He. unfold _make_api_request. apply keeps_bind; [exact He|].
  intros _. apply keeps_attempts_world.
Qed.

End WorldStable.

(** ** The session through the operations *)

Section SessionLifecycle.

Variable env : environment.

Lemma ensure_keeps_session s : keeps (fun st => session st = Some s) (_ensure_session env).
Proof.
  intros st r st' HP. unfold _ensure_session. rewrite HP. intros H.
  injection H as _ <-. exact HP.
Qed.

(** X4: once the session exists, no operation replaces or drops it: cleanup
    closes it, every other operation leaves it as it is.  So a closed
    session stays closed whatever is called afterwards. *)
Theorem session_only_changed_by_cleanup (op : operation) (st : state) (s : ClientSession) :
  session st = Some s ->
  session (run env op st) = Some (match op with Cleanup => close s | _ => s end).
Proof.
  intros Hs.
  assert (Hgen : forall op', op' <> Initialize -> op' <> Cleanup -> op' <> ClearCache ->
                 session (run env op' st) = Some s).
  { intros op' H1 H2 H3.
    apply (handlers_keep (fun st => session st = Some s) env); try assumption.
    - intros. apply keeps_request_world; [intros; assumption|apply ensure_keeps_session].
    - intros. apply keeps_send_world. intros; assumption.
    - intros k a st0 HP _. exact HP.
    - intros ? ? ? ? st0 HP. exact HP.
    - intros st0 HP. exact HP.
    - intros ? ? st0 HP. exact HP.
    - intros ? ? st0 HP. exact HP.
    - intros ? ? ? st0 HP. exact HP.
    - intros args _ k a st0 r st' HP. unfold reg_store. destruct (Py.hashable k); intros H;
        injection H as _ <-; exact HP. }
  destruct op as [| | |args|args|args|args|args| |fr|fr|url fr];
    try (apply Hgen; discriminate).
  - cbn. unfold initialize, _ensure_session. rewrite Hs. exact Hs.
  - cbn. unfold cleanup. rewrite Hs. reflexivity.
  - exact Hs.
Qed.

End SessionLifecycle.

(** ** After the session was closed *)

Section ClosedSession.

Variable env : environment.

Lemma request_closed method endpoint data st s :
  session st = Some s -> closed s = true ->
  exists e, _make_api_request env method endpoint data st = (Raise e, st).
Proof.
  intros Hs Hc. unfold _make_api_request.
  rewrite (bind_step _ _ _ _ _ (ensure_again env st s Hs)).
  destruct (Z.to_nat (max_retries (config env))) as [|k].
  - exists (retries_exhausted env). reflexivity.
  - exists (Exn RuntimeError "Session is closed"). cbn [attempts].
    unfold bind, one_attempt. rewrite (send_closed env _ st s Hs Hc). reflexivity.
Qed.

(** X5: over a closed session no operation sends a request or sleeps. *)
Theorem closed_session_sends_nothing (op : operation) (st : state) (s : ClientSession) :
  session st = Some s -> closed s = true ->
  sent (run env op st) = sent st /\ sleeps (run env op st) = sleeps st.
Proof.
  intros Hs Hc.
  set (P := fun st' => session st' = Some s /\ sent st' = sent st /\ sleeps st' = sleeps st).
  assert (HP0 : P st) by (repeat split; assumption).
  assert (Hgen : forall op', op' <> Initialize -> op' <> Cleanup -> op' <> ClearCache ->
                 P (run env op' st)).
  { intros op' H1 H2 H3.
    apply (handlers_keep P env); try assumption.
    - intros method endpoint data st0 r st' HP H.
      destruct (request_closed method endpoint data st0 s (proj1 HP) Hc) as [e He].
      rewrite He in H. injection H as _ <-. exact HP.
    - intros r st0 res st' HP H. rewrite (send_closed env r st0 s (proj1 HP) Hc) in H.
      injection H as _ <-. exact HP.
    - intros k a st0 HP _. exact HP.
    - intros ? ? ? ? st0 HP. exact HP.
    - intros st0 HP. exact HP.
    - intros ? ? st0 HP. exact HP.
    - intros ? ? st0 HP. exact HP.
    - intros ? ? ? st0 HP. exact HP.
    - intros args _ k a st0 r st' HP. unfold reg_store. destruct (Py.hashable k); intros H;
        injection H as _ <-; exact HP. }
  destruct op as [| | |args|args|args|args|args| |fr|fr|url fr];
    try (apply Hgen; discriminate).
  - cbn. unfold initialize, _ensure_session. rewrite Hs. split; reflexivity.
  - cbn. unfold cleanup. rewrite Hs. split; reflexivity.
  - split; reflexivity.
Qed.

End ClosedSession.

(** ** Records of the registry through the operations *)

Lemma reg_set_keeps_present k k' x l :
  reg_find k l <> None -> reg_find k (reg_set k' x l) <> None.
Proof.
  induction l as [|[k'' a''] l IH]; simpl; [contradiction|].
  destruct (Py.key_eqb k' k''); simpl; destruct (Py.key_eqb k k''); auto; discriminate.
Qed.

Lemma reg_set_absent k k' x l :
  reg_find k' l = None -> reg_find k l <> None ->
  reg_find k (reg_set k' x l) = reg_find k l.
Proof.
  induction l as [|[k'' a''] l IH]; simpl; [contradiction|].
  destruct (Py.key_eqb k' k''); [discriminate|]. simpl.
  destruct (Py.key_eqb k k''); auto.
Qed.

Lemma reg_alter_found f k k' l a :
  reg_find k l = Some a ->
  reg_find k (reg_alter f k' l) = Some a \/ reg_find k (reg_alter f k' l) = Some (f a).
Proof.
  induction l as [|[k'' a''] l IH]; simpl; [discriminate|].
  destruct (Py.key_eqb k' k'') eqn:E1; simpl; destruct (Py.key_eqb k k'') eqn:E2;
    intros H; auto.
  injection H as ->. auto.
Qed.

Section RegistryLifecycle.

Variable env : environment.

(** X6: no operation removes a record from the registry. *)
Theorem registry_never_forgets (op : operation) (st : state) (k : json) :
  reg_find k (agents st) <> None -> reg_find k (agents (run env op st)) <> None.
Proof.
  intros Hk.
  destruct op as [| | |args|args|args|args|args| |fr|fr|url fr] eqn:Eop;
    try (rewrite <- Eop;
         apply (handlers_keep (fun st => reg_find k (agents st) <> None) env);
         [ intros; apply keeps_request_world; [intros; assumption|];
           intros st0 r st' HP H; unfold _ensure_session in H;
           destruct (session st0); injection H as _ <-; exact HP
         | intros; apply keeps_send_world; intros; assumption
         | intros k' a st0 HP _; apply reg_set_keeps_present; exact HP
         | intros fs fp now k' st0 HP; cbn;
           destruct (reg_find k (agents st0)) as [a|] eqn:E; [|contradiction];
           destruct (reg_alter_found
                       (fun a => set_status_progress (fs a) (fp a) now a) k k' _ a E)
             as [-> | ->]; discriminate
         | intros st0 HP; exact HP
         | intros ? ? st0 HP; exact HP
         | intros ? ? st0 HP; exact HP
         | intros ? ? ? st0 HP; exact HP
         | subst op; discriminate
         | subst op; discriminate
         | subst op; discriminate
         | intros args0 _ k' a st0 r st' HP; unfold reg_store;
           destruct (Py.hashable k'); intros H; injection H as _ <-;
           [apply reg_set_keeps_present|]; exact HP
         | exact Hk ]).
  - cbn. unfold initialize, _ensure_session. destruct (session st); exact Hk.
  - cbn. unfold cleanup. destruct (session st); exact Hk.
  - exact Hk.
Qed.

(** X7: apart from create, which stores a new record under the identifier
    the API returns, no operation changes the identifier, repository URL,
    prompt, branch, model or creation time of a registered record. *)
Theorem creation_fields_fixed (op : operation) (st : state) (k : json) (a : BackgroundAgent) :
  (forall args, op <> Create args) ->
  reg_find k (agents st) = Some a ->
  exists a', reg_find k (agents (run env op st)) = Some a'
             /\ creation_fields a' = creation_fields a.
Proof.
  intros Hop Hk.
  set (P := fun st' => exists a', reg_find k (agents st') = Some a'
                                 /\ creation_fields a' = creation_fields a).
  assert (HP0 : P st) by (exists a; split; [exact Hk|reflexivity]).
  destruct op as [| | |args|args|args|args|args| |fr|fr|url fr] eqn:Eop;
    try (rewrite <- Eop;
         apply (handlers_keep P env);
         [ intros; apply keeps_request_world; [intros; assumption|];
           intros st0 r st' HP H; unfold _ensure_session in H;
           destruct (session st0); injection H as _ <-; exact HP
         | intros; apply keeps_send_world; intros; assumption
         | intros k' x st0 (a' & Ha' & Hc) Hnone; exists a'; split; [|exact Hc];
           cbn [agents set_agents]; rewrite reg_set_absent;
           [exact Ha'|exact Hnone|rewrite Ha'; discriminate]
         | intros fs fp now k' st0 (a' & Ha' & Hc);
           destruct (reg_alter_found
                       (fun a => set_status_progress (fs a) (fp a) now a) k k' _ a' Ha')
             as [E|E]; eexists; (split; [exact E|exact Hc])
         | intros st0 HP; exact HP
         | intros ? ? st0 HP; exact HP
         | intros ? ? st0 HP; exact HP
         | intros ? ? ? st0 HP; exact HP
         | subst op; discriminate
         | subst op; discriminate
         | subst op; discriminate
         | subst op; intros args0 E; exfalso; exact (Hop args0 E)
         | exact HP0 ]).
  - cbn. unfold initialize, _ensure_session. destruct (session st); exact HP0.
  - cbn. unfold cleanup. destruct (session st); exact HP0.
  - exact HP0.
Qed.

End RegistryLifecycle.

(** ** What failed and successful calls do to the registry *)

Section RegistryEffects.

Variable env : environment.

Lemma agents_world s c z st : agents (set_world s c z st) = agents st.
Proof. reflexivity. Qed.

Lemma agents_session v st : agents (set_session v st) = agents st.
Proof. reflexivity. Qed.

Lemma request_agents method endpoint data :
  preserves agents (_make_api_request env method endpoint data).
Proof. apply preserves_request; reflexivity. Qed.

Lemma reg_contains_agents k : preserves agents (reg_contains k).
Proof.
  intros st r st'. unfold reg_contains. destruct (Py.hashable k); intros H;
    injection H as _ <-; reflexivity.
Qed.

Lemma followup_agents args st :
  agents (snd (_add_followup_instruction env args st)) = agents st.
Proof.
  unfold _add_followup_instruction.
  apply (catching_preserves agents); [|reflexivity].
  apply preserves_bind; [apply preserves_lift|]. intros id.
  apply preserves_bind; [apply preserves_lift|]. intros instruction. cbv zeta.
  apply preserves_bind; [apply request_agents|]. intros response.
  apply preserves_bind; [apply preserves_lift|]. intros status. apply preserves_ret.
Qed.

(** X8: a create, get-status or stop that does not answer with a success
    envelope leaves the registry as it was, and follow-up never changes
    it. *)
Theorem failure_leaves_registry (args : list (string * json)) (st : state) :
  (is_success (fst (_create_background_agent env args st)) = false ->
   agents (snd (_create_background_agent env args st)) = agents st)
  /\ (is_success (fst (_get_agent_status env args st)) = false ->
      agents (snd (_get_agent_status env args st)) = agents st)
  /\ (is_success (fst (_stop_background_agent env args st)) = false ->
      agents (snd (_stop_background_agent env args st)) = agents st)
  /\ agents (snd (_add_followup_instruction env args st)) = agents st.
Proof.
  split; [|split; [|split]].
  - unfold _create_background_agent, catching.
    match goal with |- context [match ?b st with _ => _ end] =>
      destruct (b st) as [[r|e] st'] eqn:B end.
    + intros H. exfalso. do 2 step B. cbv zeta in B. do 5 step B.
      injection B as <- _. discriminate H.
    + intros _. cbn [snd]. revert B.
      apply (on_raise_bind agents); [apply preserves_lift|]. intros text.
      apply (on_raise_bind agents); [apply preserves_lift|]. intros repository. cbv zeta.
      apply (on_raise_bind agents); [apply request_agents|]. intros response.
      apply (on_raise_bind agents); [apply preserves_lift|]. intros fields.
      apply (on_raise_bind agents); [apply preserves_total; reflexivity|]. intros stamp.
      apply (on_raise_bind agents); [apply preserves_total; reflexivity|]. intros now.
      intros st0 e0 st1. unfold bind, reg_store. destruct (Py.hashable _); intros H;
        [discriminate H|injection H as _ <-; reflexivity].
  - unfold _get_agent_status, catching.
    match goal with |- context [match ?b st with _ => _ end] =>
      destruct (b st) as [[r|e] st'] eqn:B end.
    + intros H. exfalso. do 5 step B. injection B as <- _. discriminate H.
    + intros _. cbn [snd]. revert B.
      apply (on_raise_bind agents); [apply preserves_lift|]. intros id.
      apply (on_raise_bind agents); [apply request_agents|]. intros response.
      apply (on_raise_bind agents); [apply reg_contains_agents|]. intros known.
      intros st0 e0 st1. unfold bind, lift, total, modify, ret.
      destruct known; destruct (Py.get_method response); cbn; intros H;
        solve [discriminate H|injection H as _ <-; reflexivity].
  - unfold _stop_background_agent, catching.
    match goal with |- context [match ?b st with _ => _ end] =>
      destruct (b st) as [[r|e] st'] eqn:B end.
    + intros H. exfalso. do 4 step B. injection B as <- _. discriminate H.
    + intros _. cbn [snd]. revert B.
      apply (on_raise_bind agents); [apply preserves_lift|]. intros id.
      apply (on_raise_bind agents); [apply request_agents|]. intros response.
      apply (on_raise_bind agents); [apply reg_contains_agents|]. intros known.
      intros st0 e0 st1. unfold bind, total, modify, ret.
      destruct known; cbn; intros H; discriminate H.
  - apply followup_agents.
Qed.

Ltac keeps_agents :=
  repeat first
    [ apply preserves_ret
    | apply preserves_raise
    | apply preserves_lift
    | apply request_agents
    | apply preserves_send; reflexivity
    | apply preserves_total; reflexivity
    | apply preserves_modify; reflexivity
    | apply preserves_if
    | apply preserves_bind
    | intro
    | progress cbv zeta ].

Lemma usage_agents st : agents (snd (_get_api_usage env st)) = agents st.
Proof.
  unfold _get_api_usage. apply (catching_preserves agents); [|reflexivity].
  unfold fetch_usage. keeps_agents.
Qed.

Lemma models_agents fr st : agents (snd (_list_available_models env fr st)) = agents st.
Proof.
  unfold _list_available_models.
  destruct (cache_check env fr _ _ st) as [[cached|] st0] eqn:Hcheck;
    destruct (cache_check_frame _ _ _ _ _ _ _ Hcheck) as (_ & _ & _ & Ha & _);
    [exact Ha|]. rewrite <- Ha.
  apply (catching_preserves agents); [unfold fetch_models; keeps_agents|].
  intros e st1. unfold models_fallback.
  destruct (_models_cache st1) as [c|]; [destruct (Py.truthy c)|]; reflexivity.
Qed.

Lemma repositories_agents fr st : agents (snd (_list_repositories env fr st)) = agents st.
Proof.
  unfold _list_repositories.
  destruct (cache_check env fr _ _ st) as [[cached|] st0] eqn:Hcheck;
    destruct (cache_check_frame _ _ _ _ _ _ _ Hcheck) as (_ & _ & _ & Ha & _);
    [exact Ha|]. rewrite <- Ha.
  apply (catching_preserves agents); [unfold fetch_repositories; keeps_agents|].
  intros e st1. unfold repositories_fallback.
  destruct (_repositories_cache st1) as [c|]; [destruct (Py.truthy c)|]; reflexivity.
Qed.

Lemma branches_agents url fr st :
  agents (snd (_list_repository_branches env url fr st)) = agents st.
Proof.
  unfold _list_repository_branches. apply (catching_preserves agents).
  - unfold branches_body. apply preserves_bind; [apply preserves_lift|].
    intros [owner repo]. apply preserves_bind.
    + intros st0 r st1 H. unfold total in H.
      destruct (branches_cache_check env fr (cache_key owner repo) st0) as [hit st2] eqn:E.
      injection H as _ <-.
      exact (proj1 (proj2 (proj2 (proj2 (branches_cache_check_frame _ _ _ _ _ _ E))))).
    + intros [cached|]; [apply preserves_ret|].
      apply preserves_bind; [apply preserves_send; reflexivity|]. intros resp.
      unfold on_github_response. keeps_agents.
  - intros e st1. unfold branches_fallback.
    destruct (_extract_repo_info url) as [[owner repo]|];
      [destruct (_branches_cache st1 !! cache_key owner repo)|]; reflexivity.
Qed.

(** X9: initialize, cleanup, clear-cache, follow-up, usage and the three
    cached lists never change the registry, whatever their outcome. *)
Theorem registry_untouched (op : operation) (st : state) :
  writes_registry op = false -> agents (run env op st) = agents st.
Proof.
  destruct op as [| | |args|args|args|args|args| |fr|fr|url fr]; try discriminate;
    intros _; cbn [run].
  - unfold initialize, _ensure_session. destruct (session st); reflexivity.
  - unfold cleanup. destruct (session st); reflexivity.
  - reflexivity.
  - apply followup_agents.
  - apply usage_agents.
  - apply models_agents.
  - apply repositories_agents.
  - apply branches_agents.
Qed.

Lemma reg_alter_none f k k' l :
  reg_find k l = None -> reg_find k (reg_alter f k' l) = None.
Proof.
  induction l as [|[k'' a''] l IH]; simpl; [reflexivity|].
  destruct (Py.key_eqb k' k''); simpl; destruct (Py.key_eqb k k''); intros H;
    solve [discriminate H|auto].
Qed.

(** X10: records are added by create and by list only: under any other
    operation, an identifier that has no record gets none. *)
Theorem records_added_only_by_create_and_list (op : operation) (st : state) (k : json) :
  (forall args, op <> Create args) -> (forall args, op <> ListAgents args) ->
  reg_find k (agents st) = None -> reg_find k (agents (run env op st)) = None.
Proof.
  intros Hcreate Hlist Hk.
  assert (Hreq : forall method endpoint data,
             keeps (fun st => reg_find k (agents st) = None)
               (_make_api_request env method endpoint data)).
  { intros. apply keeps_request_world; [intros; assumption|].
    intros st0 r st' HP H. unfold _ensure_session in H.
    destruct (session st0); injection H as _ <-; exact HP. }
  assert (Halter : forall (fs fp : BackgroundAgent -> json) now k' st0,
             reg_find k (agents st0) = None ->
             reg_find k
               (agents (set_agents
                          (reg_alter (fun a => set_status_progress (fs a) (fp a) now a)
                             k' (agents st0)) st0)) = None).
  { intros fs fp now k' st0 HP. cbn [agents set_agents]. apply reg_alter_none. exact HP. }
  destruct op as [| | |args|args|args|args|args| |fr|fr|url fr]; cbn [run].
  - unfold initialize, _ensure_session. destruct (session st); exact Hk.
  - unfold cleanup. destruct (session st); exact Hk.
  - exact Hk.
  - exfalso. exact (Hcreate args eq_refl).
  - apply (keeps_get_status (fun st => reg_find k (agents st) = None) env Hreq Halter);
      [intros st0 HP; exact HP|exact Hk].
  - rewrite followup_agents. exact Hk.
  - apply (keeps_stop (fun st => reg_find k (agents st) = None) env Hreq Halter);
      [intros st0 HP; exact HP|exact Hk].
  - exfalso. exact (Hlist args eq_refl).
  - rewrite usage_agents. exact Hk.
  - rewrite models_agents. exact Hk.
  - rewrite repositories_agents. exact Hk.
  - rewrite branches_agents. exact Hk.
Qed.

End RegistryEffects.

(** ** Stop, and calls without their required arguments *)

Section StopAndValidation.

Variable env : environment.


(** X12: a call that lacks a required argument is answered with a failure
    envelope, and nothing happens: no request is sent and the state is
    unchanged. *)
Theorem missing_argument_rejected (args : list (string * json)) (st : state) :
  (Py.lookup "prompt" args = None \/ Py.lookup "repository_url" args = None ->
   is_success (fst (_create_background_agent env args st)) = false
   /\ snd (_create_background_agent env args st) = st)
  /\ (Py.lookup "agent_id" args = None ->
      (is_success (fst (_get_agent_status env args st)) = false
       /\ snd (_get_agent_status env args st) = st)
      /\ (is_success (fst (_stop_background_agent env args st)) = false
          /\ snd (_stop_background_agent env args st) = st)
      /\ (is_success (fst (_add_followup_instruction env args st)) = false
          /\ snd (_add_followup_instruction env args st) = st))
  /\ (Py.lookup "instruction" args = None ->
      is_success (fst (_add_followup_instruction env args st)) = false
      /\ snd (_add_followup_instruction env args st) = st).
Proof.
  split; [|split].
  - intros H. unfold _create_background_agent, catching, bind, lift, Py.dict_getitem.
    destruct (Py.lookup "prompt" args) as [p|]; [|split; reflexivity].
    destruct H as [H|H]; [discriminate H|]. rewrite H. split; reflexivity.
  - intros H.
    unfold _get_agent_status, _stop_background_agent, _add_followup_instruction,
      catching, bind, lift, Py.dict_getitem.
    rewrite H. repeat split.
  - intros H. unfold _add_followup_instruction, catching, bind, lift, Py.dict_getitem.
    destruct (Py.lookup "agent_id" args) as [i|]; [|split; reflexivity].
    rewrite H. split; reflexivity.
Qed.

End StopAndValidation.

(** ** The list operation and the registry *)

Lemma key_eqb_refl k : Py.hashable k = true -> Py.key_eqb k k = true.
Proof.
  destruct k as [|b|z|s|l|m]; try discriminate; intros _; cbn.
  - reflexivity.
  - destruct b; reflexivity.
  - apply Z.eqb_refl.
  - apply String.eqb_refl.
Qed.

Section ListFacts.

Variable env : environment.

(** Absorbing a listed agent that carries an identifier either raises
    (the identifier cannot be a key) or leaves a record under it. *)
Lemma absorb_registers fields st res st' :
  absorb_agent env (JObj fields) st = (res, st') ->
  Py.truthy (Py.dict_get fields "agent_id" JNull) = true ->
  (Py.hashable (Py.dict_get fields "agent_id" JNull) = true
   /\ res = Ok tt
   /\ reg_find (Py.dict_get fields "agent_id" JNull) (agents st') <> None)
  \/ (Py.hashable (Py.dict_get fields "agent_id" JNull) = false
      /\ res = Raise unhashable /\ st' = st).
Proof.
  intros H Ht. unfold absorb_agent, bind, lift in H. cbn [Py.get_method] in H.
  rewrite Ht in H. unfold reg_contains, reg_store in H.
  destruct (Py.hashable (Py.dict_get fields "agent_id" JNull)) eqn:Hh.
  - left. split; [reflexivity|].
    destruct (reg_find (Py.dict_get fields "agent_id" JNull) (agents st)) as [a|] eqn:Hf.
    + unfold total, utcnow_isoformat, modify in H. injection H as <- <-.
      split; [reflexivity|]. cbn [agents set_agents tick set_world].
      rewrite reg_find_alter, Hf. discriminate.
    + injection H as <- <-. split; [reflexivity|].
      cbn [agents set_agents]. rewrite reg_find_set; [discriminate|].
      apply key_eqb_refl. exact Hh.
  - right. injection H as <- <-. repeat split.
Qed.

Lemma absorb_keeps_present k agent_data :
  keeps (fun st => reg_find k (agents st) <> None) (absorb_agent env agent_data).
Proof.
  apply keeps_absorb_agent.
  - intros k' a st HP _. apply reg_set_keeps_present. exact HP.
  - intros fs fp now k' st HP. cbn.
    destruct (reg_find k (agents st)) as [a|] eqn:E; [|contradiction].
    destruct (reg_alter_found (fun a => set_status_progress (fs a) (fp a) now a) k k' _ a E)
      as [-> | ->]; discriminate.
  - intros st HP. exact HP.
Qed.

Lemma for_each_registers items : forall st st' fields,
  for_each (absorb_agent env) items st = (Ok tt, st') ->
  In (JObj fields) items ->
  Py.truthy (Py.dict_get fields "agent_id" JNull) = true ->
  reg_find (Py.dict_get fields "agent_id" JNull) (agents st') <> None.
Proof.
  induction items as [|item items IH]; intros st st' fields H Hin Ht; [contradiction|].
  cbn [for_each] in H. apply bind_ok in H as ([] & st1 & E & H).
  destruct Hin as [->|Hin].
  - destruct (absorb_registers fields st _ st1 E Ht) as [(_ & _ & Hp)|(_ & Hr & _)];
      [|discriminate Hr].
    revert H. apply (keeps_for_each _ _ items (absorb_keeps_present _)). exact Hp.
  - exact (IH st1 st' fields H Hin Ht).
Qed.

Lemma for_each_ignores items : forall st,
  (forall fields, In (JObj fields) items ->
     Py.truthy (Py.dict_get fields "agent_id" JNull) = false) ->
  (forall item, In item items -> exists fields, item = JObj fields) ->
  for_each (absorb_agent env) items st = (Ok tt, st).
Proof.
  induction items as [|item items IH]; intros st Hf Hobj; [reflexivity|].
  destruct (Hobj item (or_introl eq_refl)) as [fields ->].
  cbn [for_each]. unfold bind at 1. unfold absorb_agent at 1. unfold bind, lift.
  cbn [Py.get_method]. rewrite (Hf fields (or_introl eq_refl)). cbn [ret].
  apply IH; intros; [apply Hf|apply Hobj]; right; assumption.
Qed.

(** The loop gets through objects only. *)
Lemma for_each_objects items : forall st st',
  for_each (absorb_agent env) items st = (Ok tt, st') ->
  forall item, In item items -> exists fields, item = JObj fields.
Proof.
  induction items as [|item items IH]; intros st st' Hfor x Hin; [contradiction|].
  cbn [for_each] in Hfor. apply bind_ok in Hfor as ([] & st3 & E & Hfor).
  destruct Hin as [<-|Hin]; [|exact (IH st3 st' Hfor x Hin)].
  unfold absorb_agent, bind, lift in E.
  destruct item as [| | | | |m]; try discriminate E. eauto.
Qed.

(** What a successful list has gone through. *)
Lemma list_succeeded args st answer st' :
  _list_background_agents env args st = (answer, st') ->
  is_success answer = true ->
  exists listed items st1 st2,
    field "agents" answer = Some listed
    /\ Py.iter listed = Ok items
    /\ agents st1 = agents st
    /\ for_each (absorb_agent env) items st1 = (Ok tt, st2)
    /\ agents st' = agents st2.
Proof.
  unfold _list_background_agents, catching. cbv zeta.
  match goal with |- context [match ?b st with _ => _ end] =>
    destruct (b st) as [[r|e] st0] eqn:B end.
  2: { intros H Hs. injection H as <- _. discriminate Hs. }
  intros H _. injection H as <- <-.
  apply bind_ok in B as (response & sa & Ereq & B).
  apply bind_ok in B as (listed & sb & El & B). apply lift_inv in El as [El ->].
  apply bind_ok in B as (items & sc & Ei & B). apply lift_inv in Ei as [Ei ->].
  apply bind_ok in B as ([] & sd & Ef & B).
  apply bind_ok in B as (n & se & En & B). apply lift_inv in En as [En ->].
  injection B as <- <-. exists listed, items, sa, sd.
  split; [reflexivity|]. split; [symmetry; exact Ei|].
  split; [exact (preserves_request agents (fun _ _ _ _ => eq_refl) (fun _ _ => eq_refl)
                   env _ _ _ _ _ _ Ereq)|].
  split; [exact Ef|reflexivity].
Qed.

(** X13: after a list that succeeded, every listed agent that carries a
    truthy "agent_id" has a record in the registry. *)
Theorem list_registers_listed (args : list (string * json)) (st st' : state)
    (answer : json) (items : list json) (fields : list (string * json)) :
  _list_background_agents env args st = (answer, st') ->
  is_success answer = true ->
  field "agents" answer = Some (JList items) ->
  In (JObj fields) items ->
  Py.truthy (Py.dict_get fields "agent_id" JNull) = true ->
  reg_find (Py.dict_get fields "agent_id" JNull) (agents st') <> None.
Proof.
  intros H Hs Hf Hin Ht.
  destruct (list_succeeded args st answer st' H Hs)
    as (listed & items' & st1 & st2 & Hl & Hi & _ & Hfor & Hag).
  rewrite Hf in Hl. injection Hl as <-. cbn in Hi. injection Hi as <-.
  rewrite Hag. exact (for_each_registers items st1 st2 fields Hfor Hin Ht).
Qed.

(** X14: the loop reads the identifier under "agent_id": a successful list
    whose agents carry none there (for instance only the "id" that create
    reads) leaves the registry as it was. *)
Theorem list_ignores_unkeyed (args : list (string * json)) (st st' : state)
    (answer : json) (items : list json) :
  _list_background_agents env args st = (answer, st') ->
  is_success answer = true ->
  field "agents" answer = Some (JList items) ->
  (forall fields, In (JObj fields) items ->
     Py.truthy (Py.dict_get fields "agent_id" JNull) = false) ->
  agents st' = agents st.
Proof.
  intros H Hs Hf Hun.
  destruct (list_succeeded args st answer st' H Hs)
    as (listed & items' & st1 & st2 & Hl & Hi & Hag1 & Hfor & Hag2).
  rewrite Hf in Hl. injection Hl as <-. cbn in Hi. injection Hi as <-.
  pose proof (for_each_objects items st1 st2 Hfor) as Hobj.
  rewrite (for_each_ignores items st1 Hun Hobj) in Hfor. injection Hfor as <-.
  rewrite Hag2. exact Hag1.
Qed.

(** A request that the API answers with a 200 at once. *)
Lemma request_answered method endpoint body st data :
  session_usable st = true -> 1 <= max_retries (config env) ->
  replies (transport env (length (sent st))) 200 data ->
  exists st1,
    _make_api_request env method endpoint body st = (Ok data, st1)
    /\ agents st1 = agents st /\ caches st1 = caches st.
Proof.
  intros Hu Hmax Hr.
  destruct (replies_inv _ _ _ Hr) as (resp & Ht & Hcode & Hjson).
  destruct (request_after_retries env method endpoint body st O Hu ltac:(cbn; lia)
              ltac:(intros i Hi; lia)) as (s & st0 & rem & Hc & Hs & Hsent & _ & E).
  set (r := {| req_method := method; req_url := _; req_json := body |}) in *.
  assert (Hres : exists st1, _make_api_request env method endpoint body st = (Ok data, st1)).
  { rewrite E. cbn [attempts]. unfold bind at 1.
    assert (E0 : retried r 0 0 st0 = st0) by apply retried_zero. rewrite E0.
    assert (Ht0 : transport env (length (sent st0)) = Responded resp)
      by (rewrite Hsent; exact Ht).
    rewrite (one_attempt_replied env r _ st0 s resp data Hs Hc Ht0 Hjson), Hcode.
    cbn. eexists. reflexivity. }
  destruct Hres as [st1 Hres]. exists st1. split; [exact Hres|]. split.
  - exact (preserves_request agents (fun _ _ _ _ => eq_refl) (fun _ _ => eq_refl)
             env _ _ _ _ _ _ Hres).
  - exact (preserves_request caches caches_world caches_session env _ _ _ _ _ _ Hres).
Qed.

(** X15: list is not atomic: when an agent of the listing is registered and
    a later item is not an object, the call answers with a failure
    envelope, and yet the first agent is in the registry afterwards. *)
Theorem list_not_atomic (args : list (string * json)) (st : state)
    (m fields : list (string * json)) (bad : json) (rest : list json) (e : exn) :
  session_usable st = true -> 1 <= max_retries (config env) ->
  replies (transport env (length (sent st))) 200 (JObj m) ->
  Py.lookup "agents" m = Some (JList (JObj fields :: bad :: rest)) ->
  Py.get_method bad = Raise e ->
  Py.truthy (Py.dict_get fields "agent_id" JNull) = true ->
  Py.hashable (Py.dict_get fields "agent_id" JNull) = true ->
  is_success (fst (_list_background_agents env args st)) = false
  /\ reg_find (Py.dict_get fields "agent_id" JNull)
       (agents (snd (_list_background_agents env args st))) <> None.
Proof.
  intros Hu Hmax Hr Hm Hbad Ht Hh.
  unfold _list_background_agents, catching. cbv zeta.
  match goal with |- context [_make_api_request env ?me ?ep ?d] =>
    destruct (request_answered me ep d st (JObj m) Hu Hmax Hr) as (st1 & Hreq & _) end.
  rewrite (bind_step _ _ _ _ _ Hreq).
  set (items := JObj fields :: bad :: rest) in *.
  assert (El : lift (Py.get (JObj m) "agents" (JList [])) st1 = (Ok (JList items), st1)).
  { unfold lift, Py.get, Py.dict_get. cbn [Py.get_method]. rewrite Hm. reflexivity. }
  rewrite (bind_step _ _ _ _ _ El).
  rewrite (bind_step (lift (Py.iter (JList items))) _ st1 items st1 eq_refl).
  destruct (absorb_agent env (JObj fields) st1) as [res st2] eqn:E.
  destruct (absorb_registers fields st1 res st2 E Ht) as [(_ & -> & Hp)|(Hn & _ & _)];
    [|rewrite Hh in Hn; discriminate Hn].
  assert (Hfor : for_each (absorb_agent env) items st1 = (Raise e, st2)).
  { subst items. cbn [for_each]. rewrite (bind_step _ _ _ _ _ E).
    apply bind_fail. unfold absorb_agent. apply bind_fail. unfold lift. rewrite Hbad.
    reflexivity. }
  rewrite (bind_fail _ _ _ _ _ Hfor). cbn. split; [reflexivity|exact Hp].
Qed.

(** X16: the filters of list do nothing: two calls that agree on "limit" and
    "cursor" send the same requests and leave the same state, and their
    answers differ at most in the "filters_applied" they echo. *)
Theorem list_filters_not_applied (args args' : list (string * json)) (st : state) :
  Py.dict_get args "limit" JNull = Py.dict_get args' "limit" JNull ->
  Py.dict_get args "cursor" JNull = Py.dict_get args' "cursor" JNull ->
  snd (_list_background_agents env args st) = snd (_list_background_agents env args' st)
  /\ forall k, k <> "filters_applied" ->
       field k (fst (_list_background_agents env args st))
       = field k (fst (_list_background_agents env args' st)).
Proof.
  intros Hl Hc. unfold _list_background_agents, catching, query_param. cbv zeta.
  rewrite <- Hl, <- Hc.
  match goal with |- context [_make_api_request env ?me ?ep ?d] => set (ep0 := ep) end.
  unfold bind, lift.
  destruct (_make_api_request env "GET" ep0 None st) as [[response|e] st1];
    [|split; reflexivity].
  destruct (Py.get response "agents" (JList [])) as [listed|e]; [|split; reflexivity].
  destruct (Py.iter listed) as [items|e]; [|split; reflexivity].
  destruct (for_each (absorb_agent env) items st1) as [[[]|e] st2]; [|split; reflexivity].
  destruct (Py.len listed) as [n|e]; [|split; reflexivity].
  split; [reflexivity|]. intros k Hk. unfold field, ret. cbn [fst Py.lookup].
  rewrite (proj2 (String.eqb_neq _ _) Hk). reflexivity.
Qed.

End ListFacts.

(** ** Cache entries and their timestamps *)

Section CachePairs.

Variable env : environment.

(** X17: every operation keeps cache entries and timestamps in pairs: a slot
    holds an entry exactly when it holds a timestamp. *)
Theorem caches_stay_paired (op : operation) (st : state) :
  caches_paired st -> caches_paired (run env op st).
Proof.
  intros HP.
  assert (Hgen : forall op', op' <> Initialize -> op' <> Cleanup -> op' <> ClearCache ->
                 caches_paired (run env op' st)).
  { intros op' H1 H2 H3.
    apply (handlers_keep caches_paired env); try assumption.
    - intros. apply keeps_request_world; [intros; assumption|].
      intros st0 r st' HP0 H. unfold _ensure_session in H.
      destruct (session st0); injection H as _ <-; exact HP0.
    - intros. apply keeps_send_world. intros; assumption.
    - intros k a st0 HP0 _. exact HP0.
    - intros ? ? ? ? st0 HP0. exact HP0.
    - intros st0 HP0. exact HP0.
    - intros v t st0 (_ & Hr & Hb). split; [split; discriminate|]. split; assumption.
    - intros v t st0 (Hm & _ & Hb). split; [exact Hm|]. split; [split; discriminate|exact Hb].
    - intros key v t st0 (Hm & Hr & Hb). split; [exact Hm|]. split; [exact Hr|].
      intros k. cbn. destruct (decide (k = key)) as [->|Hne].
      + rewrite !lookup_insert_eq. split; discriminate.
      + rewrite !lookup_insert_ne by congruence. apply Hb.
    - intros args _ k a st0 r st' HP0. unfold reg_store. destruct (Py.hashable k); intros H;
        injection H as _ <-; exact HP0. }
  destruct op as [| | |args|args|args|args|args| |fr|fr|url fr];
    try (apply Hgen; discriminate).
  - cbn. unfold initialize, _ensure_session. destruct (session st); exact HP.
  - cbn. unfold cleanup. destruct (session st); exact HP.
  - cbn. split; [split; reflexivity|]. split; [split; reflexivity|].
    intros k. cbn [clear_cache modify snd _branches_cache _branches_cache_timestamp
                     set_branches_cache].
    rewrite !lookup_empty. split; reflexivity.
Qed.

End CachePairs.

(** ** When a list call goes to the network *)

Section CacheRefresh.

Variable env : environment.

Ltac frame_sent :=
  repeat first
    [ apply preserves_ret
    | apply preserves_lift
    | apply preserves_total; reflexivity
    | apply preserves_modify; reflexivity
    | apply preserves_if
    | apply preserves_bind
    | intro
    | progress cbv zeta ].

Lemma cache_check_served fr ts cache st hit st0 :
  cache_check env fr ts cache st = (Some hit, st0) ->
  fr = false /\ fresh env ts st /\ cache_truthy cache = true.
Proof.
  unfold cache_check, _is_cache_valid, time_time, fresh, _cache_duration.
  destruct fr; [discriminate|]. destruct ts as [t|]; [|discriminate].
  destruct (clock env (clock_reads st) - t <? 300) eqn:E; [|discriminate].
  destruct (cache_truthy cache); [|discriminate]. intros _.
  split; [reflexivity|]. split; [|reflexivity]. exists t. split; [reflexivity|].
  apply Z.ltb_lt. exact E.
Qed.

Lemma cache_check_missed fr ts cache st st0 :
  cache_check env fr ts cache st = (None, st0) ->
  ~ (fr = false /\ fresh env ts st /\ cache_truthy cache = true).
Proof.
  unfold cache_check, _is_cache_valid, time_time, fresh, _cache_duration.
  intros H (-> & (t & -> & Hlt) & Ht). apply Z.ltb_lt in Hlt. rewrite Hlt, Ht in H.
  destruct cache; [discriminate H|discriminate Ht].
Qed.

Lemma models_miss_sends st0 :
  session_usable st0 = true -> 1 <= max_retries (config env) ->
  (length (sent st0)
   < length (sent (snd (catching (fetch_models env) models_fallback st0))))%nat.
Proof.
  intros Hu Hmax. unfold catching. destruct (fetch_models env st0) as [r st1] eqn:F.
  assert (Hlt : (length (sent st0) < length (sent st1))%nat).
  { unfold fetch_models in F. revert F. apply bind_sends; [|frame_sent].
    intros r' st' H. exact (request_sends env _ _ _ _ _ _ Hu Hmax H). }
  destruct r as [payload|e]; [exact Hlt|].
  unfold models_fallback. destruct (_models_cache st1) as [c|]; [destruct (Py.truthy c)|];
    exact Hlt.
Qed.

Lemma repositories_miss_sends st0 :
  session_usable st0 = true -> 1 <= max_retries (config env) ->
  (length (sent st0)
   < length (sent (snd (catching (fetch_repositories env) repositories_fallback st0))))%nat.
Proof.
  intros Hu Hmax. unfold catching. destruct (fetch_repositories env st0) as [r st1] eqn:F.
  assert (Hlt : (length (sent st0) < length (sent st1))%nat).
  { unfold fetch_repositories in F. revert F. apply bind_sends; [|frame_sent].
    intros r' st' H. exact (request_sends env _ _ _ _ _ _ Hu Hmax H). }
  destruct r as [payload|e]; [exact Hlt|].
  unfold repositories_fallback.
  destruct (_repositories_cache st1) as [c|]; [destruct (Py.truthy c)|]; exact Hlt.
Qed.

(** X18: the single-slot caches are served exactly when the call does not
    force a refresh, the timestamp is less than 300 behind the clock and
    the slot holds a non-empty answer; in every other case (forced, never
    fetched, aged 300 or more) a request is sent. *)
Theorem refresh_exactly_when_stale (fr : bool) (st : state) :
  session_usable st = true -> 1 <= max_retries (config env) ->
  (sent (snd (_list_available_models env fr st)) = sent st
   <-> fr = false /\ fresh env (_models_cache_timestamp st) st
       /\ cache_truthy (_models_cache st) = true)
  /\ (sent (snd (_list_repositories env fr st)) = sent st
      <-> fr = false /\ fresh env (_repositories_cache_timestamp st) st
          /\ cache_truthy (_repositories_cache st) = true).
Proof.
  intros Hu Hmax. split.
  - unfold _list_available_models.
    destruct (cache_check env fr _ _ st) as [[hit|] st0] eqn:Hc;
      destruct (cache_check_frame _ _ _ _ _ _ _ Hc) as (_ & Hs & Hsent & _).
    + split; [intros _; exact (cache_check_served _ _ _ _ _ _ Hc)|intros _; exact Hsent].
    + split; [|intros HR; exfalso; exact (cache_check_missed _ _ _ _ _ Hc HR)].
      intros Heq. exfalso.
      assert (Hu0 : session_usable st0 = true) by (unfold session_usable; rewrite Hs; exact Hu).
      pose proof (models_miss_sends st0 Hu0 Hmax) as Hlt.
      rewrite Heq, Hsent in Hlt. lia.
  - unfold _list_repositories.
    destruct (cache_check env fr _ _ st) as [[hit|] st0] eqn:Hc;
      destruct (cache_check_frame _ _ _ _ _ _ _ Hc) as (_ & Hs & Hsent & _).
    + split; [intros _; exact (cache_check_served _ _ _ _ _ _ Hc)|intros _; exact Hsent].
    + split; [|intros HR; exfalso; exact (cache_check_missed _ _ _ _ _ Hc HR)].
      intros Heq. exfalso.
      assert (Hu0 : session_usable st0 = true) by (unfold session_usable; rewrite Hs; exact Hu).
      pose proof (repositories_miss_sends st0 Hu0 Hmax) as Hlt.
      rewrite Heq, Hsent in Hlt. lia.
Qed.

Lemma branches_miss_sends url owner repo fr st st0 s :
  _extract_repo_info url = Ok (owner, repo) ->
  branches_cache_check env fr (cache_key owner repo) st = (None, st0) ->
  session st = Some s -> closed s = false ->
  (length (sent st) < length (sent (snd (_list_repository_branches env url fr st))))%nat.
Proof.
  intros Hu Hcheck Hs Hc.
  destruct (branches_cache_check_frame _ _ _ _ _ _ Hcheck) as (_ & Hs0 & Hsent & _).
  unfold _list_repository_branches, catching, branches_body, bind, lift, total.
  rewrite Hu, Hcheck. unfold send. rewrite Hs0, Hs, Hc.
  set (st1 := set_world _ _ _ st0).
  assert (Hlt : (length (sent st) < length (sent st1))%nat).
  { subst st1. cbn. rewrite Hsent, length_app. simpl. lia. }
  destruct (transport env (length (sent st0))) as [e|resp].
  - unfold branches_fallback. rewrite Hu.
    destruct (_branches_cache st1 !! cache_key owner repo); exact Hlt.
  - destruct (on_github_response env url owner repo resp st1) as [[payload|e] st2] eqn:G;
      pose proof (github_response_keeps_sent env url owner repo resp _ _ _ G) as Hk.
    + cbn. rewrite Hk. exact Hlt.
    + unfold branches_fallback. rewrite Hu.
      destruct (_branches_cache st2 !! cache_key owner repo); cbn; rewrite Hk; exact Hlt.
Qed.

(** X19: the branches of a repository are served from the cache exactly when
    the call does not force a refresh, the timestamp under the key
    "owner/repo" is less than 300 behind the clock and there is an entry
    under that key; in every other case a request is sent (over an open
    session). *)
Theorem branches_refresh_exactly_when_stale (url owner repo : string) (fr : bool)
    (st : state) (s : ClientSession) :
  _extract_repo_info url = Ok (owner, repo) ->
  session st = Some s -> closed s = false ->
  sent (snd (_list_repository_branches env url fr st)) = sent st
  <-> fr = false
      /\ fresh env (_branches_cache_timestamp st !! cache_key owner repo) st
      /\ _branches_cache st !! cache_key owner repo <> None.
Proof.
  intros Hu Hs Hc.
  destruct (branches_cache_check env fr (cache_key owner repo) st) as [[hit|] st0] eqn:Hcheck.
  - destruct (branches_cache_check_frame _ _ _ _ _ _ Hcheck) as (_ & _ & Hsent & _).
    split; intros _.
    + unfold branches_cache_check, _is_cache_valid, time_time, fresh, _cache_duration
        in Hcheck |- *.
      destruct fr; [discriminate Hcheck|].
      destruct (_branches_cache_timestamp st !! cache_key owner repo) as [t|];
        [|discriminate Hcheck].
      destruct (clock env (clock_reads st) - t <? 300) eqn:E; [|discriminate Hcheck].
      split; [reflexivity|]. split.
      * exists t. split; [reflexivity|]. apply Z.ltb_lt. exact E.
      * injection Hcheck as -> _. discriminate.
    + unfold _list_repository_branches, catching, branches_body, bind, lift, total.
      rewrite Hu, Hcheck. exact Hsent.
  - split.
    + intros Heq. exfalso.
      pose proof (branches_miss_sends url owner repo fr st st0 s Hu Hcheck Hs Hc) as Hlt.
      rewrite Heq in Hlt. lia.
    + intros (-> & (t & Ht & Hlt) & Hin). exfalso.
      unfold branches_cache_check, _is_cache_valid, time_time, _cache_duration in Hcheck.
      rewrite Ht in Hcheck. apply Z.ltb_lt in Hlt. rewrite Hlt in Hcheck.
      injection Hcheck as Hnone _. exact (Hin Hnone).
Qed.

(** X20: after [clear_cache], each of the three list calls goes to the
    network again, whatever was cached before and whether or not a refresh
    is forced. *)
Theorem clear_cache_forces_refresh (url owner repo : string) (fr : bool)
    (st : state) (s : ClientSession) :
  session st = Some s -> closed s = false -> 1 <= max_retries (config env) ->
  _extract_repo_info url = Ok (owner, repo) ->
  let cleared := run env ClearCache st in
  (length (sent cleared) < length (sent (run env (ListModels fr) cleared)))%nat
  /\ (length (sent cleared) < length (sent (run env (ListRepositories fr) cleared)))%nat
  /\ (length (sent cleared) < length (sent (run env (ListBranches url fr) cleared)))%nat.
Proof.
  intros Hs Hc Hmax Hu cleared.
  assert (Hus : session_usable cleared = true).
  { unfold session_usable. subst cleared. cbn. rewrite Hs, Hc. reflexivity. }
  split; [|split]; cbn [run].
  - apply models_refresh_sends; [reflexivity|exact Hus|exact Hmax].
  - apply repositories_refresh_sends; [reflexivity|exact Hus|exact Hmax].
  - apply (branches_refresh_sends env url owner repo fr cleared s Hu);
      [apply lookup_empty|exact Hs|exact Hc].
Qed.

End CacheRefresh.

(** ** Each list call owns one cache slot *)

Section CacheSlots.

Variable env : environment.

Ltac frame_slot :=
  repeat first
    [ apply preserves_ret
    | apply preserves_raise
    | apply preserves_lift
    | apply preserves_request; reflexivity
    | apply preserves_send; reflexivity
    | apply preserves_total; reflexivity
    | apply preserves_modify; reflexivity
    | apply preserves_if
    | apply preserves_bind
    | intro
    | progress cbv zeta ].

Lemma models_slot fr st :
  beside_models (snd (_list_available_models env fr st)) = beside_models st.
Proof.
  unfold _list_available_models.
  destruct (cache_check env fr _ _ st) as [[cached|] st0] eqn:Hcheck;
    destruct (cache_check_frame _ _ _ _ _ _ _ Hcheck) as (Hca & _).
  - unfold caches in Hca. injection Hca as _ _ H1 H2 H3 H4.
    unfold beside_models. cbn [snd]. rewrite H1, H2, H3, H4. reflexivity.
  - transitivity (beside_models st0).
    + apply (catching_preserves beside_models); [unfold fetch_models; frame_slot|].
      intros e st1. unfold models_fallback.
      destruct (_models_cache st1) as [c|]; [destruct (Py.truthy c)|]; reflexivity.
    + unfold caches in Hca. injection Hca as _ _ H1 H2 H3 H4.
      unfold beside_models. rewrite H1, H2, H3, H4. reflexivity.
Qed.

Lemma repositories_slot fr st :
  beside_repositories (snd (_list_repositories env fr st)) = beside_repositories st.
Proof.
  unfold _list_repositories.
  destruct (cache_check env fr _ _ st) as [[cached|] st0] eqn:Hcheck;
    destruct (cache_check_frame _ _ _ _ _ _ _ Hcheck) as (Hca & _).
  - unfold caches in Hca. injection Hca as H1 H2 _ _ H3 H4.
    unfold beside_repositories. cbn [snd]. rewrite H1, H2, H3, H4. reflexivity.
  - transitivity (beside_repositories st0).
    + apply (catching_preserves beside_repositories);
        [unfold fetch_repositories; frame_slot|].
      intros e st1. unfold repositories_fallback.
      destruct (_repositories_cache st1) as [c|]; [destruct (Py.truthy c)|]; reflexivity.
    + unfold caches in Hca. injection Hca as H1 H2 _ _ H3 H4.
      unfold beside_repositories. rewrite H1, H2, H3, H4. reflexivity.
Qed.

(** What list-branches leaves alone, given as a projection [proj] of the
    state that the store under the key of the repository does not
    change. *)
Lemma branches_slot {X : Type} (proj : state -> X) url fr st :
  (forall s c z st0, proj (set_world s c z st0) = proj st0) ->
  (forall owner repo v t st0,
     _extract_repo_info url = Ok (owner, repo) ->
     proj (set_branches_cache (<[cache_key owner repo := v]> (_branches_cache st0))
             (<[cache_key owner repo := t]> (_branches_cache_timestamp st0)) st0)
     = proj st0) ->
  proj (snd (_list_repository_branches env url fr st)) = proj st.
Proof.
  intros Hworld Hstore. unfold _list_repository_branches.
  apply (catching_preserves proj).
  - unfold branches_body. intros st0 r st1. unfold bind at 1, lift.
    destruct (_extract_repo_info url) as [[owner repo]|e] eqn:Hu;
      [|intros H; injection H as _ <-; reflexivity].
    cbv beta iota. revert st0 r st1.
    apply preserves_bind.
    + apply preserves_total. intros st0. unfold branches_cache_check, _is_cache_valid, time_time.
      destruct fr; [reflexivity|].
      destruct (_branches_cache_timestamp st0 !! cache_key owner repo); cbn;
        [apply Hworld|reflexivity].
    + intros [cached|]; [apply preserves_ret|].
      apply preserves_bind.
      * intros st0 r st1. unfold send. destruct (session st0) as [s|];
          [destruct (closed s)|]; try (intros H; injection H as _ <-; reflexivity).
        destruct (transport env _); intros H; injection H as _ <-; apply Hworld.
      * intros resp. unfold on_github_response. cbv zeta.
        repeat first
          [ apply preserves_ret
          | apply preserves_lift
          | apply preserves_total; intros ?; apply Hworld
          | apply preserves_modify; intros ?; apply (Hstore owner repo _ _ _ eq_refl)
          | apply preserves_if
          | apply preserves_bind
          | intro ].
  - intros e st1. unfold branches_fallback.
    destruct (_extract_repo_info url) as [[owner repo]|];
      [destruct (_branches_cache st1 !! cache_key owner repo)|]; reflexivity.
Qed.

(** X21: each cached list writes its own slot only: list-models leaves the
    repositories and every branches entry as they were, list-repositories
    the models and every branches entry, list-branches the models, the
    repositories and the branches of every other repository (and all of
    them when the URL is not accepted); clear-cache restores the caches of
    a new server; no other operation changes any cache attribute. *)
Theorem cache_slots_independent (op : operation) (st : state) :
  let st' := run env op st in
  match op with
  | ClearCache => caches st' = caches init
  | ListModels _ => beside_models st' = beside_models st
  | ListRepositories _ => beside_repositories st' = beside_repositories st
  | ListBranches url _ =>
      beside_branches st' = beside_branches st
      /\ forall k,
           (forall owner repo, _extract_repo_info url = Ok (owner, repo) ->
                               k <> cache_key owner repo) ->
           branches_entry k st' = branches_entry k st
  | _ => caches st' = caches st
  end.
Proof.
  destruct op as [| | |args|args|args|args|args| |fr|fr|url fr]; cbv zeta; cbn [run].
  - unfold initialize, _ensure_session. destruct (session st); reflexivity.
  - unfold cleanup. destruct (session st); reflexivity.
  - reflexivity.
  - apply create_caches.
  - apply get_status_caches.
  - apply followup_caches.
  - apply stop_caches.
  - apply list_agents_caches.
  - apply usage_caches.
  - apply models_slot.
  - apply repositories_slot.
  - split.
    + apply (branches_slot beside_branches); reflexivity.
    + intros k Hk. apply (branches_slot (branches_entry k)); [reflexivity|].
      intros owner repo v t st0 Hu. unfold branches_entry. cbn.
      rewrite !lookup_insert_ne by (intros E; exact (Hk owner repo Hu (eq_sym E))).
      reflexivity.
Qed.

End CacheSlots.

(** ** The shape of every answer *)

Section Envelopes.

Variable env : environment.

Lemma failure_envelope msg rest :
  envelope (JObj (("success", JBool false) :: ("error", JStr msg) :: rest)).
Proof. right. split; [reflexivity|]. exists msg. reflexivity. Qed.

Ltac body_cases B :=
  unfold catching;
  match goal with |- context [match ?b ?st with _ => _ end] =>
    destruct (b st) as [[?r|?e] ?st'] eqn:B end;
  [|apply failure_envelope].

Lemma create_envelope args st : envelope (fst (_create_background_agent env args st)).
Proof.
  unfold _create_background_agent. body_cases B.
  do 2 step B. cbv zeta in B. do 5 step B. injection B as <- _. left. reflexivity.
Qed.

Lemma get_status_envelope args st : envelope (fst (_get_agent_status env args st)).
Proof.
  unfold _get_agent_status. body_cases B.
  do 5 step B. injection B as <- _. left. reflexivity.
Qed.

Lemma followup_envelope args st : envelope (fst (_add_followup_instruction env args st)).
Proof.
  unfold _add_followup_instruction. body_cases B.
  do 2 step B. cbv zeta in B. do 2 step B. injection B as <- _. left. reflexivity.
Qed.

Lemma stop_envelope args st : envelope (fst (_stop_background_agent env args st)).
Proof.
  unfold _stop_background_agent. body_cases B.
  do 4 step B. injection B as <- _. left. reflexivity.
Qed.

Lemma list_agents_envelope args st : envelope (fst (_list_background_agents env args st)).
Proof.
  unfold _list_background_agents. cbv zeta. body_cases B.
  do 5 step B. injection B as <- _. left. reflexivity.
Qed.

Lemma usage_envelope st : envelope (fst (_get_api_usage env st)).
Proof.
  unfold _get_api_usage, usage_fallback. body_cases B.
  unfold fetch_usage in B. do 2 step B. injection B as <- _. left. reflexivity.
Qed.

Lemma cache_check_returns fr ts cache st hit st0 :
  cache_check env fr ts cache st = (Some hit, st0) -> cache = Some hit.
Proof.
  unfold cache_check. destruct fr; [discriminate|].
  destruct (_is_cache_valid env ts st) as [valid st1].
  destruct (valid && cache_truthy cache); [|discriminate].
  intros H. injection H as -> _. reflexivity.
Qed.

Lemma models_envelope fr st :
  caches_ok st -> envelope (fst (_list_available_models env fr st)).
Proof.
  intros Hok. unfold _list_available_models.
  destruct (cache_check env fr _ _ st) as [[cached|] st0] eqn:Hcheck.
  - left. apply (proj1 Hok). exact (cache_check_returns _ _ _ _ _ _ Hcheck).
  - destruct (cache_check_frame _ _ _ _ _ _ _ Hcheck) as (Hca & _).
    unfold catching. destruct (fetch_models env st0) as [[payload|e] st1] eqn:F.
    + left. exact (proj1 (fetch_models_ok env _ _ _ F)).
    + pose proof (fetch_models_raise env _ _ _ F) as Hca1.
      assert (Hok1 : caches_ok st1).
      { apply (caches_ok_same st); [congruence|exact Hok]. }
      unfold models_fallback. destruct (_models_cache st1) as [c|] eqn:Hm.
      * destruct (Py.truthy c); [|apply failure_envelope].
        left. exact (proj1 Hok1 c Hm).
      * apply failure_envelope.
Qed.

Lemma repositories_envelope fr st :
  caches_ok st -> envelope (fst (_list_repositories env fr st)).
Proof.
  intros Hok. unfold _list_repositories.
  destruct (cache_check env fr _ _ st) as [[cached|] st0] eqn:Hcheck.
  - left. apply (proj1 (proj2 Hok)). exact (cache_check_returns _ _ _ _ _ _ Hcheck).
  - destruct (cache_check_frame _ _ _ _ _ _ _ Hcheck) as (Hca & _).
    unfold catching. destruct (fetch_repositories env st0) as [[payload|e] st1] eqn:F.
    + left. exact (proj1 (fetch_repositories_ok env _ _ _ F)).
    + pose proof (fetch_repositories_raise env _ _ _ F) as Hca1.
      assert (Hok1 : caches_ok st1).
      { apply (caches_ok_same st); [congruence|exact Hok]. }
      unfold repositories_fallback. destruct (_repositories_cache st1) as [c|] eqn:Hm.
      * destruct (Py.truthy c); [|apply failure_envelope].
        left. exact (proj1 (proj2 Hok1) c Hm).
      * apply failure_envelope.
Qed.

Lemma github_response_envelope url owner repo resp st0 payload st1 :
  on_github_response env url owner repo resp st0 = (Ok payload, st1) -> envelope payload.
Proof.
  intros H. destruct (resp_status resp =? 200) eqn:E200.
  - left. apply Z.eqb_eq in E200.
    exact (proj1 (github_response_ok env _ _ _ _ _ _ _ E200 H)).
  - unfold on_github_response in H. cbv zeta in H. rewrite E200 in H.
    destruct (resp_status resp =? 404).
    { injection H as <- _. apply failure_envelope. }
    destruct (resp_status resp =? 401).
    { injection H as <- _. apply failure_envelope. }
    step H. injection H as <- _. apply failure_envelope.
Qed.

Lemma branches_envelope url fr st :
  caches_ok st -> envelope (fst (_list_repository_branches env url fr st)).
Proof.
  intros Hok. unfold _list_repository_branches, catching.
  destruct (branches_body env url fr st) as [[payload|e] st1] eqn:B.
  - unfold branches_body in B.
    apply bind_ok in B as ([owner repo] & sa & Eu & B). apply lift_inv in Eu as [Eu ->].
    apply bind_ok in B as (hit & sb & Ec & B). unfold total in Ec.
    destruct (branches_cache_check env fr (cache_key owner repo) st) as [h st2] eqn:Hcheck.
    injection Ec as <- <-. destruct h as [cached|].
    + injection B as <- _. left.
      apply (proj2 (proj2 Hok) (cache_key owner repo)).
      unfold branches_cache_check in Hcheck. destruct fr; [discriminate Hcheck|].
      destruct (_is_cache_valid env _ st) as [valid st3].
      destruct valid; [|discriminate Hcheck]. injection Hcheck as -> _. reflexivity.
    + step B. exact (github_response_envelope _ _ _ _ _ _ _ B).
  - pose proof (branches_body_raise env _ _ _ _ _ B) as Hca.
    assert (Hok1 : caches_ok st1) by (apply (caches_ok_same st); [exact Hca|exact Hok]).
    unfold branches_fallback. destruct (_extract_repo_info url) as [[owner repo]|];
      [|apply failure_envelope].
    destruct (_branches_cache st1 !! cache_key owner repo) as [c|] eqn:Hb;
      [|apply failure_envelope].
    left. exact (proj2 (proj2 Hok1) _ c Hb).
Qed.

(** X22: every handler answers with a result envelope: its "success" is true,
    or it is false and the answer carries an "error" string.  The cached
    lists need the caches to hold success envelopes only, which is so from
    the start and kept by every operation. *)
Theorem answers_are_envelopes (op : operation) (st : state) (a : json) :
  caches_ok st -> answer env op st = Some a -> envelope a.
Proof.
  intros Hok.
  destruct op as [| | |args|args|args|args|args| |fr|fr|url fr]; cbn [answer];
    intros H; try discriminate H; injection H as <-.
  - apply create_envelope.
  - apply get_status_envelope.
  - apply followup_envelope.
  - apply stop_envelope.
  - apply list_agents_envelope.
  - apply usage_envelope.
  - apply models_envelope. exact Hok.
  - apply repositories_envelope. exact Hok.
  - apply branches_envelope. exact Hok.
Qed.

End Envelopes.

(** ** The further properties on concrete runs *)

Lemma executor_decides_witness :
  let env := flaky_then_rejected in
  let body := JObj [("error", JStr "internal")] in
  exists st', _make_api_request env "GET" "/v0/models" None init
              = (Raise (api_request_failed env 500 body), st')
              /\ sleeps st' = [1; 2]
              /\ length (sent st') = 3%nat.
Proof.
  intros env body.
  destruct (executor_decides env "GET" "/v0/models" None init 2
              {| resp_status := 500; resp_json := Ok body; resp_text := Ok "" |} body)
    as (st' & H1 & H2 & H3).
  - reflexivity.
  - simpl. lia.
  - intros i Hi. destruct i as [|[|i]]; [reflexivity|reflexivity|lia].
  - reflexivity.
  - reflexivity.
  - simpl. lia.
  - exists st'. rewrite H1, H2, H3. repeat split.
Defined.

Lemma executor_stops_on_fault_witness :
  let env := always_unreachable in
  let e := Exn ClientError "Cannot connect to host" in
  exists st', _make_api_request env "GET" "/v0/models" None init
              = (Raise (network_error env e), st')
              /\ sleeps st' = [1; 2]
              /\ length (sent st') = 3%nat.
Proof.
  intros env e.
  destruct (executor_stops_on_fault env "GET" "/v0/models" None init 2 e)
    as (st' & H1 & _ & H2 & H3).
  - reflexivity.
  - simpl. lia.
  - intros i Hi. destruct i as [|[|i]]; [reflexivity|reflexivity|lia].
  - reflexivity.
  - reflexivity.
  - exists st'. rewrite H1, H2, H3. repeat split.
Defined.

Lemma session_only_changed_by_cleanup_witness :
  let env := always_unauthorized in
  let st1 := run env Initialize init in
  let st2 := run env Cleanup st1 in
  session st2 = Some (close (new_session env))
  /\ session (run env (ListModels true) st2) = Some (close (new_session env)).
Proof.
  intros env st1 st2. split.
  - exact (session_only_changed_by_cleanup env Cleanup st1 (new_session env) eq_refl).
  - exact (session_only_changed_by_cleanup env (ListModels true) st2
             (close (new_session env)) eq_refl).
Defined.

Lemma closed_session_sends_nothing_witness :
  let env := models_then_unauthorized in
  let st := run env Cleanup (run env Initialize init) in
  sent (run env (ListModels true) st) = [] /\ sleeps (run env (ListModels true) st) = [].
Proof.
  intros env st.
  exact (closed_session_sends_nothing env (ListModels true) st (close (new_session env))
           eq_refl eq_refl).
Defined.

Lemma registry_never_forgets_witness :
  let env := created_then_running in
  let args := [("repository_url", JStr "https://github.com/acme/widgets");
               ("prompt", JStr "Fix the failing test")] in
  let st1 := run env (Create args) init in
  reg_find (JStr "a1") (agents (run env (Stop [("agent_id", JStr "a1")]) st1)) <> None.
Proof.
  intros env args st1.
  apply (registry_never_forgets env (Stop [("agent_id", JStr "a1")]) st1 (JStr "a1")).
  vm_compute. discriminate.
Defined.

Lemma creation_fields_fixed_witness :
  let env := created_then_running in
  let args := [("repository_url", JStr "https://github.com/acme/widgets");
               ("prompt", JStr "Fix the failing test")] in
  let st1 := run env (Create args) init in
  exists a a',
    reg_find (JStr "a1") (agents st1) = Some a
    /\ reg_find (JStr "a1") (agents (run env (GetStatus [("agent_id", JStr "a1")]) st1))
       = Some a'
    /\ creation_fields a' = creation_fields a.
Proof.
  intros env args st1.
  assert (E : exists a, reg_find (JStr "a1") (agents st1) = Some a)
    by (vm_compute; eexists; reflexivity).
  destruct E as [a E].
  destruct (creation_fields_fixed env (GetStatus [("agent_id", JStr "a1")]) st1
              (JStr "a1") a) as (a' & H1 & H2).
  - intros args0. discriminate.
  - exact E.
  - exists a, a'. split; [exact E|]. split; [exact H1|exact H2].
Defined.

Lemma failure_leaves_registry_witness :
  let env := always_unauthorized in
  let args := [("repository_url", JStr "https://github.com/acme/widgets");
               ("prompt", JStr "Fix the failing test")] in
  agents (snd (_create_background_agent env args init)) = agents init.
Proof.
  intros env args.
  destruct (failure_leaves_registry env args init) as (H & _).
  apply H. reflexivity.
Defined.

Lemma registry_untouched_witness :
  let env := created_then_running in
  let args := [("repository_url", JStr "https://github.com/acme/widgets");
               ("prompt", JStr "Fix the failing test")] in
  let st1 := run env (Create args) init in
  agents (run env Usage st1) = agents st1.
Proof.
  intros env args st1. apply (registry_untouched env Usage st1). reflexivity.
Defined.

Lemma records_added_only_by_create_and_list_witness :
  let env := created_then_running in
  reg_find (JStr "a1") (agents (run env (GetStatus [("agent_id", JStr "a1")]) init)) = None.
Proof.
  intros env.
  apply (records_added_only_by_create_and_list env (GetStatus [("agent_id", JStr "a1")])
           init (JStr "a1")).
  - intros args. discriminate.
  - intros args. discriminate.
  - reflexivity.
Defined.


Lemma missing_argument_rejected_witness :
  let env := created_then_running in
  let args := [("repository_url", JStr "https://github.com/acme/widgets")] in
  is_success (fst (_create_background_agent env args init)) = false
  /\ snd (_create_background_agent env args init) = init.
Proof.
  intros env args.
  destruct (missing_argument_rejected env args init) as (H & _).
  apply H. left. reflexivity.
Defined.

Lemma list_registers_listed_witness :
  let listed := [("agent_id", JStr "a7"); ("status", JStr "running")] in
  let env := scripted 1 (fun _ => json_reply 200 (JObj [("agents", JList [JObj listed])])) in
  reg_find (JStr "a7") (agents (snd (_list_background_agents env [] init))) <> None.
Proof.
  intros listed env.
  apply (list_registers_listed env [] init (snd (_list_background_agents env [] init))
           (fst (_list_background_agents env [] init)) [JObj listed] listed).
  - apply surjective_pairing.
  - vm_compute. reflexivity.
  - vm_compute. reflexivity.
  - left. reflexivity.
  - reflexivity.
Defined.

Lemma list_ignores_unkeyed_witness :
  let env := scripted 1 (fun _ => json_reply 200
                                    (JObj [("agents", JList [JObj [("id", JStr "a7")]])])) in
  agents (snd (_list_background_agents env [] init)) = [].
Proof.
  intros env.
  apply (list_ignores_unkeyed env [] init (snd (_list_background_agents env [] init))
           (fst (_list_background_agents env [] init)) [JObj [("id", JStr "a7")]]).
  - apply surjective_pairing.
  - vm_compute. reflexivity.
  - vm_compute. reflexivity.
  - intros fields [H|[]]. injection H as <-. reflexivity.
Defined.

Lemma list_not_atomic_witness :
  let listed := [("agent_id", JStr "a7")] in
  let env := scripted 1 (fun _ => json_reply 200
                                    (JObj [("agents", JList [JObj listed; JStr "oops"])])) in
  is_success (fst (_list_background_agents env [] init)) = false
  /\ reg_find (JStr "a7") (agents (snd (_list_background_agents env [] init))) <> None.
Proof.
  intros listed env.
  apply (list_not_atomic env [] init [("agents", JList [JObj listed; JStr "oops"])]
           listed (JStr "oops") [] (Exn AttributeError "'str' object has no attribute 'get'")).
  - reflexivity.
  - simpl. lia.
  - split; reflexivity.
  - reflexivity.
  - reflexivity.
  - reflexivity.
  - reflexivity.
Defined.

Lemma list_filters_not_applied_witness :
  let env := scripted 1 (fun _ => json_reply 200
                                    (JObj [("agents", JList [JObj [("agent_id", JStr "a7")]])])) in
  let filtered := [("status_filter", JStr "stopped"); ("limit", JNum 5)] in
  let unfiltered := [("limit", JNum 5)] in
  snd (_list_background_agents env filtered init)
  = snd (_list_background_agents env unfiltered init)
  /\ field "agents" (fst (_list_background_agents env filtered init))
     = field "agents" (fst (_list_background_agents env unfiltered init)).
Proof.
  intros env filtered unfiltered.
  destruct (list_filters_not_applied env filtered unfiltered init) as [H1 H2].
  - reflexivity.
  - reflexivity.
  - split; [exact H1|]. apply H2. discriminate.
Defined.

Lemma caches_paired_init : caches_paired init.
Proof.
  split; [split; reflexivity|]. split; [split; reflexivity|].
  intros k. cbn. rewrite !lookup_empty. split; reflexivity.
Qed.

Lemma caches_stay_paired_witness :
  let env := models_then_unauthorized in
  caches_paired (run env (ListModels false) init).
Proof.
  intros env. apply (caches_stay_paired env (ListModels false) init). exact caches_paired_init.
Defined.

Lemma refresh_exactly_when_stale_witness :
  let answer := json_reply 200 (JObj [("models", JList [JStr "o3"])]) in
  let quick := scripted 1 (fun _ => answer) in
  let slow := scripted 300 (fun _ => answer) in
  let st1 := run quick (ListModels false) init in
  let st2 := run slow (ListModels false) init in
  sent (snd (_list_available_models quick false st1)) = sent st1
  /\ sent (snd (_list_available_models slow false st2)) <> sent st2.
Proof.
  intros answer quick slow st1 st2. split.
  - apply (proj1 (refresh_exactly_when_stale quick false st1 eq_refl ltac:(simpl; lia))).
    split; [reflexivity|]. split; [|reflexivity].
    exists 0. split; [reflexivity|]. vm_compute. reflexivity.
  - intros Heq.
    apply (proj1 (refresh_exactly_when_stale slow false st2 eq_refl ltac:(simpl; lia)))
      in Heq.
    destruct Heq as (_ & (t & Ht & Hlt) & _).
    vm_compute in Ht. injection Ht as <-. vm_compute in Hlt. discriminate Hlt.
Defined.

Lemma branches_refresh_exactly_when_stale_witness :
  let answer := json_reply 200 (JList [JObj [("name", JStr "main")]]) in
  let url := "https://github.com/acme/widgets" in
  let quick := scripted 1 (fun _ => answer) in
  let st1 := run quick (ListBranches url false) (run quick Initialize init) in
  sent (snd (_list_repository_branches quick url false st1)) = sent st1
  /\ sent (snd (_list_repository_branches quick url true st1)) <> sent st1.
Proof.
  intros answer url quick st1. split.
  - apply (branches_refresh_exactly_when_stale quick url "acme" "widgets" false st1
             (new_session quick)); [reflexivity|reflexivity|reflexivity|].
    split; [reflexivity|]. split.
    + exists 0. split; [vm_compute; reflexivity|]. vm_compute. reflexivity.
    + vm_compute. discriminate.
  - intros Heq.
    apply (branches_refresh_exactly_when_stale quick url "acme" "widgets" true st1
             (new_session quick)) in Heq; [|reflexivity|reflexivity|reflexivity].
    destruct Heq as (Hfr & _). discriminate Hfr.
Defined.

Lemma clear_cache_forces_refresh_witness :
  let env := scripted 1 (fun _ => json_reply 200 (JObj [("models", JList [JStr "o3"])])) in
  let st1 := run env (ListModels false) init in
  let cleared := run env ClearCache st1 in
  sent (run env (ListModels false) st1) = sent st1
  /\ (length (sent cleared) < length (sent (run env (ListModels false) cleared)))%nat.
Proof.
  intros env st1 cleared. split; [reflexivity|].
  destruct (clear_cache_forces_refresh env "https://github.com/acme/widgets" "acme" "widgets"
              false st1 (new_session env)) as (H & _).
  - reflexivity.
  - reflexivity.
  - simpl. lia.
  - reflexivity.
  - exact H.
Defined.

Lemma cache_slots_independent_witness :
  let env := scripted 1 (fun _ => json_reply 200 (JList [JObj [("name", JStr "main")]])) in
  let st1 := run env (ListBranches "https://github.com/acme/gadgets" false)
               (run env Initialize init) in
  let st2 := run env (ListBranches "https://github.com/acme/widgets" false) st1 in
  branches_entry "acme/gadgets" st2 = branches_entry "acme/gadgets" st1
  /\ fst (branches_entry "acme/gadgets" st1) <> None
  /\ fst (branches_entry "acme/widgets" st2) <> None.
Proof.
  intros env st1 st2.
  destruct (cache_slots_independent env (ListBranches "https://github.com/acme/widgets" false)
              st1) as [_ H].
  split; [|split; vm_compute; discriminate].
  apply H. intros owner repo Hu. vm_compute in Hu. injection Hu as <- <-. discriminate.
Defined.

Lemma answers_are_envelopes_witness :
  let env := always_unauthorized in
  envelope (fst (_list_available_models env false init)).
Proof.
  intros env.
  apply (answers_are_envelopes env (ListModels false) init); [exact caches_ok_init|].
  reflexivity.
Defined.

(** ** The agents-summary resource *)

Lemma key_eqb_sym a b : Py.key_eqb a b = Py.key_eqb b a.
Proof.
  destruct a as [|x|x|x|x|x], b as [|y|y|y|y|y]; cbn; try reflexivity;
    try (destruct x; reflexivity); try (destruct y; reflexivity).
  - destruct x, y; reflexivity.
  - destruct x; apply Z.eqb_sym.
  - destruct y; apply Z.eqb_sym.
  - apply Z.eqb_sym.
  - apply String.eqb_sym.
Qed.

Lemma key_eqb_trans a b c :
  Py.key_eqb a b = true -> Py.key_eqb b c = true -> Py.key_eqb a c = true.
Proof.
  assert (Hint_eq : forall x y, Py.as_int x = Some y ->
                    forall v, Py.key_eqb x v = match Py.as_int v with
                                               | Some z => y =? z
                                               | None => false
                                               end).
  { intros x y Hx v. destruct x as [|p|p|p|p|p]; try discriminate Hx.
    - destruct p; injection Hx as <-; destruct v as [|q|q|q|q|q]; try reflexivity;
        destruct q; reflexivity.
    - injection Hx as <-. destruct v as [|q|q|q|q|q]; try reflexivity;
        destruct q; reflexivity. }
  destruct (Py.as_int a) as [x|] eqn:Ea.
  - rewrite !(Hint_eq a x Ea). destruct (Py.as_int b) as [y|] eqn:Eb; [|discriminate].
    rewrite (Hint_eq b y Eb). intros H1. apply Z.eqb_eq in H1 as ->. auto.
  - destruct a as [|p|p|p|p|p]; try (destruct p; discriminate Ea); try discriminate Ea.
    + destruct b as [|q|q|q|q|q]; try discriminate; auto.
    + destruct b as [|q|q|q|q|q]; try discriminate. cbn. intros H1.
      apply String.eqb_eq in H1 as ->. auto.
    + destruct b as [|q|q|q|q|q]; discriminate.
    + destruct b as [|q|q|q|q|q]; discriminate.
Qed.

Lemma tally_get_set k k' n d default :
  tally_get k (tally_set k' n d) default
  = if Py.key_eqb k k' then n else tally_get k d default.
Proof.
  induction d as [|[k'' m] d IH]; cbn.
  - destruct (Py.key_eqb k k'); reflexivity.
  - destruct (Py.key_eqb k' k'') eqn:E1; cbn.
    + destruct (Py.key_eqb k k'') eqn:E2.
      * rewrite key_eqb_sym in E1. rewrite (key_eqb_trans k k'' k' E2 E1). reflexivity.
      * destruct (Py.key_eqb k k') eqn:E3; [|reflexivity].
        rewrite (key_eqb_trans k k' k'' E3 E1) in E2. discriminate E2.
    + destruct (Py.key_eqb k k'') eqn:E2; [|exact IH].
      destruct (Py.key_eqb k k') eqn:E3; [|reflexivity].
      rewrite key_eqb_sym in E3. rewrite (key_eqb_trans k' k k'' E3 E2) in E1. discriminate E1.
Qed.

Lemma tally_sum_bump k d :
  tally_sum (tally_set k (tally_get k d 0 + 1) d) = tally_sum d + 1.
Proof.
  induction d as [|[k' m] d IH]; cbn; [lia|].
  destruct (Py.key_eqb k k'); cbn; [lia|]. rewrite IH. lia.
Qed.

Lemma summarise_ok l : forall s s',
  summarise l s = Ok s' ->
  total_agents s' = total_agents s
  /\ summary_agents s' = (summary_agents s ++ List.map (fun ka => summary_entry (snd ka)) l)%list
  /\ tally_sum (agents_by_status s') = tally_sum (agents_by_status s) + Z.of_nat (length l)
  /\ forall k, tally_get k (agents_by_status s') 0
               = tally_get k (agents_by_status s) 0 + Z.of_nat (length (with_status k l)).
Proof.
  induction l as [|[id a] l IH]; intros s s' H; cbn [summarise] in H.
  - injection H as <-. cbn. rewrite app_nil_r. repeat split; intros; lia.
  - unfold summarise_agent in H. destruct (Py.hashable (status a)); [|discriminate H].
    apply IH in H as (H1 & H2 & H3 & H4). cbn in H1, H2, H3, H4.
    split; [exact H1|]. split; [rewrite H2, <- app_assoc; reflexivity|].
    split; [rewrite H3, tally_sum_bump; cbn [length]; lia|].
    intros k. rewrite H4, tally_get_set. unfold with_status. cbn [List.filter snd].
    destruct (Py.key_eqb k (status a)) eqn:E.
    + rewrite key_eqb_sym in E.
      assert (Hg : forall d, tally_get (status a) d 0 = tally_get k d 0).
      { intros d. induction d as [|[k'' m] d IHd]; cbn; [reflexivity|].
        destruct (Py.key_eqb (status a) k'') eqn:E1.
        - rewrite key_eqb_sym in E. rewrite (key_eqb_trans _ _ _ E E1). reflexivity.
        - destruct (Py.key_eqb k k'') eqn:E2; [|exact IHd].
          rewrite (key_eqb_trans _ _ _ E E2) in E1. discriminate E1. }
      rewrite Hg. cbn [length]. lia.
    + lia.
Qed.

(** X23: when the summary is built, its total is the size of the registry,
    there is one entry per record, the counts by status add up to the
    total, and the count under each status is the number of records with
    that status. *)
Theorem summary_counts (st : state) (s : Summary) :
  agents_summary st = Ok s ->
  total_agents s = length (agents st)
  /\ length (summary_agents s) = length (agents st)
  /\ tally_sum (agents_by_status s) = Z.of_nat (total_agents s)
  /\ forall k, tally_get k (agents_by_status s) 0
               = Z.of_nat (length (with_status k (agents st))).
Proof.
  intros H. apply summarise_ok in H as (H1 & H2 & H3 & H4). cbn in H1, H2, H3, H4.
  split; [exact H1|]. split; [rewrite H2, length_map; reflexivity|].
  split; [rewrite H3, H1; reflexivity|]. intros k. rewrite H4. reflexivity.
Qed.

(** X24: the summary cannot be built exactly when some record has a status
    that is a list or an object (get-status and list store whatever the
    API reports): then the loop raises and the resource is an error
    object. *)
Theorem summary_fails_on_structured_status (st : state) :
  (exists e, agents_summary st = Raise e)
  <-> Exists (fun ka => Py.hashable (status (snd ka)) = false) (agents st).
Proof.
  unfold agents_summary. generalize (length (agents st)), (@nil (json * Z)), (@nil json).
  intros n. induction (agents st) as [|[id a] l IH]; intros counts entries; cbn [summarise].
  - split; [intros [e H]; discriminate H|intros H; inversion H].
  - unfold summarise_agent. destruct (Py.hashable (status a)) eqn:Hh.
    + cbn [total_agents agents_by_status summary_agents]. rewrite IH.
      split; [intros H; apply Exists_cons_tl; exact H|].
      intros H. inversion H as [x l' Hx|x l' Hx]; subst; [|exact Hx].
      cbn in Hx. rewrite Hh in Hx. discriminate Hx.
    + split; [intros _; apply Exists_cons_hd; exact Hh|intros _; eexists; reflexivity].
Qed.

(** X25: the count of the summary under "running" is the number of active
    agents that usage reports when it falls back to the registry, and the
    totals agree. *)
Theorem summary_agrees_with_usage (st : state) (s : Summary) (e : exn) :
  agents_summary st = Ok s ->
  field "usage" (fst (usage_fallback e st))
  = Some (JObj [("active_agents", JNum (tally_get (JStr "running") (agents_by_status s) 0));
                ("total_agents_created", JNum (Z.of_nat (total_agents s)))]).
Proof.
  intros H. apply summarise_ok in H as (H1 & _ & _ & H4).
  cbn [total_agents agents_by_status tally_get] in H1, H4.
  assert (Hu : field "usage" (fst (usage_fallback e st)) = Some (local_usage st))
    by reflexivity.
  rewrite Hu, H4, H1, Z.add_0_l. unfold local_usage, with_status. do 7 f_equal.
  apply filter_ext. intros [k a]. unfold running. cbn [snd].
  destruct (status a) as [|b|z|t|l|m]; try reflexivity.
  apply String.eqb_sym.
Qed.

Lemma summary_counts_witness :
  let st := run three_listed (ListAgents []) init in
  exists s, agents_summary st = Ok s
            /\ total_agents s = 3%nat
            /\ tally_sum (agents_by_status s) = 3
            /\ tally_get (JStr "running") (agents_by_status s) 0 = 2
            /\ tally_get (JStr "stopped") (agents_by_status s) 0 = 1
            /\ tally_get (JStr "failed") (agents_by_status s) 0 = 0.
Proof.
  intros st.
  assert (E : exists s, agents_summary st = Ok s) by (vm_compute; eexists; reflexivity).
  destruct E as [s E]. destruct (summary_counts st s E) as (H1 & _ & H3 & H4).
  exists s. split; [exact E|]. split; [rewrite H1; reflexivity|].
  split; [rewrite H3, H1; reflexivity|]. rewrite !H4. repeat split.
Defined.

Lemma summary_fails_on_structured_status_witness :
  let env := created_then_structured in
  let args := [("repository_url", JStr "https://github.com/acme/widgets");
               ("prompt", JStr "Fix the failing test")] in
  let st1 := run env (Create args) init in
  let st2 := run env (GetStatus [("agent_id", JStr "a1")]) st1 in
  (exists s, agents_summary st1 = Ok s) /\ (exists e, agents_summary st2 = Raise e).
Proof.
  intros env args st1 st2. split; [vm_compute; eexists; reflexivity|].
  apply (proj2 (summary_fails_on_structured_status st2)).
  apply Exists_exists.
  assert (E : exists x, agents st2 = [x] /\ Py.hashable (status (snd x)) = false)
    by (vm_compute; eexists; split; reflexivity).
  destruct E as (x & E & Hx). exists x. rewrite E. split; [left; reflexivity|exact Hx].
Defined.

Lemma summary_agrees_with_usage_witness :
  let st := run three_listed (ListAgents []) init in
  field "usage" (fst (usage_fallback authentication_failed st))
  = Some (JObj [("active_agents", JNum 2); ("total_agents_created", JNum 3)]).
Proof.
  intros st.
  assert (E : exists s, agents_summary st = Ok s) by (vm_compute; eexists; reflexivity).
  destruct E as [s E].
  rewrite (summary_agrees_with_usage st s authentication_failed E).
  vm_compute in E. injection E as <-. reflexivity.
Defined.
